(** * PiPiXia: the lowering engine (AST to LLVM IR)

    A shallow embedding of the code generator of the PiPiXia compiler
    (class [CodeGenerator], file codegen.cc) together with a small
    operational semantics of the fragment of LLVM IR it emits.

    Conventions.
    - Every member function of [CodeGenerator] is a computation in the
      monad [CG]: it reads and updates the generator's members and either
      finishes ([Done]) or brings the compiler itself down ([Abort]: a null
      pointer is dereferenced or an LLVM constructor is handed a type it
      refuses).
    - [llvm::Value*], [llvm::BasicBlock*], [llvm::Function*] are handles;
      two handles are the same pointer iff they are equal here.  Constants
      are uniqued by LLVM, so structural equality is pointer equality for
      them too.
    - The IRBuilder appends one instruction per [Create...] call.  Its
      constant folder is not modelled; a cast to the operand's own type
      returns the operand, as the builder does.
    - Verbose tracing ([g_verbose]) is switched off; what goes to
      [std::cerr] is kept, line by line, in [cerr].
    - A recursive call [codegenExpr(child)] / [codegenStmt(child)] inside a
      member function is a call of the section variable of the same name;
      the knot is tied by the [Fixpoint]s [codegenExpr] and [codegenStmt]
      at the end of the lowering part.
    - The tree covers literals, identifiers, unary and binary operators,
      calls, array and member access, declarations, assignments, blocks,
      [if], [while], [return], [break], [continue], function declarations
      and imports.  Interpolated strings, array literals, [for], [switch]
      and [try]/[catch]/[throw] are left out.
    - The file system and the parser are parameters of the module loader
      ([fileExists], [openAndParse]), LLVM's verifier is a parameter of
      [generate] ([verifyModule]).
    - The machine that runs the emitted code knows the library functions
      [printf], [exit], [strlen], [malloc], [free], [strcpy] and [strcat];
      [printf] is recorded as an event with its format and arguments.
      What LLVM leaves undefined (a load outside an allocation, a second
      [free]) stops the machine in [Faulted]. *)

From Stdlib Require Import ZArith Ascii String List Bool Lia.
From Stdlib Require Import Floats.SpecFloat.
From stdpp Require Import base tactics option list gmap strings pretty.

#[local] Set Warnings "-register-all".
#[local] Open Scope string_scope.
#[local] Open Scope list_scope.
#[local] Open Scope stdpp_scope.

(** ** The parsed tree (node.h) *)

Record TypeNode := mkTypeNode {
  typeName : string;
  arrayDimensions : list Z
}.

(** Expression nodes.  Only [IdentifierNode]'s line number is read by the
    generator, so only that one is kept. *)
Inductive ExprNode : Type :=
| IntLiteralNode (value : Z)
| DoubleLiteralNode (value : spec_float)
| StringLiteralNode (value : string)
| CharLiteralNode (value : Z)
| BoolLiteralNode (value : bool)
| IdentifierNode (name : string) (lineNumber : Z)
| BinaryOpNode (op : string) (left right : ExprNode)
| UnaryOpNode (op : string) (operand : ExprNode)
| FunctionCallNode (functionName : string) (arguments : list ExprNode)
                   (object : option ExprNode)
| ArrayAccessNode (array index : ExprNode)
| MemberAccessNode (object : ExprNode) (memberName : string).

Record ParameterNode := mkParameterNode {
  paramName : string;
  paramType : TypeNode
}.

Inductive StmtNode : Type :=
| VarDeclNode (isConst : bool) (name : string) (type : TypeNode)
              (initializer : option ExprNode)
| AssignmentNode (target : ExprNode) (op : string) (value : ExprNode)
| BlockNode (statements : list StmtNode)
| IfStmtNode (condition : ExprNode) (thenBranch : StmtNode)
             (elseBranch : option StmtNode)
| WhileStmtNode (condition : ExprNode) (body : StmtNode)
| ReturnStmtNode (value : option ExprNode)
| BreakStmtNode
| ContinueStmtNode
| ExprStmtNode (expression : ExprNode)
| FunctionDeclNode (name : string) (parameters : list ParameterNode)
                   (returnType : option TypeNode)
                   (body : option (list StmtNode))
| ImportNode (moduleName alias : string).

Record ProgramNode := mkProgramNode { statements : list StmtNode }.

(** ** LLVM IR: types, values, instructions *)

Inductive llvmType : Type :=
| VoidTy
| IntegerTy (bits : N)
| DoubleTy
| PointerTy
| ArrayTy (elementType : llvmType) (numElements : N).

#[global] Instance llvmType_eq_dec : EqDecision llvmType.
Proof. solve_decision. Defined.

Definition isVoidTy (t : llvmType) : bool :=
  match t with VoidTy => true | _ => false end.
Definition isIntegerTy (t : llvmType) : bool :=
  match t with IntegerTy _ => true | _ => false end.
Definition isIntegerTyN (n : N) (t : llvmType) : bool :=
  match t with IntegerTy b => N.eqb b n | _ => false end.
Definition isDoubleTy (t : llvmType) : bool :=
  match t with DoubleTy => true | _ => false end.
Definition isPointerTy (t : llvmType) : bool :=
  match t with PointerTy => true | _ => false end.
Definition isArrayTy (t : llvmType) : bool :=
  match t with ArrayTy _ _ => true | _ => false end.
Definition getIntegerBitWidth (t : llvmType) : N :=
  match t with IntegerTy b => b | _ => 0%N end.

Record FunctionType := mkFunctionType {
  ftReturn : llvmType;
  ftParams : list llvmType;
  ftVarArg : bool
}.

#[global] Instance FunctionType_eq_dec : EqDecision FunctionType.
Proof. solve_decision. Defined.

(** [llvm::Function*]: the handle.  The body (its blocks) lives in the
    module state. *)
Record Function := mkFunction {
  fnId : nat;
  fnName : string;
  fnType : FunctionType
}.

#[global] Instance Function_eq_dec : EqDecision Function.
Proof. solve_decision. Defined.

Record GlobalVariable := mkGlobalVariable {
  gvId : nat;
  gvName : string;
  gvValueType : llvmType
}.

#[global] Instance GlobalVariable_eq_dec : EqDecision GlobalVariable.
Proof. solve_decision. Defined.

#[global] Instance spec_float_eq_dec : EqDecision spec_float.
Proof. solve_decision. Defined.

(** [llvm::Value*].  An integer constant keeps its bits as the unsigned
    number below [2 ^ bits]. *)
Inductive Value : Type :=
| ConstantInt (bits : N) (v : Z)
| ConstantFP (d : spec_float)
| ConstantPointerNull
| ConstantAggregateZero (t : llvmType)
| GlobalString (id : nat)
| GlobalVariableV (gv : GlobalVariable)
| ArgumentV (fn : nat) (idx : nat) (t : llvmType)
| InstValue (id : nat) (t : llvmType).

#[global] Instance Value_eq_dec : EqDecision Value.
Proof. solve_decision. Defined.

(** [Value::getType] *)
Definition typeOf (v : Value) : llvmType :=
  match v with
  | ConstantInt b _ => IntegerTy b
  | ConstantFP _ => DoubleTy
  | ConstantPointerNull => PointerTy
  | ConstantAggregateZero t => t
  | GlobalString _ => PointerTy
  | GlobalVariableV _ => PointerTy
  | ArgumentV _ _ t => t
  | InstValue _ t => t
  end.

(** binary64 *)
Definition prec : Z := 53.
Definition emax : Z := 1024.
Definition fzero : spec_float := S754_zero false.
Definition fnan : spec_float := S754_nan.

(** [llvm::Constant::getNullValue] *)
Definition getNullValue (t : llvmType) : Value :=
  match t with
  | IntegerTy b => ConstantInt b 0
  | DoubleTy => ConstantFP fzero
  | PointerTy => ConstantPointerNull
  | _ => ConstantAggregateZero t
  end.

(** [llvm::AllocaInst*] *)
Record AllocaInst := mkAllocaInst {
  allocaId : nat;
  getAllocatedType : llvmType
}.

#[global] Instance AllocaInst_eq_dec : EqDecision AllocaInst.
Proof. solve_decision. Defined.

Definition allocaValue (a : AllocaInst) : Value :=
  InstValue (allocaId a) PointerTy.

Inductive BinOp := Add | Sub | Mul | SDiv | SRem | FAdd | FSub | FMul | FDiv | FRem | Or | Xor.
Inductive CastOp := ZExt | SExt | Trunc | BitCast | SIToFP | UIToFP | FPToSI.
Inductive ICmpPred := ICMP_EQ | ICMP_NE | ICMP_SLT | ICMP_SGT | ICMP_SLE | ICMP_SGE.
Inductive FCmpPred := FCMP_OEQ | FCMP_ONE | FCMP_OLT | FCMP_OGT | FCMP_OLE | FCMP_OGE.

Inductive InstOp : Type :=
| OpBinary (op : BinOp) (l r : Value)
| OpFNeg (v : Value)
| OpICmp (p : ICmpPred) (l r : Value)
| OpFCmp (p : FCmpPred) (l r : Value)
| OpCast (op : CastOp) (v : Value) (dest : llvmType)
| OpSelect (c t f : Value)
| OpCall (callee : Function) (args : list Value)
| OpAlloca (t : llvmType)
| OpLoad (t : llvmType) (ptr : Value)
| OpStore (v ptr : Value)
| OpGEP (sourceType : llvmType) (ptr : Value) (indices : list Value)
| OpPHI (t : llvmType) (incoming : list (Value * nat))
| OpBr (dest : nat)
| OpCondBr (c : Value) (ifTrue ifFalse : nat)
| OpRet (v : option Value)
| OpUnreachable.

Record Instruction := mkInstruction {
  instId : nat;
  instName : string;
  instOp : InstOp
}.

Definition isTerminator (i : Instruction) : bool :=
  match instOp i with
  | OpBr _ | OpCondBr _ _ _ | OpRet _ | OpUnreachable => true
  | _ => false
  end.

Record BasicBlock := mkBasicBlock {
  bbName : string;
  bbParent : option Function;
  bbInsts : list Instruction
}.

(** [BasicBlock::getTerminator]: the last instruction, if it is a
    terminator. *)
Definition getTerminator (bb : BasicBlock) : option Instruction :=
  match last (bbInsts bb) with
  | Some i => if isTerminator i then Some i else None
  | None => None
  end.

Record GlobalInfo := mkGlobalInfo {
  giVariable : GlobalVariable;
  giConstant : bool;
  giInitializer : Value
}.

(** The LLVM context, module and builder.  One counter numbers every
    object that is created (instructions, blocks, functions, globals).
    [irSymbols] is the module's symbol table as [Module::getFunction] sees
    it: a name is bound to a function ([Some f]) or to a global variable
    ([None]); a global value created under a taken name is renamed by LLVM
    with a dotted suffix no source identifier can spell, so it gets no
    entry. *)
Record IRState := mkIRState {
  irSymbols : gmap string (option Function);
  irLayout : gmap nat (list nat);
  irBlocks : gmap nat BasicBlock;
  irStrings : gmap nat string;
  irGlobals : gmap nat GlobalInfo;
  irNextId : nat;
  irInsertBlock : option nat
}.

Definition set_irSymbols (x : gmap string (option Function)) (m : IRState) :=
  mkIRState x (irLayout m) (irBlocks m) (irStrings m) (irGlobals m) (irNextId m) (irInsertBlock m).
Definition set_irLayout (x : gmap nat (list nat)) (m : IRState) :=
  mkIRState (irSymbols m) x (irBlocks m) (irStrings m) (irGlobals m) (irNextId m) (irInsertBlock m).
Definition set_irBlocks (x : gmap nat BasicBlock) (m : IRState) :=
  mkIRState (irSymbols m) (irLayout m) x (irStrings m) (irGlobals m) (irNextId m) (irInsertBlock m).
Definition set_irStrings (x : gmap nat string) (m : IRState) :=
  mkIRState (irSymbols m) (irLayout m) (irBlocks m) x (irGlobals m) (irNextId m) (irInsertBlock m).
Definition set_irGlobals (x : gmap nat GlobalInfo) (m : IRState) :=
  mkIRState (irSymbols m) (irLayout m) (irBlocks m) (irStrings m) x (irNextId m) (irInsertBlock m).
Definition set_irNextId (x : nat) (m : IRState) :=
  mkIRState (irSymbols m) (irLayout m) (irBlocks m) (irStrings m) (irGlobals m) x (irInsertBlock m).
Definition set_irInsertBlock (x : option nat) (m : IRState) :=
  mkIRState (irSymbols m) (irLayout m) (irBlocks m) (irStrings m) (irGlobals m) (irNextId m) x.

(** ** The members of [CodeGenerator] (codegen.h) *)

(** Compilation status. *)
Record Diagnostics := mkDiagnostics {
  errorCount : Z;
  warningCount : Z;
  cerr : list string
}.

(** Symbol tables.  [operator[]] on a [std::map] of pointers inserts a null
    entry for a missing key, so the pointer-valued tables hold options. *)
Record SymbolTables := mkSymbolTables {
  namedValues : gmap string (option AllocaInst);
  globalValues : gmap string (option GlobalVariable);
  functions : gmap string Function;
  variableTypes : gmap string string
}.

Record LoopContext := mkLoopContext {
  continueBlock : option nat;
  breakBlock : option nat
}.

Record GlobalInitializer := mkGlobalInitializer {
  giTarget : GlobalVariable;
  giExpr : ExprNode
}.

(** Control-flow context. *)
Record ControlContext := mkControlContext {
  currentFunction : option Function;
  loopContextStack : list LoopContext;
  globalInitializers : list GlobalInitializer
}.

(** Memory management. *)
Record MemoryTracker := mkMemoryTracker {
  tempMemoryStack : list Value;
  ownedStringMemory : gmap string Value
}.

(** Module management. *)
Record ModuleRegistry := mkModuleRegistry {
  loadedModules : gset string;
  moduleAliases : gmap string string;
  moduleFunctions : gmap string (gmap string Function);
  moduleGlobals : gmap string (gmap string (option GlobalVariable));
  currentDirectory : string;
  sourceDirectory : string
}.

Record CodeGenerator := mkCodeGenerator {
  ir : IRState;
  diag : Diagnostics;
  syms : SymbolTables;
  ctl : ControlContext;
  mem : MemoryTracker;
  mods : ModuleRegistry
}.

Definition set_ir (x : IRState) (s : CodeGenerator) :=
  mkCodeGenerator x (diag s) (syms s) (ctl s) (mem s) (mods s).
Definition set_diag (x : Diagnostics) (s : CodeGenerator) :=
  mkCodeGenerator (ir s) x (syms s) (ctl s) (mem s) (mods s).
Definition set_syms (x : SymbolTables) (s : CodeGenerator) :=
  mkCodeGenerator (ir s) (diag s) x (ctl s) (mem s) (mods s).
Definition set_ctl (x : ControlContext) (s : CodeGenerator) :=
  mkCodeGenerator (ir s) (diag s) (syms s) x (mem s) (mods s).
Definition set_mem (x : MemoryTracker) (s : CodeGenerator) :=
  mkCodeGenerator (ir s) (diag s) (syms s) (ctl s) x (mods s).
Definition set_mods (x : ModuleRegistry) (s : CodeGenerator) :=
  mkCodeGenerator (ir s) (diag s) (syms s) (ctl s) (mem s) x.

(** ** The generator monad *)

Inductive Result (A : Type) : Type :=
| Done (a : A) (s : CodeGenerator)
| Abort (why : string).
Arguments Done {A} a s.
Arguments Abort {A} why.

Definition CG (A : Type) : Type := CodeGenerator -> Result A.

Definition ret {A} (a : A) : CG A := fun s => Done a s.
Definition bind {A B} (m : CG A) (k : A -> CG B) : CG B :=
  fun s => match m s with Done a s' => k a s' | Abort w => Abort w end.
Definition abort {A} (why : string) : CG A := fun _ => Abort why.
Definition get : CG CodeGenerator := fun s => Done s s.
Definition gets {A} (f : CodeGenerator -> A) : CG A := fun s => Done (f s) s.
Definition modify (f : CodeGenerator -> CodeGenerator) : CG unit :=
  fun s => Done tt (f s).

Notation "'let*' x ':=' c 'in' k" := (bind c (fun x => k))
  (at level 10, x name, c at level 100, k at level 200).
Notation "c ;; k" := (bind c (fun _ => k))
  (at level 100, k at level 200, right associativity).

(** [if (!v) return nullptr;] *)
Notation "'let?' x ':=' c 'in' k" :=
  (bind c (fun o => match o with Some x => k | None => ret None end))
  (at level 10, x name, c at level 100, k at level 200).

Definition when (b : bool) (c : CG unit) : CG unit := if b then c else ret tt.

(** A loop over a vector whose body may leave the function: the body
    answers [inl r] to return [r] at once and [inr acc] to go on. *)
Fixpoint forEach {A Acc R} (body : Acc -> A -> CG (R + Acc)) (acc : Acc)
    (l : list A) : CG (R + Acc) :=
  match l with
  | [] => ret (inr acc)
  | x :: rest =>
      let* r := body acc x in
      match r with
      | inl res => ret (inl res)
      | inr acc' => forEach body acc' rest
      end
  end.

Definition modify_ir (f : IRState -> IRState) : CG unit :=
  modify (fun s => set_ir (f (ir s)) s).

(** ** The LLVM API the generator calls *)

Definition freshId : CG nat :=
  fun s => Done (irNextId (ir s))
                (set_ir (set_irNextId (S (irNextId (ir s))) (ir s)) s).

(** [builder->GetInsertBlock()], where the result is dereferenced. *)
Definition GetInsertBlock : CG nat :=
  fun s => match irInsertBlock (ir s) with
           | Some b => Done b s
           | None => Abort "GetInsertBlock: the builder has no insertion block"
           end.

Definition getBlock (b : nat) : CG BasicBlock :=
  fun s => match irBlocks (ir s) !! b with
           | Some bb => Done bb s
           | None => Abort "dangling basic block"
           end.

Definition setBlock (b : nat) (bb : BasicBlock) : CG unit :=
  modify_ir (fun m => set_irBlocks (<[b := bb]> (irBlocks m)) m).

(** [bb->getParent()] *)
Definition getParent (b : nat) : CG (option Function) :=
  let* bb := getBlock b in ret (bbParent bb).

(** [function->insert(function->end(), bb)] *)
Definition Function_insert (f : Function) (b : nat) : CG unit :=
  let* bb := getBlock b in
  setBlock b (mkBasicBlock (bbName bb) (Some f) (bbInsts bb)) ;;
  modify_ir (fun m =>
    set_irLayout (<[fnId f := default [] (irLayout m !! fnId f) ++ [b]]> (irLayout m)) m).

(** [llvm::BasicBlock::Create(ctx, name, function)]; without a
    function the block stays detached. *)
Definition BasicBlock_Create (name : string) (function : option Function) : CG nat :=
  let* id := freshId in
  setBlock id (mkBasicBlock name None []) ;;
  match function with
  | Some f => Function_insert f id
  | None => ret tt
  end ;;
  ret id.

Definition SetInsertPoint (b : nat) : CG unit :=
  modify_ir (set_irInsertBlock (Some b)).

(** [IRBuilder::Insert]: the instruction goes to the end of the insertion
    block; a builder without insertion block leaves it floating. *)
Definition Insert (name : string) (op : InstOp) (ty : llvmType) : CG Value :=
  let* id := freshId in
  let* ib := gets (fun s => irInsertBlock (ir s)) in
  match ib with
  | Some b =>
      let* bb := getBlock b in
      setBlock b (mkBasicBlock (bbName bb) (bbParent bb)
                    (bbInsts bb ++ [mkInstruction id name op]))
  | None => ret tt
  end ;;
  ret (InstValue id ty).

(** [builder->GetInsertBlock()->getTerminator()] *)
Definition insertBlockTerminator : CG (option Instruction) :=
  let* b := GetInsertBlock in
  let* bb := getBlock b in
  ret (getTerminator bb).

(** [llvm::ConstantInt::get(type, v)]; the type has to be an integer type. *)
Definition ConstantInt_get (t : llvmType) (v : Z) : CG Value :=
  match t with
  | IntegerTy b => ret (ConstantInt b (v mod 2 ^ Z.of_N b))
  | _ => abort "ConstantInt::get: not an integer type"
  end.

Definition i1 := IntegerTy 1.
Definition i8 := IntegerTy 8.
Definition i32 := IntegerTy 32.
Definition i64 := IntegerTy 64.
Definition ConstantInt_getTrue : Value := ConstantInt 1 1.
Definition ConstantInt_getFalse : Value := ConstantInt 1 0.

Definition CreateBinOp (op : BinOp) (l r : Value) (name : string) : CG Value :=
  Insert name (OpBinary op l r) (typeOf l).
Definition CreateAdd := CreateBinOp Add.
Definition CreateSub := CreateBinOp Sub.
Definition CreateMul := CreateBinOp Mul.
Definition CreateSDiv := CreateBinOp SDiv.
Definition CreateSRem := CreateBinOp SRem.
Definition CreateFAdd := CreateBinOp FAdd.
Definition CreateFSub := CreateBinOp FSub.
Definition CreateFMul := CreateBinOp FMul.
Definition CreateFDiv := CreateBinOp FDiv.
Definition CreateFRem := CreateBinOp FRem.
Definition CreateOr := CreateBinOp Or.
Definition CreateNeg (v : Value) (name : string) : CG Value :=
  CreateSub (getNullValue (typeOf v)) v name.
Definition CreateFNeg (v : Value) (name : string) : CG Value :=
  Insert name (OpFNeg v) (typeOf v).
Definition CreateNot (v : Value) (name : string) : CG Value :=
  match typeOf v with
  | IntegerTy b => CreateBinOp Xor v (ConstantInt b (2 ^ Z.of_N b - 1)) name
  | _ => abort "getAllOnesValue: not an integer type"
  end.
Definition CreateICmp (p : ICmpPred) (l r : Value) (name : string) : CG Value :=
  Insert name (OpICmp p l r) i1.
Definition CreateICmpEQ := CreateICmp ICMP_EQ.
Definition CreateICmpNE := CreateICmp ICMP_NE.
Definition CreateICmpSLT := CreateICmp ICMP_SLT.
Definition CreateICmpSGT := CreateICmp ICMP_SGT.
Definition CreateICmpSLE := CreateICmp ICMP_SLE.
Definition CreateICmpSGE := CreateICmp ICMP_SGE.
Definition CreateFCmp (p : FCmpPred) (l r : Value) (name : string) : CG Value :=
  Insert name (OpFCmp p l r) i1.
Definition CreateFCmpOEQ := CreateFCmp FCMP_OEQ.
Definition CreateFCmpONE := CreateFCmp FCMP_ONE.
Definition CreateFCmpOLT := CreateFCmp FCMP_OLT.
Definition CreateFCmpOGT := CreateFCmp FCMP_OGT.
Definition CreateFCmpOLE := CreateFCmp FCMP_OLE.
Definition CreateFCmpOGE := CreateFCmp FCMP_OGE.
Definition CreateCast (op : CastOp) (v : Value) (dest : llvmType) (name : string)
    : CG Value :=
  if decide (typeOf v = dest) then ret v else Insert name (OpCast op v dest) dest.
Definition CreateZExt := CreateCast ZExt.
Definition CreateSExt := CreateCast SExt.
Definition CreateTrunc := CreateCast Trunc.
Definition CreateBitCast := CreateCast BitCast.
Definition CreateSIToFP := CreateCast SIToFP.
Definition CreateUIToFP := CreateCast UIToFP.
Definition CreateFPToSI := CreateCast FPToSI.
Definition CreateSelect (c t f : Value) (name : string) : CG Value :=
  Insert name (OpSelect c t f) (typeOf t).
Definition CreateCall (callee : Function) (args : list Value) (name : string)
    : CG Value :=
  Insert name (OpCall callee args) (ftReturn (fnType callee)).
Definition CreateLoad (t : llvmType) (ptr : Value) (name : string) : CG Value :=
  Insert name (OpLoad t ptr) t.
Definition CreateStore (v ptr : Value) : CG unit :=
  Insert "" (OpStore v ptr) VoidTy ;; ret tt.
Definition CreateGEP (t : llvmType) (ptr : Value) (indices : list Value)
    (name : string) : CG Value :=
  Insert name (OpGEP t ptr indices) PointerTy.
Definition CreateBr (dest : nat) : CG unit :=
  Insert "" (OpBr dest) VoidTy ;; ret tt.
Definition CreateCondBr (c : Value) (ifTrue ifFalse : nat) : CG unit :=
  Insert "" (OpCondBr c ifTrue ifFalse) VoidTy ;; ret tt.
Definition CreateRet (v : Value) : CG unit :=
  Insert "" (OpRet (Some v)) VoidTy ;; ret tt.
Definition CreateRetVoid : CG unit :=
  Insert "" (OpRet None) VoidTy ;; ret tt.
Definition CreateUnreachable : CG unit :=
  Insert "" OpUnreachable VoidTy ;; ret tt.

(** A branch to a block pointer that may be null: [BranchInst]'s constructor
    refuses a null destination. *)
Definition CreateBrTo (dest : option nat) : CG unit :=
  match dest with
  | Some b => CreateBr b
  | None => abort "Branch destination may not be null"
  end.

(** [llvm::PHINode*]: the value and the block that holds it. *)
Record PHINode := mkPHINode {
  phiValue : Value;
  phiBlock : option nat
}.

Definition CreatePHI (t : llvmType) (name : string) : CG PHINode :=
  let* ib := gets (fun s => irInsertBlock (ir s)) in
  let* v := Insert name (OpPHI t []) t in
  ret (mkPHINode v ib).

Definition addIncomingTo (id : nat) (v : Value) (from : nat) (i : Instruction)
    : Instruction :=
  match instOp i with
  | OpPHI t inc =>
      if decide (instId i = id)
      then mkInstruction (instId i) (instName i) (OpPHI t (inc ++ [(v, from)]))
      else i
  | _ => i
  end.

(** [phi->addIncoming(v, bb)] *)
Definition addIncoming (phi : PHINode) (v : Value) (from : nat) : CG unit :=
  match phiBlock phi, phiValue phi with
  | Some b, InstValue id _ =>
      let* bb := getBlock b in
      setBlock b (mkBasicBlock (bbName bb) (bbParent bb)
                    (map (addIncomingTo id v from) (bbInsts bb)))
  | _, _ => ret tt
  end.

(** [builder->CreateGlobalString(str, "", 0, module)]: a fresh private
    global holding the bytes. *)
Definition CreateGlobalString (str : string) : CG Value :=
  let* id := freshId in
  modify_ir (fun m => set_irStrings (<[id := str]> (irStrings m)) m) ;;
  ret (GlobalString id).

(** [module->getFunction(name)] *)
Definition Module_getFunction (name : string) : CG (option Function) :=
  gets (fun s => mjoin (irSymbols (ir s) !! name)).

(** [llvm::Function::Create(type, ExternalLinkage, name, module)] *)
Definition Function_Create (ft : FunctionType) (name : string) : CG Function :=
  let* id := freshId in
  let* taken := gets (fun s => irSymbols (ir s) !! name) in
  let f := mkFunction id (match taken with
                          | None => name
                          | Some _ => name +:+ "." +:+ pretty id
                          end) ft in
  modify_ir (fun m =>
    set_irLayout (<[id := []]> (irLayout m))
      (match taken with
       | None => set_irSymbols (<[name := Some f]> (irSymbols m)) m
       | Some _ => m
       end)) ;;
  ret f.

(** [new llvm::GlobalVariable(module, type, isConstant, linkage, init, name)] *)
Definition GlobalVariable_new (t : llvmType) (isConstant : bool) (init : Value)
    (name : string) : CG GlobalVariable :=
  let* id := freshId in
  let* taken := gets (fun s => irSymbols (ir s) !! name) in
  let gv := mkGlobalVariable id (match taken with
                                 | None => name
                                 | Some _ => name +:+ "." +:+ pretty id
                                 end) t in
  modify_ir (fun m =>
    set_irGlobals (<[id := mkGlobalInfo gv isConstant init]> (irGlobals m))
      (match taken with
       | None => set_irSymbols (<[name := None]> (irSymbols m)) m
       | Some _ => m
       end)) ;;
  ret gv.

(** ** Error and warning management *)

Definition ESC : string := String (Ascii.ascii_of_nat 27) "".
Definition NL : string := String (Ascii.ascii_of_nat 10) "".
Definition ANSI_RED : string := ESC +:+ "[1;31m".
Definition ANSI_YELLOW : string := ESC +:+ "[1;33m".
Definition ANSI_RESET : string := ESC +:+ "[0m".

Definition streq (a b : string) : bool := bool_decide (a = b).

(** One line written to [std::cerr]. *)
Definition cerrLine (msg : string) : CG unit :=
  modify (fun s =>
    set_diag (mkDiagnostics (errorCount (diag s)) (warningCount (diag s))
                            (cerr (diag s) ++ [msg])) s).

Definition incrErrorCount : CG unit :=
  modify (fun s =>
    set_diag (mkDiagnostics (errorCount (diag s) + 1) (warningCount (diag s))
                            (cerr (diag s))) s).

Definition incrWarningCount : CG unit :=
  modify (fun s =>
    set_diag (mkDiagnostics (errorCount (diag s)) (warningCount (diag s) + 1)
                            (cerr (diag s))) s).

Definition reportError (message : string) (line : Z) : CG unit :=
  (if bool_decide (0 < line)%Z
   then cerrLine (ANSI_RED +:+ "Error" +:+ ANSI_RESET +:+ " at line "
                  +:+ pretty line +:+ ": " +:+ message)
   else cerrLine (ANSI_RED +:+ "Error" +:+ ANSI_RESET +:+ ": " +:+ message)) ;;
  incrErrorCount.

Definition reportWarning (message : string) (line : Z) : CG unit :=
  (if bool_decide (0 < line)%Z
   then cerrLine (ANSI_YELLOW +:+ "Warning" +:+ ANSI_RESET +:+ " at line "
                  +:+ pretty line +:+ ": " +:+ message)
   else cerrLine (ANSI_YELLOW +:+ "Warning" +:+ ANSI_RESET +:+ ": " +:+ message)) ;;
  incrWarningCount.

(** Modelled from the spec: [hasErrors] is declared in the class header that
    belongs to this codegen.cc, which is not among the sources; the spec's
    "a non-zero error count suppresses code emission" makes it the test
    [errorCount > 0] on the member that [reportError] increments. *)
Definition hasErrors (s : CodeGenerator) : bool :=
  bool_decide (0 < errorCount (diag s))%Z.

(** ** Temporary memory management *)

Definition set_tempMemoryStack (x : list Value) (s : CodeGenerator) :=
  set_mem (mkMemoryTracker x (ownedStringMemory (mem s))) s.
Definition set_ownedStringMemory (x : gmap string Value) (s : CodeGenerator) :=
  set_mem (mkMemoryTracker (tempMemoryStack (mem s)) x) s.

Definition pushTempMemory (ptr : option Value) : CG unit :=
  match ptr with
  | None => ret tt
  | Some p =>
      if negb (isPointerTy (typeOf p)) then ret tt
      else modify (fun s => set_tempMemoryStack (tempMemoryStack (mem s) ++ [p]) s)
  end.

(** [std::find] followed by [erase]: the first occurrence goes. *)
Fixpoint eraseFirst (ptr : Value) (l : list Value) : list Value :=
  match l with
  | [] => []
  | x :: rest => if decide (x = ptr) then rest else x :: eraseFirst ptr rest
  end.

Definition removeTempMemory (ptr : option Value) : CG unit :=
  match ptr with
  | None => ret tt
  | Some p =>
      modify (fun s => set_tempMemoryStack (eraseFirst p (tempMemoryStack (mem s))) s)
  end.

Fixpoint freeEach (freeFunc : Function) (l : list Value) : CG unit :=
  match l with
  | [] => ret tt
  | p :: rest => CreateCall freeFunc [p] "" ;; freeEach freeFunc rest
  end.

Definition clearTempMemory : CG unit :=
  let* stack := gets (fun s => tempMemoryStack (mem s)) in
  match stack with
  | [] => ret tt
  | _ =>
      let* freeFunc := Module_getFunction "free" in
      match freeFunc with
      | None =>
          cerrLine "Warning: free function not found, cannot auto-release temp memory" ;;
          modify (set_tempMemoryStack [])
      | Some f =>
          (* release in reverse order *)
          freeEach f (rev stack) ;;
          modify (set_tempMemoryStack [])
      end
  end.

Definition freeOwnedString (varName : string) : CG unit :=
  let* owned := gets (fun s => ownedStringMemory (mem s)) in
  match owned !! varName with
  | None => ret tt
  | Some old =>
      let* freeFunc := Module_getFunction "free" in
      match freeFunc with
      | None =>
          cerrLine "Warning: free function not found" ;;
          modify (fun s => set_ownedStringMemory (delete varName (ownedStringMemory (mem s))) s)
      | Some f =>
          (* release the old string *)
          CreateCall f [old] "" ;;
          (* and stop tracking it *)
          modify (fun s => set_ownedStringMemory (delete varName (ownedStringMemory (mem s))) s)
      end
  end.

Definition trackOwnedString (varName : string) (ptr : option Value) : CG unit :=
  match ptr with
  | None => ret tt
  | Some p =>
      if negb (isPointerTy (typeOf p)) then ret tt
      else
        (* a string the variable owned before is released first *)
        freeOwnedString varName ;;
        (* track the new one *)
        modify (fun s => set_ownedStringMemory (<[varName := p]> (ownedStringMemory (mem s))) s)
  end.

(** ** Type system helpers *)

Definition getType (typeName : string) : CG llvmType :=
  if streq typeName "int" then ret i32
  else if streq typeName "double" then ret DoubleTy
  else if streq typeName "bool" then ret i1
  else if streq typeName "char" then ret i8
  else if streq typeName "string" then ret PointerTy
  else if streq typeName "void" then ret VoidTy
  else
    cerrLine ("Warning: Unknown type '" +:+ typeName +:+ "', using void type") ;;
    ret VoidTy.

(** [function->getEntryBlock()] of a function without blocks is undefined. *)
Definition createEntryBlockAlloca (function : option Function) (varName : string)
    (type : llvmType) : CG AllocaInst :=
  match function with
  | None => abort "createEntryBlockAlloca: null function"
  | Some f =>
      let* layout := gets (fun s => irLayout (ir s) !! fnId f) in
      match layout with
      | Some (entry :: _) =>
          let* bb := getBlock entry in
          let* id := freshId in
          setBlock entry (mkBasicBlock (bbName bb) (bbParent bb)
                            (mkInstruction id varName (OpAlloca type) :: bbInsts bb)) ;;
          ret (mkAllocaInst id type)
      | _ => abort "createEntryBlockAlloca: the function has no entry block"
      end
  end.

Definition getPrintfFunction : CG (option Function) := Module_getFunction "printf".
Definition getStrlenFunction : CG (option Function) := Module_getFunction "strlen".

(** A call through a function pointer that may be null. *)
Definition CreateCallTo (callee : option Function) (args : list Value)
    (name : string) : CG Value :=
  match callee with
  | Some f => CreateCall f args name
  | None => abort "CreateCall: null callee"
  end.

(** Case 1 of [convertToType]: integer to integer (bool and char included). *)
Definition convertIntToInt (value : Value) (targetType : llvmType) : CG Value :=
  let sourceBits := getIntegerBitWidth (typeOf value) in
  let targetBits := getIntegerBitWidth targetType in
  if (sourceBits <? targetBits)%N then
    (* bool (i1) and char (i8) are zero-extended *)
    if (sourceBits =? 1)%N || (sourceBits =? 8)%N
    then CreateZExt value targetType "zext"
    else CreateSExt value targetType "sext"
  else if (targetBits <? sourceBits)%N then
    CreateTrunc value targetType "trunc"
  else CreateBitCast value targetType "bitcast".

(** The recursive call of case 3 has an [i32] source and another integer
    type as target, so it is answered by case 1. *)
Definition convertToType (value : Value) (targetType : llvmType) : CG Value :=
  let sourceType := typeOf value in
  if decide (sourceType = targetType) then ret value
  else if isIntegerTy sourceType && isIntegerTy targetType then
    convertIntToInt value targetType
  else if isIntegerTy sourceType && isDoubleTy targetType then
    if (getIntegerBitWidth sourceType =? 1)%N || (getIntegerBitWidth sourceType =? 8)%N
    then CreateUIToFP value targetType "uitofp"
    else CreateSIToFP value targetType "sitofp"
  else if isDoubleTy sourceType && isIntegerTy targetType then
    let* intVal := CreateFPToSI value i32 "fptosi" in
    if negb (bool_decide (targetType = i32))
    then convertIntToInt intVal targetType
    else ret intVal
  else
    let ptrCase :=
      if isPointerTy sourceType || isPointerTy targetType then
        if isPointerTy sourceType && isPointerTy targetType
        then CreateBitCast value targetType "ptrcast"
        else ret value
      else ret value in
    let charCase :=
      if isIntegerTyN 8 targetType then
        if isIntegerTy sourceType then CreateTrunc value targetType "tochar"
        else if isDoubleTy sourceType then
          let* intVal := CreateFPToSI value i32 "fptosi" in
          CreateTrunc intVal targetType "tochar"
        else ptrCase
      else ptrCase in
    if isIntegerTyN 1 targetType then
      if isIntegerTy sourceType then
        let* zero := ConstantInt_get sourceType 0 in
        CreateICmpNE value zero "tobool"
      else if isDoubleTy sourceType then
        CreateFCmpONE value (ConstantFP fzero) "tobool"
      else charCase
    else charCase.

(** ** Division and modulo with a divisor check *)

Definition createDivisionWithZeroCheck (left right : Value) (errorMsg : string)
    (isIntegerDivision : bool) : CG Value :=
  let* ib := GetInsertBlock in
  let* function := getParent ib in
  let* errorBB := BasicBlock_Create "div_error" function in
  let* computeBB := BasicBlock_Create "div_compute" function in
  let* mergeBB := BasicBlock_Create "div_merge" function in
  if isIntegerDivision then
    (* integer division *)
    let* zero := ConstantInt_get (typeOf right) 0 in
    let* isZero := CreateICmpEQ right zero "is_zero" in
    CreateCondBr isZero errorBB computeBB ;;
    (* error branch *)
    SetInsertPoint errorBB ;;
    let* printfFunc := getPrintfFunction in
    let* errorMsgVal := CreateGlobalString errorMsg in
    CreateCallTo printfFunc [errorMsgVal] "" ;;
    (* an integer division by zero gives 0 *)
    let* errorValue := ConstantInt_get (typeOf left) 0 in
    CreateBr mergeBB ;;
    (* compute branch *)
    SetInsertPoint computeBB ;;
    let* divResult := CreateSDiv left right "div_result" in
    CreateBr mergeBB ;;
    (* merge *)
    SetInsertPoint mergeBB ;;
    let* phi := CreatePHI (typeOf left) "div_phi" in
    addIncoming phi errorValue errorBB ;;
    addIncoming phi divResult computeBB ;;
    ret (phiValue phi)
  else
    (* floating-point division *)
    let zero := ConstantFP fzero in
    let* isZero := CreateFCmpOEQ right zero "is_zero" in
    CreateCondBr isZero errorBB computeBB ;;
    SetInsertPoint errorBB ;;
    let* printfFunc := getPrintfFunction in
    let* errorMsgVal := CreateGlobalString errorMsg in
    CreateCallTo printfFunc [errorMsgVal] "" ;;
    (* a floating-point division by zero gives NaN *)
    let errorValue := ConstantFP fnan in
    CreateBr mergeBB ;;
    SetInsertPoint computeBB ;;
    let* divResult := CreateFDiv left right "div_result" in
    CreateBr mergeBB ;;
    SetInsertPoint mergeBB ;;
    let* phi := CreatePHI DoubleTy "div_phi" in
    addIncoming phi errorValue errorBB ;;
    addIncoming phi divResult computeBB ;;
    ret (phiValue phi).

Definition createModuloWithZeroCheck (left right : Value) (errorMsg : string)
    : CG Value :=
  let* ib := GetInsertBlock in
  let* function := getParent ib in
  let* errorBB := BasicBlock_Create "mod_error" function in
  let* computeBB := BasicBlock_Create "mod_compute" function in
  let* mergeBB := BasicBlock_Create "mod_merge" function in
  if isDoubleTy (typeOf right) then
    let zero := ConstantFP fzero in
    let* isZero := CreateFCmpOEQ right zero "is_zero" in
    CreateCondBr isZero errorBB computeBB ;;
    SetInsertPoint errorBB ;;
    let* printfFunc := getPrintfFunction in
    let* errorMsgVal := CreateGlobalString errorMsg in
    CreateCallTo printfFunc [errorMsgVal] "" ;;
    let errorValue := ConstantFP fnan in
    CreateBr mergeBB ;;
    SetInsertPoint computeBB ;;
    let* modResult := CreateFRem left right "mod_result" in
    CreateBr mergeBB ;;
    SetInsertPoint mergeBB ;;
    let* phi := CreatePHI DoubleTy "mod_phi" in
    addIncoming phi errorValue errorBB ;;
    addIncoming phi modResult computeBB ;;
    ret (phiValue phi)
  else
    let* zero := ConstantInt_get (typeOf right) 0 in
    let* isZero := CreateICmpEQ right zero "is_zero" in
    CreateCondBr isZero errorBB computeBB ;;
    SetInsertPoint errorBB ;;
    let* printfFunc := getPrintfFunction in
    let* errorMsgVal := CreateGlobalString errorMsg in
    CreateCallTo printfFunc [errorMsgVal] "" ;;
    let* errorValue := ConstantInt_get (typeOf left) 0 in
    CreateBr mergeBB ;;
    SetInsertPoint computeBB ;;
    let* modResult := CreateSRem left right "mod_result" in
    CreateBr mergeBB ;;
    SetInsertPoint mergeBB ;;
    let* phi := CreatePHI (typeOf left) "mod_phi" in
    addIncoming phi errorValue errorBB ;;
    addIncoming phi modResult computeBB ;;
    ret (phiValue phi).

(** ** Symbol table access *)

Definition set_namedValues (x : gmap string (option AllocaInst)) (s : CodeGenerator) :=
  set_syms (mkSymbolTables x (globalValues (syms s)) (functions (syms s))
                           (variableTypes (syms s))) s.
Definition set_globalValues (x : gmap string (option GlobalVariable)) (s : CodeGenerator) :=
  set_syms (mkSymbolTables (namedValues (syms s)) x (functions (syms s))
                           (variableTypes (syms s))) s.
Definition set_functions (x : gmap string Function) (s : CodeGenerator) :=
  set_syms (mkSymbolTables (namedValues (syms s)) (globalValues (syms s)) x
                           (variableTypes (syms s))) s.
Definition set_variableTypes (x : gmap string string) (s : CodeGenerator) :=
  set_syms (mkSymbolTables (namedValues (syms s)) (globalValues (syms s))
                           (functions (syms s)) x) s.

(** [namedValues[name]]: a missing key is entered with a null pointer. *)
Definition namedValues_at (name : string) : CG (option AllocaInst) :=
  fun s => match namedValues (syms s) !! name with
           | Some a => Done a s
           | None => Done None (set_namedValues (<[name := None]> (namedValues (syms s))) s)
           end.

(** [globalValues[name]] *)
Definition globalValues_at (name : string) : CG (option GlobalVariable) :=
  fun s => match globalValues (syms s) !! name with
           | Some g => Done g s
           | None => Done None (set_globalValues (<[name := None]> (globalValues (syms s))) s)
           end.

(** ** Module namespaces *)

Definition findModuleFunction (moduleName funcName : string) : CG (option Function) :=
  gets (fun s =>
    match moduleFunctions (mods s) !! moduleName with
    | None => None
    | Some table => table !! funcName
    end).

Definition findModuleGlobal (moduleName varName : string) : CG (option GlobalVariable) :=
  gets (fun s =>
    match moduleGlobals (mods s) !! moduleName with
    | None => None
    | Some table => mjoin (table !! varName)
    end).

(** ** Expression lowering: literals and identifiers *)

Definition codegenIntLiteral (value : Z) : CG (option Value) :=
  ret (Some (ConstantInt 32 (value mod 2 ^ 32))).

Definition codegenDoubleLiteral (value : spec_float) : CG (option Value) :=
  ret (Some (ConstantFP value)).

Definition codegenStringLiteral (value : string) : CG (option Value) :=
  let* v := CreateGlobalString value in ret (Some v).

Definition codegenCharLiteral (value : Z) : CG (option Value) :=
  ret (Some (ConstantInt 8 (value mod 2 ^ 8))).

Definition codegenBoolLiteral (value : bool) : CG (option Value) :=
  ret (Some (ConstantInt 1 (if value then 1 else 0))).

Definition codegenIdentifier (name : string) (lineNumber : Z) : CG (option Value) :=
  (* local variables first *)
  let* alloca := namedValues_at name in
  match alloca with
  | Some a =>
      let* v := CreateLoad (getAllocatedType a) (allocaValue a) name in ret (Some v)
  | None =>
      (* then global variables *)
      let* globalVar := globalValues_at name in
      match globalVar with
      | Some g =>
          let* v := CreateLoad (gvValueType g) (GlobalVariableV g) name in ret (Some v)
      | None =>
          (if bool_decide (0 < lineNumber)%Z
           then cerrLine (ANSI_RED +:+ "Error" +:+ ANSI_RESET +:+ " at line "
                          +:+ pretty lineNumber +:+ ": Undefined variable '"
                          +:+ name +:+ "'")
           else cerrLine (ANSI_RED +:+ "Error" +:+ ANSI_RESET
                          +:+ ": Undefined variable '" +:+ name +:+ "'")) ;;
          incrErrorCount ;;
          ret None
      end
  end.

(** [function->insert(function->end(), bb)] through a pointer that may be
    null. *)
Definition Function_insertTo (function : option Function) (b : nat) : CG unit :=
  match function with
  | Some f => Function_insert f b
  | None => abort "insert: null function"
  end.

(** The conversion of an operand of [&&] / [||] to [i1]. *)
Definition toBoolCond (v : Value) : CG Value :=
  if negb (isIntegerTyN 1 (typeOf v)) then
    if isDoubleTy (typeOf v) then
      CreateFCmpONE v (ConstantFP fzero) "tobool"
    else
      let* zero := ConstantInt_get (typeOf v) 0 in
      CreateICmpNE v zero "tobool"
  else ret v.

Section ExpressionLowering.

(** The dispatcher [codegenExpr], as the functions below call it on the
    children of their node. *)
Variable codegenExpr : ExprNode -> CG (option Value).

(** Logical operators with short-circuit evaluation.  The texts for [&&]
    (lines 958-1011) and [||] (lines 1013-1072) differ in the names of the
    blocks and of the result, in the order of the two branch targets and in
    the constant that stands for the left side; they are given once, with
    the operator as a flag. *)

(** From the conversion of the left side to the positioning of the builder
    in the block of the right side.  Gives the function, [mergeBB] and
    [leftBB]. *)
Definition logicalOpBranch (isAnd : bool) (leftVal : Value)
    : CG (option Function * nat * nat) :=
  let* leftCond := toBoolCond leftVal in
  let* ib := GetInsertBlock in
  let* function := getParent ib in
  let* rhsBB := BasicBlock_Create (if isAnd then "and_rhs" else "or_rhs") function in
  let* mergeBB := BasicBlock_Create (if isAnd then "and_merge" else "or_merge") None in
  (* [&&]: left false goes straight to merge (the result is false);
     [||]: left true goes straight to merge (the result is true) *)
  (if isAnd then CreateCondBr leftCond rhsBB mergeBB
   else CreateCondBr leftCond mergeBB rhsBB) ;;
  let* leftBB := GetInsertBlock in
  (* the block of the right side *)
  SetInsertPoint rhsBB ;;
  ret (function, mergeBB, leftBB).

(** From the conversion of the right side to the PHI node of the merge
    block. *)
Definition logicalOpMerge (isAnd : bool) (function : option Function)
    (mergeBB leftBB : nat) (rightVal : Value) : CG (option Value) :=
  let* rightCond := toBoolCond rightVal in
  CreateBr mergeBB ;;
  let* rhsEnd := GetInsertBlock in
  (* the merge block with its PHI node *)
  Function_insertTo function mergeBB ;;
  SetInsertPoint mergeBB ;;
  let* phi := CreatePHI i1 (if isAnd then "and_result" else "or_result") in
  addIncoming phi (if isAnd then ConstantInt_getFalse else ConstantInt_getTrue) leftBB ;;
  addIncoming phi rightCond rhsEnd ;;
  ret (Some (phiValue phi)).

Definition codegenLogicalOp (op : string) (left right : ExprNode) : CG (option Value) :=
  (* the left side first *)
  let? leftVal := codegenExpr left in
  if streq op "&&" then
    let* ctx := logicalOpBranch true leftVal in
    let? rightVal := codegenExpr right in
    logicalOpMerge true ctx.1.1 ctx.1.2 ctx.2 rightVal
  else if streq op "||" then
    let* ctx := logicalOpBranch false leftVal in
    let? rightVal := codegenExpr right in
    logicalOpMerge false ctx.1.1 ctx.1.2 ctx.2 rightVal
  else ret None.

(** [codegenBinaryOp] after both operands are lowered: promotions, string
    concatenation, and the operator itself. *)
Definition binaryOpOnValues (op : string) (left0 right0 : Value) : CG (option Value) :=
  (* bool (i1) -> int (i32) *)
  let* left := (if isIntegerTyN 1 (typeOf left0)
                then CreateZExt left0 i32 "bool_to_int" else ret left0) in
  let* right := (if isIntegerTyN 1 (typeOf right0)
                 then CreateZExt right0 i32 "bool_to_int" else ret right0) in
  (* char (i8) -> int (i32) *)
  let* left := (if isIntegerTyN 8 (typeOf left)
                then CreateSExt left i32 "char_to_int" else ret left) in
  let* right := (if isIntegerTyN 8 (typeOf right)
                 then CreateSExt right i32 "char_to_int" else ret right) in
  (* i16 -> i32 *)
  let* left := (if isIntegerTyN 16 (typeOf left)
                then CreateSExt left i32 "i16_to_i32" else ret left) in
  let* right := (if isIntegerTyN 16 (typeOf right)
                 then CreateSExt right i32 "i16_to_i32" else ret right) in
  (* int -> double where the other side is a double *)
  let* lr :=
    (if isDoubleTy (typeOf left) && isIntegerTy (typeOf right) then
       let* r := CreateSIToFP right DoubleTy "int_to_double" in ret (left, r)
     else if isDoubleTy (typeOf right) && isIntegerTy (typeOf left) then
       let* l := CreateSIToFP left DoubleTy "int_to_double" in ret (l, right)
     else ret (left, right)) in
  let left := fst lr in
  let right := snd lr in
  (* string concatenation *)
  if streq op "+" && isPointerTy (typeOf left) && isPointerTy (typeOf right) then
    let* strlenFunc := Module_getFunction "strlen" in
    let* len1 := CreateCallTo strlenFunc [left] "len1" in
    let* len2 := CreateCallTo strlenFunc [right] "len2" in
    let* totalLen := CreateAdd len1 len2 "totallen" in
    let* totalLen := CreateAdd totalLen (ConstantInt 64 1) "totallen_plus1" in
    let* mallocFunc := Module_getFunction "malloc" in
    let* newStr := CreateCallTo mallocFunc [totalLen] "newstr" in
    let* strcpyFunc := Module_getFunction "strcpy" in
    CreateCallTo strcpyFunc [newStr; left] "" ;;
    let* strcatFunc := Module_getFunction "strcat" in
    CreateCallTo strcatFunc [newStr; right] "" ;;
    (* tracked as a temporary, released later *)
    pushTempMemory (Some newStr) ;;
    ret (Some newStr)
  else
    let isFloat := isDoubleTy (typeOf left) in
    let arith (f i : Value -> Value -> string -> CG Value) (name : string) :=
      let* v := (if isFloat then f left right name else i left right name) in
      ret (Some v) in
    if streq op "+" then arith CreateFAdd CreateAdd "addtmp"
    else if streq op "-" then arith CreateFSub CreateSub "subtmp"
    else if streq op "*" then arith CreateFMul CreateMul "multmp"
    else if streq op "/" then
      (* [/] always gives a floating-point number *)
      let* left := (if negb (isDoubleTy (typeOf left))
                    then CreateSIToFP left DoubleTy "conv_left" else ret left) in
      let* right := (if negb (isDoubleTy (typeOf right))
                     then CreateSIToFP right DoubleTy "conv_right" else ret right) in
      let* v := createDivisionWithZeroCheck left right
                  ("Runtime Error: Division by zero" +:+ NL) false in
      ret (Some v)
    else if streq op "//" then
      (* [//] always gives an integer *)
      let* left := (if isDoubleTy (typeOf left)
                    then CreateFPToSI left i32 "conv_left" else ret left) in
      let* right := (if isDoubleTy (typeOf right)
                     then CreateFPToSI right i32 "conv_right" else ret right) in
      let* v := createDivisionWithZeroCheck left right
                  ("Runtime Error: Integer division by zero" +:+ NL) true in
      ret (Some v)
    else if streq op "%" then
      let* v := createModuloWithZeroCheck left right
                  ("Runtime Error: Modulo by zero" +:+ NL) in
      ret (Some v)
    else if streq op "==" then arith CreateFCmpOEQ CreateICmpEQ "eqtmp"
    else if streq op "!=" then arith CreateFCmpONE CreateICmpNE "netmp"
    else if streq op "<" then arith CreateFCmpOLT CreateICmpSLT "lttmp"
    else if streq op ">" then arith CreateFCmpOGT CreateICmpSGT "gttmp"
    else if streq op "<=" then arith CreateFCmpOLE CreateICmpSLE "letmp"
    else if streq op ">=" then arith CreateFCmpOGE CreateICmpSGE "getmp"
    else ret None.

Definition codegenBinaryOp (op : string) (left right : ExprNode) : CG (option Value) :=
  (* the logical operators must not evaluate their right side up front *)
  if streq op "&&" || streq op "||" then codegenLogicalOp op left right
  else
    let* l := codegenExpr left in
    let* r := codegenExpr right in
    match l, r with
    | Some lv, Some rv => binaryOpOnValues op lv rv
    | _, _ => ret None
    end.

Definition codegenUnaryOp (op : string) (operand : ExprNode) : CG (option Value) :=
  let* o := codegenExpr operand in
  match o with
  | None =>
      cerrLine ("Error: Invalid operand for unary operator '" +:+ op +:+ "'") ;;
      ret None
  | Some v =>
      if streq op "-" then
        let* r := (if isDoubleTy (typeOf v) then CreateFNeg v "negtmp"
                   else CreateNeg v "negtmp") in
        ret (Some r)
      else if streq op "!" then
        let* r := CreateNot v "nottmp" in ret (Some r)
      else
        cerrLine ("Error: Unknown unary operator '" +:+ op +:+ "'") ;;
        ret None
  end.

(** [type->print(llvm::errs())] *)
Fixpoint printType (t : llvmType) : string :=
  match t with
  | VoidTy => "void"
  | IntegerTy b => "i" +:+ pretty b
  | DoubleTy => "double"
  | PointerTy => "ptr"
  | ArrayTy e n => "[" +:+ pretty n +:+ " x " +:+ printType e +:+ "]"
  end.

Definition INPUT_BUFFER_SIZE : Z := 256.
Definition STRING_CONVERT_BUFFER_SIZE : Z := 64.

Definition paramTypeAt (f : Function) (i : nat) : option llvmType :=
  ftParams (fnType f) !! i.
Definition arg_size (f : Function) : nat := length (ftParams (fnType f)).

(** The call of a module function, [alias.function(args)]. *)
Definition codegenModuleCall (moduleFunc : Function) (arguments : list ExprNode)
    : CG (option Value) :=
  let* r := forEach (fun (acc : list Value) (arg : ExprNode) =>
      let* a := codegenExpr arg in
      match a with
      | None => ret (inl (None : option Value))
      | Some argVal =>
          let i := length acc in
          let* argVal :=
            match paramTypeAt moduleFunc i with
            | Some expectedType =>
                if negb (bool_decide (typeOf argVal = expectedType))
                then convertToType argVal expectedType
                else ret argVal
            | None => ret argVal
            end in
          ret (inr (acc ++ [argVal]))
      end) [] arguments in
  match r with
  | inl res => ret res
  | inr args =>
      if isVoidTy (ftReturn (fnType moduleFunc)) then
        let* v := CreateCall moduleFunc args "" in ret (Some v)
      else
        let* v := CreateCall moduleFunc args "module_call" in ret (Some v)
  end.

(** [print(...)]: prints, with a newline unless [nowrap] is given. *)
Definition codegenPrint (arguments : list ExprNode) : CG (option Value) :=
  let* printfFunc := getPrintfFunction in
  match arguments with
  | [] =>
      (* print() without arguments prints a newline *)
      let* fmt := CreateGlobalString NL in
      let* v := CreateCallTo printfFunc [fmt] "printcall" in
      ret (Some v)
  | arg0 :: more =>
      let? arg := codegenExpr arg0 in
      (* is there a second argument, the identifier nowrap? *)
      let nowrap :=
        match more with
        | IdentifierNode n _ :: _ => streq n "nowrap"
        | _ => false
        end in
      let simple (fmtNowrap fmtWrap : string) :=
        let* fmt := CreateGlobalString (if nowrap then fmtNowrap else fmtWrap) in
        ret [fmt; arg] in
      let* args :=
        if isIntegerTyN 32 (typeOf arg) then simple "%d" ("%d" +:+ NL)
        else if isDoubleTy (typeOf arg) then simple "%f" ("%f" +:+ NL)
        else if isPointerTy (typeOf arg) then simple "%s" ("%s" +:+ NL)
        else if isIntegerTyN 8 (typeOf arg) then simple "%c" ("%c" +:+ NL)
        else if isIntegerTyN 1 (typeOf arg) then
          (* a boolean is printed as a string *)
          let* trueStr := CreateGlobalString (if nowrap then "true" else "true" +:+ NL) in
          let* falseStr := CreateGlobalString (if nowrap then "false" else "false" +:+ NL) in
          let* str := CreateSelect arg trueStr falseStr "boolstr" in
          let* fmt := CreateGlobalString "%s" in
          ret [fmt; str]
        else
          let* fmt := CreateGlobalString (if nowrap then "(unknown type)"
                                          else "(unknown type)" +:+ NL) in
          ret [fmt] in
      let* v := CreateCallTo printfFunc args "printcall" in
      ret (Some v)
  end.

(** [input(prompt)] *)
Definition codegenInput (arguments : list ExprNode) : CG (option Value) :=
  let* printfFunc := getPrintfFunction in
  let* getcharFunc := Module_getFunction "getchar" in
  let* mallocFunc := Module_getFunction "malloc" in
  (* with an argument, the prompt is printed first *)
  match arguments with
  | [] => ret tt
  | arg0 :: _ =>
      let* prompt := codegenExpr arg0 in
      match prompt with
      | Some p =>
          if isPointerTy (typeOf p) then
            let* fmt := CreateGlobalString "%s" in
            CreateCallTo printfFunc [fmt; p] "" ;; ret tt
          else ret tt
      | None => ret tt
      end
  end ;;
  let bufferSize := ConstantInt 64 INPUT_BUFFER_SIZE in
  let* buffer := CreateCallTo mallocFunc [bufferSize] "input_buffer" in
  let* currentFn := gets (fun s => currentFunction (ctl s)) in
  let* indexAlloca := createEntryBlockAlloca currentFn "input_index" i32 in
  CreateStore (ConstantInt 32 0) (allocaValue indexAlloca) ;;
  let* loopBB := BasicBlock_Create "input_loop" currentFn in
  let* storeBB := BasicBlock_Create "store_char" currentFn in
  let* afterBB := BasicBlock_Create "after_input" currentFn in
  CreateBr loopBB ;;
  SetInsertPoint loopBB ;;
  let* ch := CreateCallTo getcharFunc [] "ch" in
  (* newline or EOF? *)
  let* isNewline := CreateICmpEQ ch (ConstantInt 32 10) "is_newline" in
  let* isEOF := CreateICmpEQ ch (ConstantInt 32 (2 ^ 32 - 1)) "is_eof" in
  let* shouldStop := CreateOr isNewline isEOF "should_stop" in
  (* buffer overflow check: the index stays below 255 *)
  let* currentIndex := CreateLoad i32 (allocaValue indexAlloca) "check_index" in
  let* isOverflow := CreateICmpSGE currentIndex (ConstantInt 32 255) "is_overflow" in
  let* shouldStopFull := CreateOr shouldStop isOverflow "should_stop_full" in
  CreateCondBr shouldStopFull afterBB storeBB ;;
  SetInsertPoint storeBB ;;
  let* index := CreateLoad i32 (allocaValue indexAlloca) "index" in
  let* charPtr := CreateGEP i8 buffer [index] "char_ptr" in
  let* charVal := CreateTrunc ch i8 "char_val" in
  CreateStore charVal charPtr ;;
  let* nextIndex := CreateAdd index (ConstantInt 32 1) "next_index" in
  CreateStore nextIndex (allocaValue indexAlloca) ;;
  CreateBr loopBB ;;
  (* after the loop the terminating null is written *)
  SetInsertPoint afterBB ;;
  let* finalIndex := CreateLoad i32 (allocaValue indexAlloca) "final_index" in
  let* nullPtr := CreateGEP i8 buffer [finalIndex] "null_ptr" in
  CreateStore (ConstantInt 8 0) nullPtr ;;
  pushTempMemory (Some buffer) ;;
  ret (Some buffer).

(** [len(s)] *)
Definition codegenLen (arguments : list ExprNode) : CG (option Value) :=
  match arguments with
  | [] => ret None
  | arg0 :: _ =>
      let* str := codegenExpr arg0 in
      match str with
      | Some s =>
          if isPointerTy (typeOf s) then
            let* strlenFunc := Module_getFunction "strlen" in
            let* length64 := CreateCallTo strlenFunc [s] "strlen" in
            let* length32 := CreateTrunc length64 i32 "len" in
            ret (Some length32)
          else ret None
      | None => ret None
      end
  end.

(** [to_int(x)] *)
Definition codegenToInt (arguments : list ExprNode) : CG (option Value) :=
  match arguments with
  | [] => ret None
  | arg0 :: _ =>
      let? str := codegenExpr arg0 in
      if isIntegerTyN 32 (typeOf str) then ret (Some str)
      else if isPointerTy (typeOf str) then
        let* atoiFunc := Module_getFunction "atoi" in
        let* v := CreateCallTo atoiFunc [str] "to_int" in ret (Some v)
      else if isDoubleTy (typeOf str) then
        let* v := CreateFPToSI str i32 "to_int" in ret (Some v)
      else ret None
  end.

(** [to_double(x)] *)
Definition codegenToDouble (arguments : list ExprNode) : CG (option Value) :=
  match arguments with
  | [] => ret None
  | arg0 :: _ =>
      let? val := codegenExpr arg0 in
      if isDoubleTy (typeOf val) then ret (Some val)
      else if isPointerTy (typeOf val) then
        let* atofFunc := Module_getFunction "atof" in
        let* v := CreateCallTo atofFunc [val] "to_double" in ret (Some v)
      else if isIntegerTyN 32 (typeOf val) then
        let* v := CreateSIToFP val DoubleTy "to_double" in ret (Some v)
      else ret None
  end.

(** [to_string(x)] *)
Definition codegenToString (arguments : list ExprNode) : CG (option Value) :=
  match arguments with
  | [] => ret None
  | arg0 :: _ =>
      let? val := codegenExpr arg0 in
      if isPointerTy (typeOf val) then ret (Some val)
      else
        let* mallocFunc := Module_getFunction "malloc" in
        let bufferSize := ConstantInt 64 STRING_CONVERT_BUFFER_SIZE in
        let* buffer := CreateCallTo mallocFunc [bufferSize] "str_buffer" in
        let* sprintfFunc := Module_getFunction "sprintf" in
        let viaFormat (fmt : string) (v : Value) :=
          let* format := CreateGlobalString fmt in
          CreateCallTo sprintfFunc [buffer; format; v] "" ;;
          pushTempMemory (Some buffer) ;;
          ret (Some buffer) in
        if isIntegerTy (typeOf val) && negb (isIntegerTyN 1 (typeOf val))
           && negb (isIntegerTyN 8 (typeOf val)) then
          viaFormat "%d" val
        else if isDoubleTy (typeOf val) then
          viaFormat "%g" val
        else if isIntegerTyN 1 (typeOf val) then
          let* trueStr := CreateGlobalString "true" in
          let* falseStr := CreateGlobalString "false" in
          let* selectedStr := CreateSelect val trueStr falseStr "bool_str" in
          viaFormat "%s" selectedStr
        else if isIntegerTyN 8 (typeOf val) then
          viaFormat "%c" val
        else ret None
  end.

(** [free(p)] *)
Definition codegenFree (arguments : list ExprNode) : CG (option Value) :=
  match arguments with
  | [] =>
      cerrLine "Error: free() requires one argument" ;; ret None
  | arg0 :: _ =>
      let? ptr := codegenExpr arg0 in
      if negb (isPointerTy (typeOf ptr)) then
        cerrLine "Error: free() argument must be a pointer (string)" ;; ret None
      else
        let* freeFunc := Module_getFunction "free" in
        CreateCallTo freeFunc [ptr] "" ;;
        (* free() returns void; 0 is answered for compatibility *)
        ret (Some (ConstantInt 32 0))
  end.

(** The call of a function of the compilation unit's own symbol table. *)
Definition codegenPlainCall (functionName : string) (arguments : list ExprNode)
    : CG (option Value) :=
  let* callee := Module_getFunction functionName in
  match callee with
  | None =>
      cerrLine ("Error: Unknown function '" +:+ functionName +:+ "'") ;; ret None
  | Some calleeFunc =>
      let nargs := length arguments in
      if negb (ftVarArg (fnType calleeFunc)) && negb (Nat.eqb (arg_size calleeFunc) nargs) then
        (* an ordinary function: the argument count must match *)
        cerrLine ("Error: Function '" +:+ functionName +:+ "' expects "
                  +:+ pretty (arg_size calleeFunc) +:+ " arguments but got "
                  +:+ pretty nargs) ;;
        ret None
      else if ftVarArg (fnType calleeFunc) && Nat.ltb nargs (arg_size calleeFunc) then
        (* a variadic function: at least the fixed arguments *)
        cerrLine ("Error: Variadic function '" +:+ functionName
                  +:+ "' expects at least " +:+ pretty (arg_size calleeFunc)
                  +:+ " arguments but got " +:+ pretty nargs) ;;
        ret None
      else
        let* r := forEach (fun (args : list Value) (arg : ExprNode) =>
            let idx := length args in
            (* an array identifier passed where a pointer is expected: the
               address of the array goes, not its loaded value *)
            let expectsPointer :=
              match paramTypeAt calleeFunc idx with
              | Some expectedType => isPointerTy expectedType
              | None => false
              end in
            let* special :=
              (if expectsPointer then
                 match arg with
                 | IdentifierNode n _ =>
                     let* named := gets (fun s => namedValues (syms s) !! n) in
                     match named with
                     | Some (Some alloca) =>
                         if isArrayTy (getAllocatedType alloca) then
                           let* v := CreateGEP (getAllocatedType alloca) (allocaValue alloca)
                                       [ConstantInt 32 0; ConstantInt 32 0] "array_param" in
                           ret (Some v)
                         else ret None
                     | Some None => abort "null alloca dereferenced"
                     | None => ret None
                     end
                 | _ => ret None
                 end
               else ret None) in
            let* a := (match special with
                       | Some v => ret (Some v)
                       | None => codegenExpr arg
                       end) in
            match a with
            | None => ret (inl (None : option Value))
            | Some argVal =>
                match paramTypeAt calleeFunc idx with
                | None =>
                    (* the variadic part goes as it is *)
                    ret (inr (args ++ [argVal]))
                | Some expectedType =>
                    if negb (bool_decide (typeOf argVal = expectedType)) then
                      let originalArgVal := argVal in
                      let* argVal := convertToType argVal expectedType in
                      if negb (bool_decide (typeOf argVal = expectedType))
                         && negb (isPointerTy expectedType && isPointerTy (typeOf argVal))
                      then
                        cerrLine ("Error: Type mismatch for argument " +:+ pretty idx
                                  +:+ " in function '" +:+ functionName +:+ "'") ;;
                        cerrLine ("  Expected: " +:+ printType expectedType +:+ ", Got: "
                                  +:+ printType (typeOf originalArgVal)) ;;
                        ret (inl None)
                      else ret (inr (args ++ [argVal]))
                    else ret (inr (args ++ [argVal]))
                end
            end) [] arguments in
        match r with
        | inl res => ret res
        | inr args =>
            if isVoidTy (ftReturn (fnType calleeFunc)) then
              let* v := CreateCall calleeFunc args "" in ret (Some v)
            else
              let* v := CreateCall calleeFunc args "calltmp" in ret (Some v)
        end
  end.

(** The built-in functions and, after them, the functions of the module's
    symbol table. *)
Definition codegenUnqualifiedCall (functionName : string) (arguments : list ExprNode)
    : CG (option Value) :=
  if streq functionName "print" then codegenPrint arguments
  else if streq functionName "input" then codegenInput arguments
  else if streq functionName "len" then codegenLen arguments
  else if streq functionName "to_int" then codegenToInt arguments
  else if streq functionName "to_double" then codegenToDouble arguments
  else if streq functionName "to_string" then codegenToString arguments
  else if streq functionName "free" then codegenFree arguments
  else codegenPlainCall functionName arguments.

Definition codegenFunctionCall (functionName : string) (arguments : list ExprNode)
    (object : option ExprNode) : CG (option Value) :=
  match object with
  | Some (IdentifierNode objName _) =>
      (* a module function call, [module.function()] *)
      let* aliases := gets (fun s => moduleAliases (mods s)) in
      let moduleName :=
        match aliases !! objName with
        | Some actual => actual     (* the alias names the real module *)
        | None => objName
        end in
      let* moduleFunc := findModuleFunction moduleName functionName in
      match moduleFunc with
      | Some f => codegenModuleCall f arguments
      | None =>
          cerrLine ("Error: Function '" +:+ functionName +:+ "' not found in module '"
                    +:+ moduleName +:+ "'") ;;
          ret None
      end
  | Some _ =>
      (* member access on other objects is not supported yet *)
      cerrLine "Warning: Non-module member access is not yet supported" ;;
      codegenUnqualifiedCall functionName arguments
  | None => codegenUnqualifiedCall functionName arguments
  end.

(** Lines 1790-1894 of [codegenArrayAccess]: the run-time bounds check, the
    access, and the merge of the two paths.  [arrayType] is never null at
    this point. *)
Definition boundsCheckedAccess (index arrayPtr : Value)
    (arrayType elementType : llvmType) (isFromVariable isStringType : bool)
    : CG (option Value) :=
  let* ib := GetInsertBlock in
  let* function := getParent ib in
  let* checkBB := BasicBlock_Create "bounds_check" function in
  let* errorBB := BasicBlock_Create "bounds_error" None in
  let* accessBB := BasicBlock_Create "array_access" None in
  let* mergeBB := BasicBlock_Create "bounds_merge" None in
  CreateBr checkBB ;;
  SetInsertPoint checkBB ;;
  (* check 1: is the index negative? *)
  let* zero := ConstantInt_get (typeOf index) 0 in
  let* isNegative := CreateICmpSLT index zero "is_negative" in
  (* check 2: for the string type, is the index beyond the length? *)
  let* isOutOfBounds :=
    (if isStringType then
       let* strlenFunc := Module_getFunction "strlen" in
       match strlenFunc with
       | Some f =>
           let* length64 := CreateCall f [arrayPtr] "strlen" in
           let* length32 := CreateTrunc length64 i32 "len32" in
           let* index32 :=
             (if negb (bool_decide (typeOf index = i32)) then
                if isIntegerTy (typeOf index)
                   && (getIntegerBitWidth (typeOf index) <? 32)%N
                then CreateSExt index i32 "index32"
                else if isIntegerTy (typeOf index)
                        && (32 <? getIntegerBitWidth (typeOf index))%N
                then CreateTrunc index i32 "index32"
                else ret index
              else ret index) in
           let* isOverflow := CreateICmpSGE index32 length32 "is_overflow" in
           CreateOr isNegative isOverflow "is_out_of_bounds"
       | None => ret isNegative
       end
     else ret isNegative) in
  CreateCondBr isOutOfBounds errorBB accessBB ;;
  (* error branch: print the message and answer the default value *)
  Function_insertTo function errorBB ;;
  SetInsertPoint errorBB ;;
  let* printfFunc := getPrintfFunction in
  let* errorMsg := CreateGlobalString ("Runtime Error: Array index out of bounds" +:+ NL) in
  CreateCallTo printfFunc [errorMsg] "" ;;
  let defaultVal := getNullValue elementType in
  CreateBr mergeBB ;;
  let* errorExitBB := GetInsertBlock in
  (* normal access branch *)
  Function_insertTo function accessBB ;;
  SetInsertPoint accessBB ;;
  let* ptr :=
    (if isArrayTy arrayType && isFromVariable then
       (* an array variable: GEP(array, 0, index) *)
       CreateGEP arrayType arrayPtr [ConstantInt 64 0; index] "arrayptr"
     else if isArrayTy arrayType && negb isFromVariable then
       (* a sub-array of a chained access *)
       CreateGEP arrayType arrayPtr [ConstantInt 64 0; index] "arrayptr"
     else if isPointerTy arrayType then
       (* an array parameter: the pointer is loaded first *)
       let* loadedPtr := CreateLoad arrayType arrayPtr "loaded_ptr" in
       CreateGEP elementType loadedPtr [index] "arrayptr"
     else
       CreateGEP elementType arrayPtr [index] "arrayptr") in
  let* loadedVal := CreateLoad elementType ptr "arrayval" in
  CreateBr mergeBB ;;
  let* accessExitBB := GetInsertBlock in
  (* merge *)
  Function_insertTo function mergeBB ;;
  SetInsertPoint mergeBB ;;
  let* phi := CreatePHI elementType "array_result" in
  addIncoming phi defaultVal errorExitBB ;;
  addIncoming phi loadedVal accessExitBB ;;
  ret (Some (phiValue phi)).

(** The loop that collects the indices of a chained access, innermost
    first, down to the base variable. *)
Fixpoint collectIndices (current : ExprNode) (allIndices : list Value)
    {struct current} : CG (option (list Value * string)) :=
  match current with
  | ArrayAccessNode arr idx =>
      let? v := codegenExpr idx in
      let allIndices := v :: allIndices in
      match arr with
      | ArrayAccessNode _ _ => collectIndices arr allIndices
      | IdentifierNode n _ => ret (Some (allIndices, n))
      | _ =>
          cerrLine "Error: Unsupported nested array access" ;; ret None
      end
  | _ => ret None
  end.

(** One GEP per index but the last. *)
Fixpoint descendDimensions (indices : list Value) (currentPtr : Value)
    (currentType : llvmType) : CG (option (Value * llvmType)) :=
  match indices with
  | [] | [_] => ret (Some (currentPtr, currentType))
  | idx :: rest =>
      match currentType with
      | ArrayTy elem _ =>
          let* p := CreateGEP currentType currentPtr [ConstantInt 64 0; idx] "sub_ptr" in
          descendDimensions rest p elem
      | _ =>
          cerrLine "Error: Dimension mismatch in array access" ;; ret None
      end
  end.

Definition codegenArrayAccess (array index : ExprNode) : CG (option Value) :=
  let? index0 := codegenExpr index in
  (* the array variable or sub-array *)
  let* resolved :=
    match array with
    | IdentifierNode arrayVarName _ =>
        let* named := gets (fun s => namedValues (syms s) !! arrayVarName) in
        match named with
        | None =>
            cerrLine ("Error: Undefined array variable '" +:+ arrayVarName +:+ "'") ;;
            ret None
        | Some None => abort "dyn_cast on a null pointer"
        | Some (Some a) =>
            let arrayType := getAllocatedType a in
            let elementType :=
              match arrayType with
              | ArrayTy e _ => e
              | PointerTy => i32    (* an array parameter; i32 is assumed *)
              | _ => i8
              end in
            ret (Some (allocaValue a, arrayType, elementType, true, index0))
        end
    | ArrayAccessNode _ _ =>
        (* chained access: the loop starts at the node itself *)
        let? idx := codegenExpr index in
        let? collected := collectIndices array [idx] in
        let allIndices := fst collected in
        let baseVarName := snd collected in
        let* named := gets (fun s => namedValues (syms s) !! baseVarName) in
        match named with
        | None =>
            cerrLine ("Error: Undefined array variable '" +:+ baseVarName +:+ "'") ;;
            ret None
        | Some None => abort "dyn_cast on a null pointer"
        | Some (Some a) =>
            let? sub := descendDimensions allIndices (allocaValue a) (getAllocatedType a) in
            let arrayPtr := fst sub in
            let arrayType := snd sub in
            let elementType :=
              match arrayType with ArrayTy e _ => e | _ => arrayType end in
            match last allIndices with
            | Some lastIndex =>
                ret (Some (arrayPtr, arrayType, elementType, false, lastIndex))
            | None => abort "back() of an empty vector"
            end
        end
    | _ =>
        cerrLine "Error: Unsupported array access pattern" ;; ret None
    end in
  match resolved with
  | None => ret None
  | Some (arrayPtr, arrayType, elementType, isFromVariable, index) =>
      (* the declared type of the variable, when the array is an identifier *)
      let* types := gets (fun s => variableTypes (syms s)) in
      let '(elementType, isStringType) :=
        match array with
        | IdentifierNode arrayVarName _ =>
            match types !! arrayVarName with
            | Some varType =>
                if streq varType "string" || streq varType "char*" then (i8, true)
                else if streq varType "int" || streq varType "int*" then (i32, false)
                else if streq varType "double" || streq varType "double*" then (DoubleTy, false)
                else (i8, false)
            | None => (elementType, false)
            end
        | _ => (elementType, false)
        end in
      boundsCheckedAccess index arrayPtr arrayType elementType isFromVariable isStringType
  end.

Definition codegenMemberAccess (object : ExprNode) (memberName : string)
    : CG (option Value) :=
  match object with
  | IdentifierNode name _ =>
      let* aliases := gets (fun s => moduleAliases (mods s)) in
      let objectName :=
        match aliases !! name with
        | Some actual => actual
        | None => name
        end in
      let* moduleVar := findModuleGlobal objectName memberName in
      match moduleVar with
      | Some g =>
          let* v := CreateLoad (gvValueType g) (GlobalVariableV g) "module_global" in
          ret (Some v)
      | None =>
          let* named := gets (fun s => namedValues (syms s) !! objectName) in
          match named with
          | Some _ =>
              cerrLine ("Error: Member access on object '" +:+ objectName
                        +:+ "' is not supported. PiPiXia currently does not support "
                        +:+ "structures or classes.") ;;
              cerrLine ("Note: Only module member access (e.g., module.function()) "
                        +:+ "is currently supported.") ;;
              incrErrorCount ;;
              ret None
          | None =>
              cerrLine ("Error: Undefined variable or module '" +:+ objectName +:+ "'") ;;
              incrErrorCount ;;
              ret None
          end
      end
  | _ =>
      cerrLine ("Error: Member access on complex expressions is not supported. "
                +:+ "PiPiXia currently does not support structures or classes.") ;;
      cerrLine ("Note: Only module member access (e.g., module.function() or module.variable) "
                +:+ "is currently supported.") ;;
      incrErrorCount ;;
      ret None
  end.

End ExpressionLowering.

(** The dispatcher. *)
Fixpoint codegenExpr (node : ExprNode) : CG (option Value) :=
  match node with
  | IntLiteralNode v => codegenIntLiteral v
  | DoubleLiteralNode v => codegenDoubleLiteral v
  | StringLiteralNode v => codegenStringLiteral v
  | CharLiteralNode v => codegenCharLiteral v
  | BoolLiteralNode v => codegenBoolLiteral v
  | IdentifierNode n line => codegenIdentifier n line
  | BinaryOpNode op l r => codegenBinaryOp codegenExpr op l r
  | UnaryOpNode op e => codegenUnaryOp codegenExpr op e
  | FunctionCallNode f args obj => codegenFunctionCall codegenExpr f args obj
  | ArrayAccessNode a i => codegenArrayAccess codegenExpr a i
  | MemberAccessNode o m => codegenMemberAccess o m
  end.

(** ** Statement lowering *)

Definition ConstantFP_get (t : llvmType) (d : spec_float) : CG Value :=
  match t with
  | DoubleTy => ret (ConstantFP d)
  | _ => abort "ConstantFP::get: not a floating-point type"
  end.

Definition set_currentFunction (x : option Function) (s : CodeGenerator) :=
  set_ctl (mkControlContext x (loopContextStack (ctl s)) (globalInitializers (ctl s))) s.
Definition set_loopContextStack (x : list LoopContext) (s : CodeGenerator) :=
  set_ctl (mkControlContext (currentFunction (ctl s)) x (globalInitializers (ctl s))) s.
Definition set_globalInitializers (x : list GlobalInitializer) (s : CodeGenerator) :=
  set_ctl (mkControlContext (currentFunction (ctl s)) (loopContextStack (ctl s)) x) s.

(** The array type of a declaration, built from the innermost dimension
    outwards: [int[3][4]] is [[3 x [4 x i32]]]. *)
Definition arrayTypeOf (baseType : llvmType) (dims : list Z) : llvmType :=
  fold_right (fun d t => ArrayTy t (Z.to_N (d mod 2 ^ 64))) baseType dims.

(** A global whose initializer is not a constant expression: it is zero
    initialized and entered in the list of dynamic initializers. *)
Definition deferGlobalInitializer (name : string) (type : llvmType) (isConst : bool)
    (initializer : ExprNode) : CG unit :=
  let* globalVar := GlobalVariable_new type isConst (getNullValue type) name in
  modify (fun s => set_globalValues (<[name := Some globalVar]> (globalValues (syms s))) s) ;;
  modify (fun s => set_globalInitializers
                     (globalInitializers (ctl s) ++ [mkGlobalInitializer globalVar initializer]) s).

(** The constant initializer of a global; [None] when the initializer was
    deferred (the function has returned by then). *)
Definition globalInitialValue (name : string) (type : llvmType) (isConst : bool)
    (initializer : option ExprNode) : CG (option Value) :=
  match initializer with
  | None => ret (Some (getNullValue type))
  | Some (IntLiteralNode v) =>
      let* c := ConstantInt_get type v in ret (Some c)
  | Some (DoubleLiteralNode d) =>
      let* c := ConstantFP_get type d in ret (Some c)
  | Some (BoolLiteralNode b) =>
      let* c := ConstantInt_get type (if b then 1 else 0) in ret (Some c)
  | Some (CharLiteralNode c) =>
      let* c := ConstantInt_get type (c mod 2 ^ 8) in ret (Some c)
  | Some (StringLiteralNode str) =>
      (* a constant global holding the string; its address is the value *)
      let* g := CreateGlobalString str in ret (Some g)
  | Some (BinaryOpNode op l r as e) =>
      match l, r with
      | IntLiteralNode a, IntLiteralNode b =>
          if streq op "+" then let* c := ConstantInt_get type (a + b) in ret (Some c)
          else if streq op "-" then let* c := ConstantInt_get type (a - b) in ret (Some c)
          else if streq op "*" then let* c := ConstantInt_get type (a * b) in ret (Some c)
          else if streq op "/" then
            let* c := ConstantInt_get type (if bool_decide (b = 0)%Z then 0 else Z.quot a b) in
            ret (Some c)
          else if streq op "%" then
            let* c := ConstantInt_get type (if bool_decide (b = 0)%Z then 0 else Z.rem a b) in
            ret (Some c)
          else
            cerrLine ("Warning: Unsupported constant expression operator '" +:+ op
                      +:+ "' for global variable '" +:+ name +:+ "', using zero") ;;
            ret (Some (getNullValue type))
      | DoubleLiteralNode a, DoubleLiteralNode b =>
          if streq op "+" then let* c := ConstantFP_get type (SFadd prec emax a b) in ret (Some c)
          else if streq op "-" then let* c := ConstantFP_get type (SFsub prec emax a b) in ret (Some c)
          else if streq op "*" then let* c := ConstantFP_get type (SFmul prec emax a b) in ret (Some c)
          else if streq op "/" then
            let* c := ConstantFP_get type
                        (if SFeqb b fzero then fzero else SFdiv prec emax a b) in
            ret (Some c)
          else
            cerrLine ("Warning: Unsupported constant expression operator '" +:+ op
                      +:+ "' for global variable '" +:+ name +:+ "', using zero") ;;
            ret (Some (getNullValue type))
      | _, _ =>
          (* not a simple constant expression: dynamic initialization *)
          deferGlobalInitializer name type isConst e ;; ret None
      end
  | Some (UnaryOpNode op operand as e) =>
      if streq op "-" then
        match operand with
        | IntLiteralNode v => let* c := ConstantInt_get type (- v) in ret (Some c)
        | DoubleLiteralNode d => let* c := ConstantFP_get type (SFopp d) in ret (Some c)
        | _ =>
            cerrLine ("Warning: Global variable '" +:+ name
                      +:+ "' has non-constant unary expression, using zero") ;;
            ret (Some (getNullValue type))
        end
      else
        cerrLine ("Warning: Unsupported unary operator '" +:+ op
                  +:+ "' for global variable '" +:+ name +:+ "', using zero") ;;
        ret (Some (getNullValue type))
  | Some e =>
      deferGlobalInitializer name type isConst e ;; ret None
  end.

Definition codegenVarDecl (isConst : bool) (name : string) (type : TypeNode)
    (initializer : option ExprNode) : CG unit :=
  (* the type, with its array dimensions *)
  let* baseType := getType (typeName type) in
  let ty := arrayTypeOf baseType (arrayDimensions type) in
  let* currentFn := gets (fun s => currentFunction (ctl s)) in
  match currentFn with
  | None =>
      (* outside a function: a global variable or constant *)
      let* known := gets (fun s => globalValues (syms s) !! name) in
      match known with
      | Some _ =>
          cerrLine ("Error: Global variable '" +:+ name +:+ "' is already defined")
      | None =>
          let* initVal := globalInitialValue name ty isConst initializer in
          match initVal with
          | None => ret tt
          | Some init =>
              let* globalVar := GlobalVariable_new ty isConst init name in
              modify (fun s =>
                set_globalValues (<[name := Some globalVar]> (globalValues (syms s))) s)
          end
      end
  | Some _ =>
      let* known := gets (fun s => namedValues (syms s) !! name) in
      match known with
      | Some _ =>
          cerrLine ("Error: Local variable '" +:+ name
                    +:+ "' is already defined in this scope")
      | None =>
          (* a local variable: an alloca in the entry block *)
          let* alloca := createEntryBlockAlloca currentFn name ty in
          match initializer with
          | Some init =>
              let* v := codegenExpr init in
              match v with
              | Some initVal =>
                  let* initVal :=
                    (if negb (bool_decide (typeOf initVal = ty))
                     then convertToType initVal ty else ret initVal) in
                  CreateStore initVal (allocaValue alloca) ;;
                  (* a temporary handed to the variable: ownership moves *)
                  if isPointerTy (typeOf initVal) then
                    let* temps := gets (fun s => tempMemoryStack (mem s)) in
                    if bool_decide (initVal ∈ temps) then
                      removeTempMemory (Some initVal) ;;
                      trackOwnedString name (Some initVal)
                    else ret tt
                  else ret tt
              | None => ret tt
              end
          | None => ret tt
          end ;;
          modify (fun s => set_namedValues (<[name := Some alloca]> (namedValues (syms s))) s) ;;
          (* the declared type, kept for array accesses *)
          modify (fun s =>
            set_variableTypes (<[name := typeName type]> (variableTypes (syms s))) s) ;;
          clearTempMemory
      end
  end.

(** The compound operators on an array element (lines 2519-2568): no
    divisor check here. *)
Definition compoundAssignOnElement (op : string) (oldVal value : Value) : CG Value :=
  let isFloat := isDoubleTy (typeOf oldVal) in
  (* type matching *)
  let* value := (if negb (bool_decide (typeOf value = typeOf oldVal))
                 then convertToType value (typeOf oldVal) else ret value) in
  if streq op "+=" then
    if isFloat then CreateFAdd oldVal value "addassign" else CreateAdd oldVal value "addassign"
  else if streq op "-=" then
    if isFloat then CreateFSub oldVal value "subassign" else CreateSub oldVal value "subassign"
  else if streq op "*=" then
    if isFloat then CreateFMul oldVal value "mulassign" else CreateMul oldVal value "mulassign"
  else if streq op "/=" then
    if isFloat then CreateFDiv oldVal value "divassign" else CreateSDiv oldVal value "divassign"
  else if streq op "//=" then
    let* leftInt := (if isDoubleTy (typeOf oldVal)
                     then CreateFPToSI oldVal i32 "floordiv_left" else ret oldVal) in
    let* rightInt := (if isDoubleTy (typeOf value)
                      then CreateFPToSI value i32 "floordiv_right" else ret value) in
    CreateSDiv leftInt rightInt "floordivassign"
  else if streq op "%=" then
    if isFloat then CreateFRem oldVal value "modassign" else CreateSRem oldVal value "modassign"
  else ret value.

(** [x /= v] on a variable: the divisor check of lines 2631-2707 (global)
    and 2873-2946 (local), which are the same text. *)
Definition divAssignWithZeroCheck (isFloat : bool) (oldVal value : Value) : CG Value :=
  let* ib := GetInsertBlock in
  let* function := getParent ib in
  if isFloat then
    let zero := ConstantFP fzero in
    let* isZero := CreateFCmpOEQ value zero "iszero" in
    let* errorBB := BasicBlock_Create "divassign_error" function in
    let* computeBB := BasicBlock_Create "divassign_compute" function in
    let* mergeBB := BasicBlock_Create "divassign_merge" function in
    CreateCondBr isZero errorBB computeBB ;;
    SetInsertPoint errorBB ;;
    let* printfFunc := getPrintfFunction in
    let* errorMsg := CreateGlobalString ("Runtime Error: Division by zero in /= operator" +:+ NL) in
    CreateCallTo printfFunc [errorMsg] "" ;;
    let nan := ConstantFP fnan in
    CreateBr mergeBB ;;
    SetInsertPoint computeBB ;;
    let* divResult := CreateFDiv oldVal value "divassign" in
    CreateBr mergeBB ;;
    SetInsertPoint mergeBB ;;
    let* phi := CreatePHI DoubleTy "divassign_result" in
    addIncoming phi nan errorBB ;;
    addIncoming phi divResult computeBB ;;
    ret (phiValue phi)
  else
    let zero := ConstantInt 32 0 in
    let* isZero := CreateICmpEQ value zero "iszero" in
    let* errorBB := BasicBlock_Create "divassign_error" function in
    let* computeBB := BasicBlock_Create "divassign_compute" function in
    let* mergeBB := BasicBlock_Create "divassign_merge" function in
    CreateCondBr isZero errorBB computeBB ;;
    SetInsertPoint errorBB ;;
    let* printfFunc := getPrintfFunction in
    let* errorMsg := CreateGlobalString ("Runtime Error: Division by zero in /= operator" +:+ NL) in
    CreateCallTo printfFunc [errorMsg] "" ;;
    CreateBr mergeBB ;;
    SetInsertPoint computeBB ;;
    let* divResult := CreateSDiv oldVal value "divassign" in
    CreateBr mergeBB ;;
    SetInsertPoint mergeBB ;;
    let* phi := CreatePHI i32 "divassign_result" in
    addIncoming phi zero errorBB ;;
    addIncoming phi divResult computeBB ;;
    ret (phiValue phi).

(** [x //= v] on a variable (lines 2708-2756 and 2947-2992): on a zero
    divisor the message is printed and the program is terminated. *)
Definition floorDivAssignWithZeroCheck (oldVal value : Value) : CG Value :=
  let* leftInt := (if isDoubleTy (typeOf oldVal)
                   then CreateFPToSI oldVal i32 "floordiv_left" else ret oldVal) in
  let* rightInt := (if isDoubleTy (typeOf value)
                    then CreateFPToSI value i32 "floordiv_right" else ret value) in
  (* divisor check *)
  let* ib := GetInsertBlock in
  let* function := getParent ib in
  let zero := ConstantInt 32 0 in
  let* isZero := CreateICmpEQ rightInt zero "iszero" in
  let* errorBB := BasicBlock_Create "floordivassign_error" function in
  let* computeBB := BasicBlock_Create "floordivassign_compute" function in
  CreateCondBr isZero errorBB computeBB ;;
  (* error branch: print the message and terminate the program *)
  SetInsertPoint errorBB ;;
  let* printfFunc := getPrintfFunction in
  let* errorMsg := CreateGlobalString
                     ("Runtime Error: Integer division by zero in //= operator" +:+ NL) in
  CreateCallTo printfFunc [errorMsg] "" ;;
  (* exit(1) *)
  let* exitFunc := Module_getFunction "exit" in
  CreateCallTo exitFunc [ConstantInt 32 1] "" ;;
  CreateUnreachable ;;
  (* compute branch *)
  SetInsertPoint computeBB ;;
  CreateSDiv leftInt rightInt "floordivassign".

(** [x %= v] on a variable (lines 2757-2832 and 2993-3066). *)
Definition modAssignWithZeroCheck (isFloat : bool) (oldVal value : Value) : CG Value :=
  let* ib := GetInsertBlock in
  let* function := getParent ib in
  if isFloat then
    let zero := ConstantFP fzero in
    let* isZero := CreateFCmpOEQ value zero "iszero" in
    let* errorBB := BasicBlock_Create "modassign_error" function in
    let* computeBB := BasicBlock_Create "modassign_compute" function in
    let* mergeBB := BasicBlock_Create "modassign_merge" function in
    CreateCondBr isZero errorBB computeBB ;;
    SetInsertPoint errorBB ;;
    let* printfFunc := getPrintfFunction in
    let* errorMsg := CreateGlobalString ("Runtime Error: Modulo by zero in %= operator" +:+ NL) in
    CreateCallTo printfFunc [errorMsg] "" ;;
    let nan := ConstantFP fnan in
    CreateBr mergeBB ;;
    SetInsertPoint computeBB ;;
    let* modResult := CreateFRem oldVal value "modassign" in
    CreateBr mergeBB ;;
    SetInsertPoint mergeBB ;;
    let* phi := CreatePHI DoubleTy "modassign_result" in
    addIncoming phi nan errorBB ;;
    addIncoming phi modResult computeBB ;;
    ret (phiValue phi)
  else
    let* zero := ConstantInt_get (typeOf oldVal) 0 in
    let* isZero := CreateICmpEQ value zero "iszero" in
    let* errorBB := BasicBlock_Create "modassign_error" function in
    let* computeBB := BasicBlock_Create "modassign_compute" function in
    let* mergeBB := BasicBlock_Create "modassign_merge" function in
    CreateCondBr isZero errorBB computeBB ;;
    SetInsertPoint errorBB ;;
    let* printfFunc := getPrintfFunction in
    let* errorMsg := CreateGlobalString ("Runtime Error: Modulo by zero in %= operator" +:+ NL) in
    CreateCallTo printfFunc [errorMsg] "" ;;
    CreateBr mergeBB ;;
    SetInsertPoint computeBB ;;
    let* modResult := CreateSRem oldVal value "modassign" in
    CreateBr mergeBB ;;
    SetInsertPoint mergeBB ;;
    let* phi := CreatePHI (typeOf oldVal) "modassign_result" in
    addIncoming phi zero errorBB ;;
    addIncoming phi modResult computeBB ;;
    ret (phiValue phi).

(** The compound operators on a global or local variable (lines 2609-2834
    and 2854-3068, the same text). *)
Definition compoundAssignOnVariable (op : string) (oldVal value : Value) : CG Value :=
  let isFloat := isDoubleTy (typeOf oldVal) in
  (* the value gets the type of the old value *)
  let* value := (if negb (bool_decide (typeOf value = typeOf oldVal))
                 then convertToType value (typeOf oldVal) else ret value) in
  if streq op "+=" then
    if isFloat then CreateFAdd oldVal value "addassign" else CreateAdd oldVal value "addassign"
  else if streq op "-=" then
    if isFloat then CreateFSub oldVal value "subassign" else CreateSub oldVal value "subassign"
  else if streq op "*=" then
    if isFloat then CreateFMul oldVal value "mulassign" else CreateMul oldVal value "mulassign"
  else if streq op "/=" then divAssignWithZeroCheck isFloat oldVal value
  else if streq op "//=" then floorDivAssignWithZeroCheck oldVal value
  else if streq op "%=" then modAssignWithZeroCheck isFloat oldVal value
  else ret value.

(** Lines 3070-3086: the store into the local variable, the transfer of
    ownership of a temporary, and the release of the other temporaries. *)
Definition storeAndTransferOwnership (name : string) (alloca : AllocaInst)
    (value : Value) : CG unit :=
  CreateStore value (allocaValue alloca) ;;
  (if isPointerTy (typeOf value) then
     let* temps := gets (fun s => tempMemoryStack (mem s)) in
     if bool_decide (value ∈ temps) then
       (* a temporary: the variable owns it from now on *)
       removeTempMemory (Some value) ;;
       trackOwnedString name (Some value)
     else ret tt
   else ret tt) ;;
  (* the other temporaries of the assignment are released *)
  clearTempMemory.

Definition codegenAssignment (target : ExprNode) (op : string) (value : ExprNode)
    : CG unit :=
  match target with
  | ArrayAccessNode array indexNode =>
      (* an array element: arr[index] = value *)
      let* idx := codegenExpr indexNode in
      match idx with
      | None => cerrLine "Error: Invalid index in array assignment"
      | Some index =>
          match array with
          | IdentifierNode arrayVarName _ =>
              let* named := gets (fun s => namedValues (syms s) !! arrayVarName) in
              match named with
              | None =>
                  cerrLine ("Error: Undefined array variable '" +:+ arrayVarName +:+ "'")
              | Some None => abort "dyn_cast on a null pointer"
              | Some (Some a) =>
                  let arrayPtr := allocaValue a in
                  let arrayType := getAllocatedType a in
                  let elementType :=
                    match arrayType with
                    | ArrayTy e _ => e
                    | PointerTy => i32
                    | _ => i8
                    end in
                  let* v := codegenExpr value in
                  match v with
                  | None => cerrLine "Error: Invalid assignment value for array element"
                  | Some val =>
                      (* the address of the element *)
                      let* ptr :=
                        (if isArrayTy arrayType then
                           CreateGEP arrayType arrayPtr [ConstantInt 64 0; index] "arrayptr"
                         else if isPointerTy arrayType then
                           let* loadedPtr := CreateLoad arrayType arrayPtr "loaded_ptr" in
                           CreateGEP elementType loadedPtr [index] "arrayptr"
                         else CreateGEP elementType arrayPtr [index] "arrayptr") in
                      let* val :=
                        (if negb (streq op "=") then
                           let* oldVal := CreateLoad elementType ptr "oldval" in
                           compoundAssignOnElement op oldVal val
                         else ret val) in
                      let* val := (if negb (bool_decide (typeOf val = elementType))
                                   then convertToType val elementType else ret val) in
                      CreateStore val ptr
                  end
              end
          | _ => cerrLine "Error: Array assignment target must be a variable"
          end
      end
  | IdentifierNode name _ =>
      (* local variables first *)
      let* alloca := namedValues_at name in
      match alloca with
      | None =>
          let* globalVar := globalValues_at name in
          match globalVar with
          | None => cerrLine ("Error: Undefined variable '" +:+ name +:+ "'")
          | Some g =>
              let* v := codegenExpr value in
              match v with
              | None =>
                  cerrLine ("Error: Invalid assignment value for variable '" +:+ name +:+ "'")
              | Some val =>
                  let* val :=
                    (if negb (streq op "=") then
                       let* oldVal := CreateLoad (gvValueType g) (GlobalVariableV g) "oldval" in
                       compoundAssignOnVariable op oldVal val
                     else ret val) in
                  CreateStore val (GlobalVariableV g) ;;
                  (* a temporary leaves the stack: ownership moves *)
                  if isPointerTy (typeOf val) then removeTempMemory (Some val) else ret tt
              end
          end
      | Some a =>
          let* v := codegenExpr value in
          match v with
          | None =>
              cerrLine ("Error: Invalid assignment value for variable '" +:+ name +:+ "'")
          | Some val =>
              let* val :=
                (if negb (streq op "=") then
                   let* oldVal := CreateLoad (getAllocatedType a) (allocaValue a) "oldval" in
                   compoundAssignOnVariable op oldVal val
                 else ret val) in
              storeAndTransferOwnership name a val
          end
      end
  | _ =>
      cerrLine "Error: Assignment target must be a variable identifier or array element"
  end.

Definition codegenBreakStmt : CG unit :=
  let* stack := gets (fun s => loopContextStack (ctl s)) in
  match last stack with
  | None =>
      cerrLine "Error: 'break' statement not in loop or switch"
  | Some top =>
      clearTempMemory ;;
      (* jump to the end of the loop or switch *)
      CreateBrTo (breakBlock top) ;;
      (* a fresh block for the unreachable code after the break *)
      let* ib := GetInsertBlock in
      let* function := getParent ib in
      let* afterBreakBB := BasicBlock_Create "after_break" function in
      SetInsertPoint afterBreakBB
  end.

Definition codegenContinueStmt : CG unit :=
  let* stack := gets (fun s => loopContextStack (ctl s)) in
  match last stack with
  | None =>
      cerrLine "Error: 'continue' statement not in loop"
  | Some top =>
      clearTempMemory ;;
      (* jump to the continue block of the loop *)
      CreateBrTo (continueBlock top) ;;
      let* ib := GetInsertBlock in
      let* function := getParent ib in
      let* afterContinueBB := BasicBlock_Create "after_continue" function in
      SetInsertPoint afterContinueBB
  end.

Definition codegenReturnStmt (value : option ExprNode) : CG unit :=
  let* currentFn := gets (fun s => currentFunction (ctl s)) in
  match value with
  | Some e =>
      let* r := codegenExpr e in
      match r with
      | None => cerrLine "Error: Invalid return value"
      | Some retVal =>
          match currentFn with
          | None => abort "currentFunction is null"
          | Some f =>
              let expectedRetType := ftReturn (fnType f) in
              let finish (retVal : Value) :=
                (if isPointerTy (typeOf retVal) then removeTempMemory (Some retVal) else ret tt) ;;
                clearTempMemory ;;
                CreateRet retVal in
              if negb (bool_decide (typeOf retVal = expectedRetType)) then
                if isVoidTy expectedRetType then
                  cerrLine "Error: Cannot return a value from void function"
                else
                  let* converted := convertToType retVal expectedRetType in
                  (if negb (bool_decide (typeOf converted = expectedRetType)) then
                     cerrLine ("Warning: Return type mismatch, expected "
                               +:+ printType expectedRetType +:+ ", got "
                               +:+ printType (typeOf retVal))
                   else ret tt) ;;
                  finish converted
              else finish retVal
          end
      end
  | None =>
      (match currentFn with
       | Some f =>
           if negb (isVoidTy (ftReturn (fnType f)))
           then cerrLine "Warning: Empty return in non-void function"
           else ret tt
       | None => ret tt
       end) ;;
      clearTempMemory ;;
      CreateRetVoid
  end.

Definition codegenExprStmt (expression : ExprNode) : CG unit :=
  codegenExpr expression ;;
  clearTempMemory.

Definition set_loadedModules (x : gset string) (s : CodeGenerator) :=
  set_mods (mkModuleRegistry x (moduleAliases (mods s)) (moduleFunctions (mods s))
              (moduleGlobals (mods s)) (currentDirectory (mods s)) (sourceDirectory (mods s))) s.
Definition set_moduleAliases (x : gmap string string) (s : CodeGenerator) :=
  set_mods (mkModuleRegistry (loadedModules (mods s)) x (moduleFunctions (mods s))
              (moduleGlobals (mods s)) (currentDirectory (mods s)) (sourceDirectory (mods s))) s.
Definition set_moduleFunctions (x : gmap string (gmap string Function)) (s : CodeGenerator) :=
  set_mods (mkModuleRegistry (loadedModules (mods s)) (moduleAliases (mods s)) x
              (moduleGlobals (mods s)) (currentDirectory (mods s)) (sourceDirectory (mods s))) s.
Definition set_moduleGlobals (x : gmap string (gmap string (option GlobalVariable)))
    (s : CodeGenerator) :=
  set_mods (mkModuleRegistry (loadedModules (mods s)) (moduleAliases (mods s))
              (moduleFunctions (mods s)) x (currentDirectory (mods s))
              (sourceDirectory (mods s))) s.

(** What opening and parsing a module file gives. *)
Inductive ParseOutcome :=
| CannotOpen
| ParseFailed
| Parsed (moduleRoot : ProgramNode).

Definition endsWithPpx (path : string) : bool :=
  match Nat.ltb (String.length path) 4 with
  | true => false
  | false => streq (substring (String.length path - 4) 4 path) ".ppx"
  end.

Definition startsWithSlash (path : string) : bool :=
  match path with
  | String c _ => bool_decide (c = "/"%char)
  | EmptyString => false
  end.

Section StatementLowering.

(** The dispatcher [codegenStmt], as the functions below call it, and the
    outside world of the module loader: [stat] on a path, and [fopen]
    followed by [yyparse]. *)
Variable codegenStmt : StmtNode -> CG unit.
Variable fileExists : string -> bool.
Variable openAndParse : string -> ParseOutcome.

Fixpoint codegenStatements (stmts : list StmtNode) : CG unit :=
  match stmts with
  | [] => ret tt
  | stmt :: rest => codegenStmt stmt ;; codegenStatements rest
  end.

Definition codegenBlock (stmts : list StmtNode) : CG unit :=
  codegenStatements stmts ;;
  (* the temporaries of the block are released *)
  clearTempMemory.

Definition codegenIfStmt (condition : ExprNode) (thenBranch : StmtNode)
    (elseBranch : option StmtNode) : CG unit :=
  let* c := codegenExpr condition in
  match c with
  | None => ret tt
  | Some condVal =>
      let* condVal :=
        (if negb (isIntegerTyN 1 (typeOf condVal)) then
           let* zero := ConstantInt_get (typeOf condVal) 0 in
           CreateICmpNE condVal zero "ifcond"
         else ret condVal) in
      let* ib := GetInsertBlock in
      let* function := getParent ib in
      let* thenBB := BasicBlock_Create "then" function in
      let* elseBB := (match elseBranch with
                      | Some _ => let* b := BasicBlock_Create "else" None in ret (Some b)
                      | None => ret None
                      end) in
      let* mergeBB := BasicBlock_Create "ifcont" None in
      CreateCondBr condVal thenBB (default mergeBB elseBB) ;;
      SetInsertPoint thenBB ;;
      codegenStmt thenBranch ;;
      let* thenTerm := insertBlockTerminator in
      (if negb (bool_decide (is_Some thenTerm)) then CreateBr mergeBB else ret tt) ;;
      match elseBB, elseBranch with
      | Some eb, Some elseStmt =>
          Function_insertTo function eb ;;
          SetInsertPoint eb ;;
          codegenStmt elseStmt ;;
          let* elseTerm := insertBlockTerminator in
          (if negb (bool_decide (is_Some elseTerm)) then CreateBr mergeBB else ret tt) ;;
          Function_insertTo function mergeBB ;;
          SetInsertPoint mergeBB ;;
          (* both branches terminated: the merge block is unreachable *)
          if bool_decide (is_Some thenTerm) && bool_decide (is_Some elseTerm)
          then CreateUnreachable else ret tt
      | _, _ =>
          Function_insertTo function mergeBB ;;
          SetInsertPoint mergeBB
      end
  end.

Definition codegenWhileStmt (condition : ExprNode) (body : StmtNode) : CG unit :=
  let* ib := GetInsertBlock in
  let* function := getParent ib in
  let* condBB := BasicBlock_Create "whilecond" function in
  let* bodyBB := BasicBlock_Create "whilebody" None in
  let* afterBB := BasicBlock_Create "afterwhile" None in
  (* the loop context, for break and continue *)
  modify (fun s => set_loopContextStack
                     (loopContextStack (ctl s) ++ [mkLoopContext (Some condBB) (Some afterBB)]) s) ;;
  CreateBr condBB ;;
  SetInsertPoint condBB ;;
  let* c := codegenExpr condition in
  match c with
  | None =>
      modify (fun s => set_loopContextStack (removelast (loopContextStack (ctl s))) s)
  | Some condVal =>
      let* condVal :=
        (if negb (isIntegerTyN 1 (typeOf condVal)) then
           let* zero := ConstantInt_get (typeOf condVal) 0 in
           CreateICmpNE condVal zero "whilecond"
         else ret condVal) in
      (* the temporaries of the condition are released on every iteration *)
      clearTempMemory ;;
      CreateCondBr condVal bodyBB afterBB ;;
      Function_insertTo function bodyBB ;;
      SetInsertPoint bodyBB ;;
      codegenStmt body ;;
      let* term := insertBlockTerminator in
      (if negb (bool_decide (is_Some term)) then
         clearTempMemory ;;
         CreateBr condBB
       else ret tt) ;;
      Function_insertTo function afterBB ;;
      SetInsertPoint afterBB ;;
      (* the loop context is popped *)
      modify (fun s => set_loopContextStack (removelast (loopContextStack (ctl s))) s)
  end.

(** Lines 3446-3461 of [codegenFunctionDecl]: what happens when the body's
    lowering leaves the insertion block without terminator, and the
    registration of the function. *)
Definition finishFunctionDecl (name : string) (retType : llvmType)
    (function : Function) (prevFunction : option Function) : CG unit :=
  let* term := insertBlockTerminator in
  (if negb (bool_decide (is_Some term)) then
     (* no explicit return: the temporaries are released here *)
     clearTempMemory ;;
     if isVoidTy retType then CreateRetVoid
     else CreateRet (getNullValue retType)
   else ret tt) ;;
  modify (set_currentFunction prevFunction) ;;
  modify (fun s => set_functions (<[name := function]> (functions (syms s))) s).

Fixpoint storeParameters (function : Function) (idx : nat) (params : list ParameterNode)
    (types : list llvmType) : CG unit :=
  match params, types with
  | p :: params', t :: types' =>
      let* alloca := createEntryBlockAlloca (Some function) (paramName p) t in
      CreateStore (ArgumentV (fnId function) idx t) (allocaValue alloca) ;;
      modify (fun s => set_namedValues
                         (<[paramName p := Some alloca]> (namedValues (syms s))) s) ;;
      storeParameters function (S idx) params' types'
  | _, _ => ret tt
  end.

Fixpoint parameterTypes (params : list ParameterNode) : CG (list llvmType) :=
  match params with
  | [] => ret []
  | p :: rest =>
      let* paramTy := getType (typeName (paramType p)) in
      (* an array parameter is passed as a pointer *)
      let paramTy := match arrayDimensions (paramType p) with
                     | [] => paramTy
                     | _ => PointerTy
                     end in
      let* tys := parameterTypes rest in
      ret (paramTy :: tys)
  end.

(** The verifier's report goes to [llvm::errs()] and is not kept.  Argument
    names are the parameter names (they are taken to be distinct; LLVM
    would rename a repeated one). *)
Definition codegenFunctionDecl (name : string) (parameters : list ParameterNode)
    (returnType : option TypeNode) (body : option (list StmtNode)) : CG unit :=
  let* known := Module_getFunction name in
  match known with
  | Some _ =>
      cerrLine ("Error: Function '" +:+ name +:+ "' is already defined")
  | None =>
      let* retType := (match returnType with
                       | Some t => getType (typeName t)
                       | None => ret VoidTy
                       end) in
      let* paramTypes := parameterTypes parameters in
      let funcType := mkFunctionType retType paramTypes false in
      let* function := Function_Create funcType name in
      let* entryBB := BasicBlock_Create "entry" (Some function) in
      SetInsertPoint entryBB ;;
      let* prevFunction := gets (fun s => currentFunction (ctl s)) in
      modify (set_currentFunction (Some function)) ;;
      modify (set_namedValues ∅) ;;
      modify (set_variableTypes ∅) ;;
      (* every parameter gets an alloca holding its value *)
      storeParameters function 0 parameters paramTypes ;;
      (match body with
       | Some stmts => codegenBlock stmts
       | None => ret tt
       end) ;;
      finishFunctionDecl name retType function prevFunction
  end.

Definition findModuleFile (moduleName : string) : CG string :=
  (* the extension is added when it is missing *)
  let modulePath := if endsWithPpx moduleName then moduleName
                    else moduleName +:+ ".ppx" in
  let* sourceDir := gets (fun s => sourceDirectory (mods s)) in
  let* currentDir := gets (fun s => currentDirectory (mods s)) in
  (* 1. the path as it is *)
  if fileExists modulePath then ret modulePath
  (* 2. in the directory of the source file *)
  else if negb (streq sourceDir "") && negb (startsWithSlash modulePath)
          && fileExists (sourceDir +:+ "/" +:+ modulePath)
  then ret (sourceDir +:+ "/" +:+ modulePath)
  (* 3. in the current working directory *)
  else if negb (startsWithSlash modulePath)
          && fileExists (currentDir +:+ "/" +:+ modulePath)
  then ret (currentDir +:+ "/" +:+ modulePath)
  else ret "".

(** Lines 338-368 of [loadModule]: the module's function and global
    declarations are generated and entered in the module's namespace. *)
Fixpoint loadModuleStatements (moduleName : string) (stmts : list StmtNode) : CG unit :=
  match stmts with
  | [] => ret tt
  | stmt :: rest =>
      (match stmt with
       | FunctionDeclNode name parameters returnType body =>
           codegenFunctionDecl name parameters returnType body ;;
           let* func := Module_getFunction name in
           match func with
           | Some f =>
               modify (fun s =>
                 set_moduleFunctions
                   (<[moduleName := <[name := f]> (default ∅ (moduleFunctions (mods s) !! moduleName))]>
                      (moduleFunctions (mods s))) s)
           | None => ret tt
           end
       | VarDeclNode isConst name type initializer =>
           codegenVarDecl isConst name type initializer ;;
           let* g := gets (fun s => globalValues (syms s) !! name) in
           match g with
           | Some gv =>
               modify (fun s =>
                 set_moduleGlobals
                   (<[moduleName := <[name := gv]> (default ∅ (moduleGlobals (mods s) !! moduleName))]>
                      (moduleGlobals (mods s))) s)
           | None => ret tt
           end
       | _ => ret tt
       end) ;;
      loadModuleStatements moduleName rest
  end.

Definition loadModule (moduleName : string) : CG bool :=
  let* loaded := gets (fun s => loadedModules (mods s)) in
  (* already loaded? *)
  if bool_decide (moduleName ∈ loaded) then ret true
  else
    let* moduleFile := findModuleFile moduleName in
    if streq moduleFile "" then
      cerrLine ("Error: Module '" +:+ moduleName +:+ "' not found") ;;
      ret false
    else
      match openAndParse moduleFile with
      | CannotOpen =>
          cerrLine ("Error: Cannot open module file: " +:+ moduleFile) ;;
          ret false
      | ParseFailed =>
          cerrLine ("Error: Failed to parse module: " +:+ moduleName) ;;
          ret false
      | Parsed moduleRoot =>
          (* the namespace of the module, created when it is missing *)
          modify (fun s =>
            match moduleFunctions (mods s) !! moduleName with
            | None =>
                set_moduleGlobals (<[moduleName := ∅]> (moduleGlobals (mods s)))
                  (set_moduleFunctions (<[moduleName := ∅]> (moduleFunctions (mods s))) s)
            | Some _ => s
            end) ;;
          loadModuleStatements moduleName (statements moduleRoot) ;;
          (* marked as loaded *)
          modify (fun s => set_loadedModules ({[moduleName]} ∪ loadedModules (mods s)) s) ;;
          ret true
      end.

Definition codegenImport (moduleName alias : string) : CG unit :=
  let* ok := loadModule moduleName in
  if negb ok then
    cerrLine ("Error: Failed to import module: " +:+ moduleName)
  else if negb (streq alias "") then
    (* the alias the user gave *)
    modify (fun s => set_moduleAliases (<[alias := moduleName]> (moduleAliases (mods s))) s)
  else
    (* without alias the module name itself is the access path *)
    modify (fun s => set_moduleAliases (<[moduleName := moduleName]> (moduleAliases (mods s))) s).

End StatementLowering.

(** ** The dispatchers and the program driver *)

Section Driver.

Variable fileExists : string -> bool.
Variable openAndParse : string -> ParseOutcome.
(** [llvm::verifyModule]: does the verifier find the module broken? *)
Variable verifyModule : IRState -> bool.

(** [codegenStmt], with what an import statement does left open. *)
Fixpoint codegenStmtWith (importModule : string -> string -> CG unit)
    (node : StmtNode) : CG unit :=
  match node with
  | VarDeclNode isConst name type initializer =>
      codegenVarDecl isConst name type initializer
  | AssignmentNode target op value => codegenAssignment target op value
  | BlockNode stmts => codegenBlock (codegenStmtWith importModule) stmts
  | IfStmtNode c t e => codegenIfStmt (codegenStmtWith importModule) c t e
  | WhileStmtNode c b => codegenWhileStmt (codegenStmtWith importModule) c b
  | ReturnStmtNode v => codegenReturnStmt v
  | BreakStmtNode => codegenBreakStmt
  | ContinueStmtNode => codegenContinueStmt
  | ExprStmtNode e => codegenExprStmt e
  | FunctionDeclNode name parameters returnType body =>
      codegenFunctionDecl (codegenStmtWith importModule) name parameters returnType body
  | ImportNode moduleName alias => importModule moduleName alias
  end.

(** An import lowers the statements of another file, which may import
    again; [depth] bounds the nesting of imports (the compiler's own stack
    is the bound in the source). *)
Fixpoint codegenStmt (depth : nat) : StmtNode -> CG unit :=
  codegenStmtWith
    (match depth with
     | O => fun _ _ => abort "imports nested too deeply"
     | S d => codegenImport (codegenStmt d) fileExists openAndParse
     end).

Fixpoint initializeGlobals (inits : list GlobalInitializer) : CG unit :=
  match inits with
  | [] => ret tt
  | init :: rest =>
      let* v := codegenExpr (giExpr init) in
      match v with
      | Some initValue => CreateStore initValue (GlobalVariableV (giTarget init))
      | None => cerrLine "Warning: Failed to generate initializer for global variable"
      end ;;
      clearTempMemory ;;
      initializeGlobals rest
  end.

(** The routine that runs the deferred global initializers.  Its entry in
    [llvm.global_ctors] (priority 65535) is recorded as a global of that
    name; the constant it holds is not spelled out. *)
Definition createGlobalConstructor : CG unit :=
  let* inits := gets (fun s => globalInitializers (ctl s)) in
  match inits with
  | [] => ret tt
  | _ =>
      let* ctor := Function_Create (mkFunctionType VoidTy [] false) "__global_init" in
      let* entryBB := BasicBlock_Create "entry" (Some ctor) in
      SetInsertPoint entryBB ;;
      let* savedFunction := gets (fun s => currentFunction (ctl s)) in
      modify (set_currentFunction (Some ctor)) ;;
      initializeGlobals inits ;;
      modify (set_currentFunction savedFunction) ;;
      CreateRetVoid ;;
      let ctorArrayType := ArrayTy PointerTy 1 in
      GlobalVariable_new ctorArrayType false (ConstantAggregateZero ctorArrayType)
        "llvm.global_ctors" ;;
      ret tt
  end.

Definition generate (depth : nat) (root : option ProgramNode) : CG bool :=
  match root with
  | None => ret false
  | Some r =>
      codegenStatements (codegenStmt depth) (statements r) ;;
      createGlobalConstructor ;;
      let* s := get in
      if hasErrors s then
        cerrLine (NL +:+ "LLVM IR generation failed with " +:+ pretty (errorCount (diag s))
                  +:+ " error(s)"
                  +:+ (if bool_decide (0 < warningCount (diag s))%Z
                       then " and " +:+ pretty (warningCount (diag s)) +:+ " warning(s)"
                       else "")) ;;
        ret false
      else
        (if bool_decide (0 < warningCount (diag s))%Z
         then cerrLine ("LLVM IR generated with " +:+ pretty (warningCount (diag s))
                        +:+ " warning(s)")
         else ret tt) ;;
        if verifyModule (ir s) then
          cerrLine "Module verification failed:" ;;
          ret false
        else ret true
  end.

End Driver.

(** ** The constructor *)

Definition declareFunction (name : string) (retTy : llvmType) (params : list llvmType)
    (varArg : bool) : CG unit :=
  Function_Create (mkFunctionType retTy params varArg) name ;; ret tt.

Definition declareExceptionHandlingFunctions : CG unit :=
  declareFunction "setjmp" i32 [PointerTy] false ;;
  declareFunction "longjmp" VoidTy [PointerTy; i32] false.

Definition declareBuiltinFunctions : CG unit :=
  declareFunction "printf" i32 [PointerTy] true ;;
  declareFunction "strlen" i64 [PointerTy] false ;;
  declareFunction "malloc" PointerTy [i64] false ;;
  declareFunction "strcpy" PointerTy [PointerTy; PointerTy] false ;;
  declareFunction "strcat" PointerTy [PointerTy; PointerTy] false ;;
  declareFunction "scanf" i32 [PointerTy] true ;;
  declareFunction "getchar" i32 [] false ;;
  declareFunction "atoi" i32 [PointerTy] false ;;
  declareFunction "atof" DoubleTy [PointerTy] false ;;
  declareFunction "sprintf" i32 [PointerTy; PointerTy] true ;;
  declareFunction "exit" VoidTy [i32] false ;;
  declareFunction "free" VoidTy [PointerTy] false ;;
  declareExceptionHandlingFunctions.

Definition emptyGenerator (cwd : string) : CodeGenerator :=
  mkCodeGenerator
    (mkIRState ∅ ∅ ∅ ∅ ∅ 0 None)
    (mkDiagnostics 0 0 [])
    (mkSymbolTables ∅ ∅ ∅ ∅)
    (mkControlContext None [] [])
    (mkMemoryTracker [] ∅)
    (mkModuleRegistry ∅ ∅ ∅ ∅ cwd "").

(** [CodeGenerator::CodeGenerator]; [cwd] is what [getcwd] answers. *)
Definition newCodeGenerator (cwd : string) : CodeGenerator :=
  match declareBuiltinFunctions (emptyGenerator cwd) with
  | Done _ s => s
  | Abort _ => emptyGenerator cwd
  end.

Definition setSourceDirectory (dir : string) (s : CodeGenerator) : CodeGenerator :=
  set_mods (mkModuleRegistry (loadedModules (mods s)) (moduleAliases (mods s))
              (moduleFunctions (mods s)) (moduleGlobals (mods s))
              (currentDirectory (mods s)) dir) s.

(** * What the emitted code does: a semantics of the IR fragment *)

(** Memory is a collection of regions (one per global variable, one per
    [alloca] or [malloc]); a pointer is a region and a byte offset.  A region
    stores typed values at the offsets they were written to. *)
Definition Region : Type := nat + nat.   (* global variable | allocation *)

Inductive Pointer : Type :=
| PtrNull
| PtrString (id : nat) (offset : Z)
| PtrMem (region : Region) (offset : Z).

Inductive RtValue : Type :=
| RInt (bits : N) (v : Z)          (* unsigned representative *)
| RDouble (d : spec_float)
| RPtr (p : Pointer).

#[global] Instance Pointer_eq_dec : EqDecision Pointer.
Proof. solve_decision. Defined.
#[global] Instance RtValue_eq_dec : EqDecision RtValue.
Proof. solve_decision. Defined.

Record MemRegion := mkMemRegion {
  regionSize : Z;
  regionCells : gmap Z RtValue;
  regionLive : bool
}.

Inductive Event : Type :=
| EvPrintf (format : string) (args : list RtValue)
| EvLoad (p : Pointer) (t : llvmType)
| EvStore (p : Pointer) (v : RtValue)
| EvFree (p : Pointer).

Record Machine := mkMachine {
  mBlock : nat;                 (* the block being executed *)
  mPrev : option nat;           (* the block control came from *)
  mPc : nat;                    (* the next instruction of the block *)
  mRegs : gmap nat RtValue;     (* the values of the instructions executed *)
  mArgs : list RtValue;
  mMemory : gmap Region MemRegion;
  mNextRegion : nat;
  mEvents : list Event          (* oldest first *)
}.

Inductive Fault : Type :=
| DivisionByZero
| SignedOverflow
| OutOfBounds (p : Pointer) (t : llvmType)
| UseAfterFree (p : Pointer)
| ReachedUnreachable.

Inductive Outcome : Type :=
| Running (m : Machine)
| Returned (v : option RtValue) (m : Machine)
| Exited (code : Z) (m : Machine)
| Faulted (f : Fault) (m : Machine)      (* undefined behaviour: a crash *)
| Unmodelled (why : string) (m : Machine).

Definition signed (bits : N) (v : Z) : Z :=
  if (v <? 2 ^ (Z.of_N bits - 1))%Z then v else (v - 2 ^ Z.of_N bits)%Z.
Definition wrap (bits : N) (z : Z) : Z := (z mod 2 ^ Z.of_N bits)%Z.

Fixpoint sizeOf (t : llvmType) : Z :=
  match t with
  | VoidTy => 0
  | IntegerTy b => (Z.of_N b + 7) / 8
  | DoubleTy => 8
  | PointerTy => 8
  | ArrayTy e n => Z.of_N n * sizeOf e
  end.

Definition evalValue (m : Machine) (v : Value) : option RtValue :=
  match v with
  | ConstantInt b z => Some (RInt b z)
  | ConstantFP d => Some (RDouble d)
  | ConstantPointerNull => Some (RPtr PtrNull)
  | ConstantAggregateZero _ => None
  | GlobalString id => Some (RPtr (PtrString id 0))
  | GlobalVariableV gv => Some (RPtr (PtrMem (inl (gvId gv)) 0))
  | ArgumentV _ i _ => mArgs m !! i
  | InstValue id _ => mRegs m !! id
  end.

Definition intOfZ (z : Z) : spec_float :=
  if bool_decide (z = 0)%Z then S754_zero false
  else binary_normalize prec emax z 0 false.

(** Truncation towards zero; [None] for NaN and the infinities. *)
Definition truncToZ (d : spec_float) : option Z :=
  match d with
  | S754_zero _ => Some 0%Z
  | S754_finite s m e =>
      let mag := if (0 <=? e)%Z then (Z.pos m * 2 ^ e)%Z
                 else (Z.pos m / 2 ^ (- e))%Z in
      Some (if s then (- mag)%Z else mag)
  | _ => None
  end.

(** C's [fmod], which is what [frem] computes. *)
Definition SFrem (x y : spec_float) : spec_float :=
  match x, y with
  | S754_nan, _ | _, S754_nan => S754_nan
  | S754_infinity _, _ => S754_nan
  | _, S754_zero _ => S754_nan
  | _, S754_infinity _ => x
  | S754_zero _, _ => x
  | S754_finite sx mx ex, S754_finite _ my ey =>
      let e := Z.min ex ey in
      let r := ((Z.pos mx * 2 ^ (ex - e)) mod (Z.pos my * 2 ^ (ey - e)))%Z in
      if bool_decide (r = 0)%Z then S754_zero sx
      else binary_normalize prec emax (if sx then (- r)%Z else r) e false
  end.

Definition evalBinOp (op : BinOp) (a b : RtValue) : option RtValue + Fault :=
  match op, a, b with
  | Add, RInt w x, RInt _ y => inl (Some (RInt w (wrap w (x + y))))
  | Sub, RInt w x, RInt _ y => inl (Some (RInt w (wrap w (x - y))))
  | Mul, RInt w x, RInt _ y => inl (Some (RInt w (wrap w (x * y))))
  | Or, RInt w x, RInt _ y => inl (Some (RInt w (Z.lor x y)))
  | Xor, RInt w x, RInt _ y => inl (Some (RInt w (Z.lxor x y)))
  | SDiv, RInt w x, RInt _ y =>
      if bool_decide (y = 0)%Z then inr DivisionByZero
      else if bool_decide (signed w x = - 2 ^ (Z.of_N w - 1) ∧ signed w y = -1)%Z
      then inr SignedOverflow
      else inl (Some (RInt w (wrap w (Z.quot (signed w x) (signed w y)))))
  | SRem, RInt w x, RInt _ y =>
      if bool_decide (y = 0)%Z then inr DivisionByZero
      else if bool_decide (signed w x = - 2 ^ (Z.of_N w - 1) ∧ signed w y = -1)%Z
      then inr SignedOverflow
      else inl (Some (RInt w (wrap w (Z.rem (signed w x) (signed w y)))))
  | FAdd, RDouble x, RDouble y => inl (Some (RDouble (SFadd prec emax x y)))
  | FSub, RDouble x, RDouble y => inl (Some (RDouble (SFsub prec emax x y)))
  | FMul, RDouble x, RDouble y => inl (Some (RDouble (SFmul prec emax x y)))
  | FDiv, RDouble x, RDouble y => inl (Some (RDouble (SFdiv prec emax x y)))
  | FRem, RDouble x, RDouble y => inl (Some (RDouble (SFrem x y)))
  | _, _, _ => inl None
  end.

Definition evalICmp (p : ICmpPred) (a b : RtValue) : option RtValue :=
  match a, b with
  | RInt w x, RInt _ y =>
      let r := match p with
               | ICMP_EQ => bool_decide (x = y)
               | ICMP_NE => negb (bool_decide (x = y))
               | ICMP_SLT => (signed w x <? signed w y)%Z
               | ICMP_SGT => (signed w y <? signed w x)%Z
               | ICMP_SLE => (signed w x <=? signed w y)%Z
               | ICMP_SGE => (signed w y <=? signed w x)%Z
               end in
      Some (RInt 1 (if r then 1 else 0))
  | _, _ => None
  end.

(** The ordered comparisons: false as soon as an operand is NaN. *)
Definition evalFCmp (p : FCmpPred) (a b : RtValue) : option RtValue :=
  match a, b with
  | RDouble x, RDouble y =>
      let c := SFcompare x y in
      let r := match p, c with
               | FCMP_OEQ, Some Eq => true
               | FCMP_ONE, Some Lt | FCMP_ONE, Some Gt => true
               | FCMP_OLT, Some Lt => true
               | FCMP_OGT, Some Gt => true
               | FCMP_OLE, Some Lt | FCMP_OLE, Some Eq => true
               | FCMP_OGE, Some Gt | FCMP_OGE, Some Eq => true
               | _, _ => false
               end in
      Some (RInt 1 (if r then 1 else 0))
  | _, _ => None
  end.

Definition evalCast (op : CastOp) (a : RtValue) (dest : llvmType) : option RtValue :=
  match op, a, dest with
  | ZExt, RInt _ x, IntegerTy w => Some (RInt w x)
  | SExt, RInt v x, IntegerTy w => Some (RInt w (wrap w (signed v x)))
  | Trunc, RInt _ x, IntegerTy w => Some (RInt w (wrap w x))
  | BitCast, RPtr p, PointerTy => Some (RPtr p)
  | SIToFP, RInt v x, DoubleTy => Some (RDouble (intOfZ (signed v x)))
  | UIToFP, RInt _ x, DoubleTy => Some (RDouble (intOfZ x))
  | FPToSI, RDouble d, IntegerTy w =>
      match truncToZ d with
      | Some z =>
          if bool_decide (- 2 ^ (Z.of_N w - 1) <= z < 2 ^ (Z.of_N w - 1))%Z
          then Some (RInt w (wrap w z)) else None
      | None => None
      end
  | _, _, _ => None
  end.

(** The byte offset a GEP adds: the first index steps over whole objects
    of the source type, the following ones into nested arrays. *)
Fixpoint gepOffset (t : llvmType) (first : bool) (indices : list RtValue) : option Z :=
  match indices with
  | [] => Some 0%Z
  | RInt w i :: rest =>
      if first then
        off ← gepOffset t false rest; Some (signed w i * sizeOf t + off)%Z
      else
        match t with
        | ArrayTy e _ => off ← gepOffset e false rest; Some (signed w i * sizeOf e + off)%Z
        | _ => None
        end
  | _ => None
  end.

Definition stringBytes (s : string) : list Z :=
  map (fun c => Z.of_nat (nat_of_ascii c)) (list_ascii_of_string s) ++ [0%Z].

Fixpoint strlenBytes (bytes : list Z) : option Z :=
  match bytes with
  | [] => None
  | b :: rest => if bool_decide (b = 0)%Z then Some 0%Z
                 else n ← strlenBytes rest; Some (1 + n)%Z
  end.

(** The bytes of a region from an offset on, as long as they are [i8]
    cells inside the region. *)
Fixpoint regionBytes (fuel : nat) (r : MemRegion) (off : Z) : list Z :=
  match fuel with
  | O => []
  | S n =>
      if bool_decide (0 <= off < regionSize r)%Z then
        match regionCells r !! off with
        | Some (RInt 8 b) => b :: regionBytes n r (off + 1)
        | _ => []
        end
      else []
  end.

Definition setReg (id : nat) (v : RtValue) (m : Machine) : Machine :=
  mkMachine (mBlock m) (mPrev m) (mPc m) (<[id := v]> (mRegs m)) (mArgs m)
            (mMemory m) (mNextRegion m) (mEvents m).
Definition addEvent (e : Event) (m : Machine) : Machine :=
  mkMachine (mBlock m) (mPrev m) (mPc m) (mRegs m) (mArgs m)
            (mMemory m) (mNextRegion m) (mEvents m ++ [e]).
Definition setMemory (mem' : gmap Region MemRegion) (m : Machine) : Machine :=
  mkMachine (mBlock m) (mPrev m) (mPc m) (mRegs m) (mArgs m)
            mem' (mNextRegion m) (mEvents m).
Definition nextPc (m : Machine) : Machine :=
  mkMachine (mBlock m) (mPrev m) (S (mPc m)) (mRegs m) (mArgs m)
            (mMemory m) (mNextRegion m) (mEvents m).
Definition jumpTo (dest : nat) (m : Machine) : Machine :=
  mkMachine dest (Some (mBlock m)) 0 (mRegs m) (mArgs m)
            (mMemory m) (mNextRegion m) (mEvents m).
Definition allocate (size : Z) (m : Machine) : Machine * Pointer :=
  (mkMachine (mBlock m) (mPrev m) (mPc m) (mRegs m) (mArgs m)
             (<[inr (mNextRegion m) := mkMemRegion size ∅ true]> (mMemory m))
             (S (mNextRegion m)) (mEvents m),
   PtrMem (inr (mNextRegion m)) 0).

(** A load: the address has to lie inside a live region. *)
Definition loadFrom (ir : IRState) (m : Machine) (p : Pointer) (t : llvmType)
    : option RtValue + Fault :=
  match p with
  | PtrNull => inr (OutOfBounds p t)
  | PtrString id off =>
      match irStrings ir !! id with
      | Some s =>
          if bool_decide (0 <= off ∧ off + sizeOf t <= Z.of_nat (String.length s) + 1)%Z then
            match t with
            | IntegerTy 8 => inl (RInt 8 <$> stringBytes s !! Z.to_nat off)
            | _ => inl None
            end
          else inr (OutOfBounds p t)
      | None => inr (OutOfBounds p t)
      end
  | PtrMem r off =>
      match mMemory m !! r with
      | Some region =>
          if negb (regionLive region) then inr (UseAfterFree p)
          else if bool_decide (0 <= off ∧ off + sizeOf t <= regionSize region)%Z then
            inl (regionCells region !! off)
          else inr (OutOfBounds p t)
      | None => inr (OutOfBounds p t)
      end
  end.

Definition storeTo (m : Machine) (p : Pointer) (t : llvmType) (v : RtValue)
    : Machine + Fault :=
  match p with
  | PtrMem r off =>
      match mMemory m !! r with
      | Some region =>
          if negb (regionLive region) then inr (UseAfterFree p)
          else if bool_decide (0 <= off ∧ off + sizeOf t <= regionSize region)%Z then
            inl (setMemory (<[r := mkMemRegion (regionSize region)
                                     (<[off := v]> (regionCells region)) true]> (mMemory m)) m)
          else inr (OutOfBounds p t)
      | None => inr (OutOfBounds p t)
      end
  | _ => inr (OutOfBounds p t)
  end.

Definition rtType (v : RtValue) : llvmType :=
  match v with
  | RInt b _ => IntegerTy b
  | RDouble _ => DoubleTy
  | RPtr _ => PointerTy
  end.

(** The bytes of the C string at an address, its terminator included. *)
Definition cStringAt (ir : IRState) (m : Machine) (p : Pointer) : option (list Z) :=
  match p with
  | PtrNull => None
  | PtrString sid off =>
      s ← irStrings ir !! sid;
      let bytes := drop (Z.to_nat off) (stringBytes s) in
      n ← strlenBytes bytes;
      if bool_decide (0 <= off)%Z then Some (take (S (Z.to_nat n)) bytes) else None
  | PtrMem r off =>
      region ← mMemory m !! r;
      let bytes := regionBytes (Z.to_nat (regionSize region)) region off in
      n ← strlenBytes bytes;
      if regionLive region then Some (take (S (Z.to_nat n)) bytes) else None
  end.

Fixpoint writeBytes (cells : gmap Z RtValue) (off : Z) (bytes : list Z) : gmap Z RtValue :=
  match bytes with
  | [] => cells
  | b :: rest => writeBytes (<[off := RInt 8 b]> cells) (off + 1) rest
  end.

(** [bytes] written at [dst + skip], as [strcpy] ([skip = 0]) and [strcat]
    ([skip] the length of the string at [dst]) do; the call gives [dst]. *)
Definition copyString (id : nat) (r : Region) (off skip : Z) (bytes : list Z)
    (m : Machine) : Outcome :=
  match mMemory m !! r with
  | Some region =>
      if negb (regionLive region) then Faulted (UseAfterFree (PtrMem r off)) m
      else if bool_decide (0 <= off ∧ off + skip + Z.of_nat (List.length bytes)
                                      <= regionSize region)%Z then
        Running (nextPc (setReg id (RPtr (PtrMem r off))
          (setMemory (<[r := mkMemRegion (regionSize region)
                                (writeBytes (regionCells region) (off + skip) bytes) true]>
                        (mMemory m)) m)))
      else Faulted (OutOfBounds (PtrMem r (off + skip)) i8) m
  | None => Faulted (OutOfBounds (PtrMem r off) i8) m
  end.

(** The library functions the emitted code calls. *)
Definition callExternal (ir : IRState) (id : nat) (callee : Function)
    (args : list RtValue) (m : Machine) : Outcome :=
  if streq (fnName callee) "printf" then
    match args with
    | RPtr (PtrString sid 0) :: rest =>
        match irStrings ir !! sid with
        | Some format => Running (nextPc (addEvent (EvPrintf format rest) m))
        | None => Unmodelled "printf: unknown format string" m
        end
    | _ => Unmodelled "printf: the format is not a string constant" m
    end
  else if streq (fnName callee) "exit" then
    match args with
    | [RInt _ code] => Exited code m
    | _ => Unmodelled "exit: bad arguments" m
    end
  else if streq (fnName callee) "strlen" then
    match args with
    | [RPtr (PtrString sid off)] =>
        match irStrings ir !! sid with
        | Some s =>
            match strlenBytes (drop (Z.to_nat off) (stringBytes s)) with
            | Some n =>
                if bool_decide (0 <= off)%Z then Running (nextPc (setReg id (RInt 64 n) m))
                else Faulted (OutOfBounds (PtrString sid off) i8) m
            | None => Faulted (OutOfBounds (PtrString sid off) i8) m
            end
        | None => Faulted (OutOfBounds (PtrString sid off) i8) m
        end
    | [RPtr (PtrMem r off)] =>
        match mMemory m !! r with
        | Some region =>
            match strlenBytes (regionBytes (Z.to_nat (regionSize region)) region off) with
            | Some n => Running (nextPc (setReg id (RInt 64 n) m))
            | None => Unmodelled "strlen: no terminated byte string at the address" m
            end
        | None => Faulted (OutOfBounds (PtrMem r off) i8) m
        end
    | _ => Unmodelled "strlen: bad arguments" m
    end
  else if streq (fnName callee) "malloc" then
    match args with
    | [RInt _ size] =>
        let '(m', p) := allocate size m in
        Running (nextPc (setReg id (RPtr p) m'))
    | _ => Unmodelled "malloc: bad arguments" m
    end
  else if streq (fnName callee) "free" then
    match args with
    | [RPtr (PtrMem r 0)] =>
        match mMemory m !! r with
        | Some region =>
            if regionLive region then
              Running (nextPc (addEvent (EvFree (PtrMem r 0))
                (setMemory (<[r := mkMemRegion (regionSize region) (regionCells region) false]>
                              (mMemory m)) m)))
            else Faulted (UseAfterFree (PtrMem r 0)) m
        | None => Faulted (OutOfBounds (PtrMem r 0) i8) m
        end
    | [RPtr PtrNull] => Running (nextPc m)
    | _ => Unmodelled "free: bad arguments" m
    end
  else if streq (fnName callee) "strcpy" then
    match args with
    | [RPtr (PtrMem r off); RPtr src] =>
        match cStringAt ir m src with
        | Some bytes => copyString id r off 0 bytes m
        | None => Unmodelled "strcpy: no terminated byte string at the source" m
        end
    | _ => Unmodelled "strcpy: bad arguments" m
    end
  else if streq (fnName callee) "strcat" then
    match args with
    | [RPtr (PtrMem r off); RPtr src] =>
        match cStringAt ir m (PtrMem r off), cStringAt ir m src with
        | Some old, Some bytes =>
            copyString id r off (Z.of_nat (List.length old) - 1) bytes m
        | _, _ => Unmodelled "strcat: no terminated byte string at an argument" m
        end
    | _ => Unmodelled "strcat: bad arguments" m
    end
  else Unmodelled "call of a function outside the modelled library" m.

(** The value a PHI node takes when control comes from [prev]. *)
Fixpoint phiIncoming (prev : nat) (incoming : list (Value * nat)) : option Value :=
  match incoming with
  | [] => None
  | (v, from) :: rest => if decide (from = prev) then Some v else phiIncoming prev rest
  end.

(** One instruction. *)
Definition execInst (ir : IRState) (i : Instruction) (m : Machine) : Outcome :=
  let bindReg (r : option RtValue) :=
    match r with
    | Some v => Running (nextPc (setReg (instId i) v m))
    | None => Unmodelled "operand outside the modelled fragment" m
    end in
  match instOp i with
  | OpBinary op l r =>
      match evalValue m l, evalValue m r with
      | Some a, Some b =>
          match evalBinOp op a b with
          | inl res => bindReg res
          | inr f => Faulted f m
          end
      | _, _ => Unmodelled "operand without value" m
      end
  | OpFNeg v =>
      bindReg (match evalValue m v with
               | Some (RDouble d) => Some (RDouble (SFopp d))
               | _ => None
               end)
  | OpICmp p l r =>
      bindReg (a ← evalValue m l; b ← evalValue m r; evalICmp p a b)
  | OpFCmp p l r =>
      bindReg (a ← evalValue m l; b ← evalValue m r; evalFCmp p a b)
  | OpCast op v dest =>
      bindReg (a ← evalValue m v; evalCast op a dest)
  | OpSelect c t f =>
      bindReg (match evalValue m c with
               | Some (RInt _ b) => if bool_decide (b = 0)%Z then evalValue m f
                                    else evalValue m t
               | _ => None
               end)
  | OpCall callee args =>
      match mapM (evalValue m) args with
      | Some vs => callExternal ir (instId i) callee vs m
      | None => Unmodelled "argument without value" m
      end
  | OpAlloca t =>
      let '(m', p) := allocate (sizeOf t) m in
      Running (nextPc (setReg (instId i) (RPtr p) m'))
  | OpLoad t ptr =>
      match evalValue m ptr with
      | Some (RPtr p) =>
          match loadFrom ir m p t with
          | inl (Some v) =>
              if bool_decide (rtType v = t)
              then Running (nextPc (setReg (instId i) v (addEvent (EvLoad p t) m)))
              else Unmodelled "load of a value of another type" m
          | inl None => Unmodelled "load of an address never written" m
          | inr f => Faulted f (addEvent (EvLoad p t) m)
          end
      | _ => Unmodelled "load through a non-pointer" m
      end
  | OpStore v ptr =>
      match evalValue m v, evalValue m ptr with
      | Some a, Some (RPtr p) =>
          match storeTo m p (rtType a) a with
          | inl m' => Running (nextPc (addEvent (EvStore p a) m'))
          | inr f => Faulted f (addEvent (EvStore p a) m)
          end
      | _, _ => Unmodelled "store without value or pointer" m
      end
  | OpGEP t ptr indices =>
      bindReg (match evalValue m ptr, mapM (evalValue m) indices with
               | Some (RPtr (PtrMem r off)), Some idx =>
                   d ← gepOffset t true idx; Some (RPtr (PtrMem r (off + d)))
               | Some (RPtr (PtrString sid off)), Some idx =>
                   d ← gepOffset t true idx; Some (RPtr (PtrString sid (off + d)))
               | _, _ => None
               end)
  | OpPHI _ incoming =>
      bindReg (prev ← mPrev m; v ← phiIncoming prev incoming; evalValue m v)
  | OpBr dest => Running (jumpTo dest m)
  | OpCondBr c ifTrue ifFalse =>
      match evalValue m c with
      | Some (RInt _ b) =>
          Running (jumpTo (if bool_decide (b = 0)%Z then ifFalse else ifTrue) m)
      | _ => Unmodelled "branch on a non-integer" m
      end
  | OpRet v =>
      match v with
      | None => Returned None m
      | Some rv =>
          match evalValue m rv with
          | Some a => Returned (Some a) m
          | None => Unmodelled "return without value" m
          end
      end
  | OpUnreachable => Faulted ReachedUnreachable m
  end.

Definition step (ir : IRState) (m : Machine) : Outcome :=
  match irBlocks ir !! mBlock m with
  | Some bb =>
      match bbInsts bb !! mPc m with
      | Some i => execInst ir i m
      | None => Unmodelled "control fell off the end of a block" m
      end
  | None => Unmodelled "branch to a block that does not exist" m
  end.

(** [n] steps, or fewer when the machine stops before. *)
Fixpoint steps (n : nat) (ir : IRState) (m : Machine) : Outcome :=
  match n with
  | O => Running m
  | S k =>
      match step ir m with
      | Running m' => steps k ir m'
      | o => o
      end
  end.

(** * Properties of the lowering engine *)

(** ** Vocabulary *)

(** The builder is positioned at the end of block [b], whose contents are
    [bb]; block handles in use are below the next fresh handle. *)
Record BuilderAt (s : CodeGenerator) (b : nat) (bb : BasicBlock) : Prop := mkBuilderAt {
  at_insert : irInsertBlock (ir s) = Some b;
  at_block : irBlocks (ir s) !! b = Some bb;
  at_fresh : b < irNextId (ir s)
}.

(** [name] is declared in the LLVM module as the function [f]. *)
Definition declared (s : CodeGenerator) (name : string) (f : Function) : Prop :=
  irSymbols (ir s) !! name = Some (Some f) /\ fnName f = name.

(** The machine is about to execute what comes after the last instruction
    of [bb], the contents of block [b] at some moment of the lowering. *)
Definition atEndOf (m : Machine) (b : nat) (bb : BasicBlock) : Prop :=
  mBlock m = b /\ mPc m = List.length (bbInsts bb).

(** The state a computation leaves behind. *)
Definition stateAfter {A} (c : CG A) (s : CodeGenerator) : CodeGenerator :=
  match c s with Done _ s' => s' | Abort _ => s end.

(** A generator in the middle of lowering a function [name]: the function
    exists, its entry block is empty and the builder is positioned in it. *)
Definition enterFunction (name : string) : CG unit :=
  let* f := Function_Create (mkFunctionType i32 [] false) name in
  let* entry := BasicBlock_Create "entry" (Some f) in
  SetInsertPoint entry.
Definition insideMain : CodeGenerator :=
  stateAfter (enterFunction "main") (newCodeGenerator "/").

(** A machine with no registers, arguments, memory or events. *)
Definition machineAt (b pc : nat) : Machine := mkMachine b None pc ∅ [] ∅ 0 [].

(** The two divisions by zero: operator, operand type, the divisor's value,
    the value of the expression, the diagnostic. *)
Inductive GuardedDivision : string -> llvmType -> RtValue -> RtValue -> string -> Prop :=
  | IntegerDivisionByZero :
      GuardedDivision "//" i32 (RInt 32 0) (RInt 32 0)
        ("Runtime Error: Integer division by zero" +:+ NL)
  | FloatDivisionByZero sgn :
      GuardedDivision "/" DoubleTy (RDouble (S754_zero sgn)) (RDouble fnan)
        ("Runtime Error: Division by zero" +:+ NL).

(** Whole programs: no module file exists, LLVM's verifier finds nothing
    wrong ([llvm::verifyModule] answers [false]), imports may nest once. *)
Definition noFile (_ : string) : bool := false.
Definition noParse (_ : string) : ParseOutcome := CannotOpen.
Definition verifierAccepts (_ : IRState) : bool := false.
Definition compile (p : ProgramNode) : Result bool :=
  generate noFile noParse verifierAccepts 1 (Some p) (newCodeGenerator "/").

Definition tInt : TypeNode := mkTypeNode "int" [].

(** [func main(): int { break  return 0 }] *)
Definition breakOutsideLoop : ProgramNode :=
  mkProgramNode
    [FunctionDeclNode "main" [] (Some tInt)
       (Some [BreakStmtNode; ReturnStmtNode (Some (IntLiteralNode 0))])].

(** [func main(): int { continue  return 0 }] *)
Definition continueOutsideLoop : ProgramNode :=
  mkProgramNode
    [FunctionDeclNode "main" [] (Some tInt)
       (Some [ContinueStmtNode; ReturnStmtNode (Some (IntLiteralNode 0))])].

(** [func f(): int { }  func main(): int { return f() }] *)
Definition fallsOffTheEnd : ProgramNode :=
  mkProgramNode
    [FunctionDeclNode "f" [] (Some tInt) (Some []);
     FunctionDeclNode "main" [] (Some tInt)
       (Some [ReturnStmtNode (Some (FunctionCallNode "f" [] None))])].

(** The instruction that ends a function left without [return]. *)
Definition defaultReturn (retType : llvmType) : InstOp :=
  if isVoidTy retType then OpRet None else OpRet (Some (getNullValue retType)).

(** The code of a divisor check as the generator lays it out: block [b]
    ends with the comparison [test] and a conditional branch; the error
    block prints [msg] and branches to the block [mergeBB], whose only
    instruction so far is a PHI node, the value [v], that takes [dflt] when
    control comes from the error block. *)
Definition ZeroGuard (irs : IRState) (b : nat) (bb : BasicBlock) (printfFn : Function)
    (test : InstOp) (msg : string) (dflt : Value)
    (mergeBB : nat) (merge : BasicBlock) (v : Value) : Prop :=
  exists isZero testName condbr errorBB computeBB errorName fmt call br
         mergeName phi phiName phiTy resultV,
    irBlocks irs !! b =
      Some (mkBasicBlock (bbName bb) (bbParent bb)
              (bbInsts bb ++
               [mkInstruction isZero testName test;
                mkInstruction condbr ""
                  (OpCondBr (InstValue isZero i1) errorBB computeBB)])) /\
    irBlocks irs !! errorBB =
      Some (mkBasicBlock errorName (bbParent bb)
              [mkInstruction call "" (OpCall printfFn [GlobalString fmt]);
               mkInstruction br "" (OpBr mergeBB)]) /\
    irStrings irs !! fmt = Some msg /\
    irBlocks irs !! mergeBB = Some merge /\
    merge = mkBasicBlock mergeName (bbParent bb)
              [mkInstruction phi phiName
                 (OpPHI phiTy [(dflt, errorBB); (resultV, computeBB)])] /\
    v = InstValue phi phiTy.

(** The comparison [test] finds the divisor to be zero. *)
Definition testHolds (m : Machine) (test : InstOp) : Prop :=
  match test with
  | OpICmp p l r =>
      (a ← evalValue m l; b ← evalValue m r; evalICmp p a b) = Some (RInt 1 1)
  | OpFCmp p l r =>
      (a ← evalValue m l; b ← evalValue m r; evalFCmp p a b) = Some (RInt 1 1)
  | _ => False
  end.

(** The divisor check of [//=]: the error block prints [msg], calls
    [exit(1)] and ends in [unreachable]. *)
Definition ExitGuard (irs : IRState) (b : nat) (bb : BasicBlock) (printfFn exitFn : Function)
    (test : InstOp) (msg : string) : Prop :=
  exists isZero testName condbr errorBB computeBB errorName fmt call exitCall unreachable,
    irBlocks irs !! b =
      Some (mkBasicBlock (bbName bb) (bbParent bb)
              (bbInsts bb ++
               [mkInstruction isZero testName test;
                mkInstruction condbr ""
                  (OpCondBr (InstValue isZero i1) errorBB computeBB)])) /\
    irBlocks irs !! errorBB =
      Some (mkBasicBlock errorName (bbParent bb)
              [mkInstruction call "" (OpCall printfFn [GlobalString fmt]);
               mkInstruction exitCall "" (OpCall exitFn [ConstantInt 32 1]);
               mkInstruction unreachable "" OpUnreachable]) /\
    irStrings irs !! fmt = Some msg.

(** What a guarded compound assignment does on a zero divisor. *)
Inductive GuardBehaviour : Type :=
| Continues (default : RtValue)   (* the value that takes the quotient's place *)
| Terminates (code : Z).          (* the program ends with this exit status *)

(** The guarded compound operators on a variable: operator, type of the
    variable and of the right side, the zero divisor, what happens, the
    diagnostic. *)
Inductive CompoundByZero : string -> llvmType -> RtValue -> GuardBehaviour -> string -> Prop :=
  | DivAssignInt :
      CompoundByZero "/=" i32 (RInt 32 0) (Continues (RInt 32 0))
        ("Runtime Error: Division by zero in /= operator" +:+ NL)
  | DivAssignFloat sgn :
      CompoundByZero "/=" DoubleTy (RDouble (S754_zero sgn)) (Continues (RDouble fnan))
        ("Runtime Error: Division by zero in /= operator" +:+ NL)
  | ModAssignInt :
      CompoundByZero "%=" i32 (RInt 32 0) (Continues (RInt 32 0))
        ("Runtime Error: Modulo by zero in %= operator" +:+ NL)
  | ModAssignFloat sgn :
      CompoundByZero "%=" DoubleTy (RDouble (S754_zero sgn)) (Continues (RDouble fnan))
        ("Runtime Error: Modulo by zero in %= operator" +:+ NL)
  | FloorDivAssignInt :
      CompoundByZero "//=" i32 (RInt 32 0) (Terminates 1)
        ("Runtime Error: Integer division by zero in //= operator" +:+ NL).

(** The entry block of a function of the module. *)
Definition entryBlock (irs : IRState) (name : string) : option nat :=
  f ← mjoin (irSymbols irs !! name);
  blocks ← irLayout irs !! fnId f;
  head blocks.

(** Compiles a program and runs [main] for at most [fuel] instructions. *)
Definition run (fuel : nat) (p : ProgramNode) : option Outcome :=
  match compile p with
  | Done true s =>
      b ← entryBlock (ir s) "main";
      Some (steps fuel (ir s) (machineAt b 0))
  | _ => None
  end.

(** What a finished run printed: the formats handed to [printf]. *)
Definition printed (o : Outcome) : list string :=
  let m := match o with
           | Running m | Returned _ m | Exited _ m | Faulted _ m | Unmodelled _ m => m
           end in
  omap (fun e => match e with EvPrintf f _ => Some f | _ => None end) (mEvents m).

(** [func main(): int { let x: int = 10  x op 0  print(x)  return 0 }] *)
Definition compoundByZero (op : string) : ProgramNode :=
  mkProgramNode
    [FunctionDeclNode "main" [] (Some tInt)
       (Some [VarDeclNode false "x" tInt (Some (IntLiteralNode 10));
              AssignmentNode (IdentifierNode "x" 3) op (IntLiteralNode 0);
              ExprStmtNode (FunctionCallNode "print" [IdentifierNode "x" 4] None);
              ReturnStmtNode (Some (IntLiteralNode 0))])].
Definition floorDivAssignByZero : ProgramNode := compoundByZero "//=".

(** [func main(): int { let arr: int[5]  let x: int = arr[i]  print(x)  return 0 }] *)
Definition tIntArray5 : TypeNode := mkTypeNode "int" [5%Z].
Definition arrayIndex (i : ExprNode) : ProgramNode :=
  mkProgramNode
    [FunctionDeclNode "main" [] (Some tInt)
       (Some [VarDeclNode false "arr" tIntArray5 None;
              VarDeclNode false "x" tInt
                (Some (ArrayAccessNode (IdentifierNode "arr" 3) i));
              ExprStmtNode (FunctionCallNode "print" [IdentifierNode "x" 4] None);
              ReturnStmtNode (Some (IntLiteralNode 0))])].

(** The instructions of the block called [name], when there is exactly one. *)
Definition blockNamed (irs : IRState) (name : string) : option (list InstOp) :=
  match filter (fun kb => bbName kb.2 = name) (map_to_list (irBlocks irs)) with
  | [(_, bb)] => Some (map instOp (bbInsts bb))
  | _ => None
  end.

Definition tString : TypeNode := mkTypeNode "string" [].

(** [func main(): int {
       let s: string = "a" + "b"
       let i: int = 0
       while (i < 2) { s = s + "c"  i = i + 1 }
       return 0 }] *)
Definition reassignInLoop : ProgramNode :=
  mkProgramNode
    [FunctionDeclNode "main" [] (Some tInt)
       (Some [VarDeclNode false "s" tString
                (Some (BinaryOpNode "+" (StringLiteralNode "a") (StringLiteralNode "b")));
              VarDeclNode false "i" tInt (Some (IntLiteralNode 0));
              WhileStmtNode
                (BinaryOpNode "<" (IdentifierNode "i" 4) (IntLiteralNode 2))
                (BlockNode
                   [AssignmentNode (IdentifierNode "s" 5) "="
                      (BinaryOpNode "+" (IdentifierNode "s" 5) (StringLiteralNode "c"));
                    AssignmentNode (IdentifierNode "i" 6) "="
                      (BinaryOpNode "+" (IdentifierNode "i" 6) (IntLiteralNode 1))]);
              ReturnStmtNode (Some (IntLiteralNode 0))])].

(** A module file [m.ppx] holding [func helper(): int { return 1 }]. *)
Definition helperModule : ProgramNode :=
  mkProgramNode
    [FunctionDeclNode "helper" [] (Some tInt)
       (Some [ReturnStmtNode (Some (IntLiteralNode 1))])].
Definition moduleFileExists (path : string) : bool := streq path "m.ppx".
Definition parseModuleFile (path : string) : ParseOutcome :=
  if streq path "m.ppx" then Parsed helperModule else CannotOpen.
Definition lowerStmt : StmtNode -> CG unit :=
  codegenStmt moduleFileExists parseModuleFile 1.
Definition moduleLoaded : CodeGenerator :=
  stateAfter (loadModule lowerStmt moduleFileExists parseModuleFile "m")
             (newCodeGenerator "/").

(** Compiling with the module file [m.ppx] at hand. *)
Definition compileWithModule (p : ProgramNode) : Result bool :=
  generate moduleFileExists parseModuleFile verifierAccepts 1 (Some p)
           (newCodeGenerator "/").

(** [import m  func main(): int { return helper() }] *)
Definition unqualifiedCall : ProgramNode :=
  mkProgramNode
    [ImportNode "m" "";
     FunctionDeclNode "main" [] (Some tInt)
       (Some [ReturnStmtNode (Some (FunctionCallNode "helper" [] None))])].

(** [import m  func helper(): int { return 2 }  func main(): int { return helper() }] *)
Definition sameNameInImporter : ProgramNode :=
  mkProgramNode
    [ImportNode "m" "";
     FunctionDeclNode "helper" [] (Some tInt)
       (Some [ReturnStmtNode (Some (IntLiteralNode 2))]);
     FunctionDeclNode "main" [] (Some tInt)
       (Some [ReturnStmtNode (Some (FunctionCallNode "helper" [] None))])].

(** The instructions of the entry block of a function. *)
Definition entryCode (irs : IRState) (name : string) : option (list InstOp) :=
  b ← entryBlock irs name;
  bb ← irBlocks irs !! b;
  Some (map instOp (bbInsts bb)).

(** The function a module's namespace holds under a name. *)
Definition inNamespace (s : CodeGenerator) (moduleName name : string) : option Function :=
  (moduleFunctions (mods s) !! moduleName) ≫= (fun ns => ns !! name).
Definition helperDeclared : CodeGenerator :=
  stateAfter (loadModuleStatements lowerStmt "m" (statements helperModule))
             (newCodeGenerator "/").

(** Block [b] is the same in [s'] as in [s]. *)
Definition keepsBlock (s s' : CodeGenerator) (b : nat) : Prop :=
  irBlocks (ir s') !! b = irBlocks (ir s) !! b.

(** The operator and the truth value of the left side on which it skips
    the right side. *)
Definition logicalOperator (isAnd : bool) : string := if isAnd then "&&" else "||".
Definition shortCircuitValue (isAnd : bool) : Z := if isAnd then 0%Z else 1%Z.

(** The comparison [1 == 1]. *)
Definition oneIsOne : ExprNode := BinaryOpNode "==" (IntLiteralNode 1) (IntLiteralNode 1).
Definition mainFunction : Function := mkFunction 14 "main" (mkFunctionType i32 [] false).

(** The operations of a block, without the instructions' names. *)
Definition opsOf (bb : BasicBlock) : list InstOp := map instOp (bbInsts bb).

(** [s'] differs from [s] in the IR's blocks, strings and counter only. *)
Definition sameTables (s s' : CodeGenerator) : Prop :=
  diag s' = diag s /\ syms s' = syms s /\ ctl s' = ctl s /\ mem s' = mem s /\
  mods s' = mods s /\ irSymbols (ir s') = irSymbols (ir s).

(** Inside [main], the variable [s] owns the string [%3]; the strings [%5]
    and [%7] are temporaries. *)
Definition ownsAString : CodeGenerator :=
  set_ownedStringMemory {[ "s" := InstValue 3 PointerTy ]}
    (set_tempMemoryStack [InstValue 5 PointerTy; InstValue 7 PointerTy] insideMain).
Definition freeFunction : Function := mkFunction 11 "free" (mkFunctionType VoidTy [PointerTy] false).

(** Inside [main], within a loop nested in another: the innermost context
    continues at block 22 and breaks to block 23. *)
Definition insideLoop : CodeGenerator :=
  set_loopContextStack
    [mkLoopContext (Some 20) (Some 21); mkLoopContext (Some 22) (Some 23)] insideMain.

(** The value is a constant, an argument, or the result of an instruction
    emitted before the state [s]. *)
Definition definedBefore (v : Value) (s : CodeGenerator) : Prop :=
  match v with
  | InstValue id _ => id < irNextId (ir s)
  | _ => True
  end.

(** A machine at the entry of [main] whose register [%3] holds the address
    of a live 20-byte allocation, an [int[5]]. *)
Definition arrayMachine : Machine :=
  mkMachine 15 None 0 {[ 3 := RPtr (PtrMem (inr 0) 0) ]} []
            {[ inr 0 := mkMemRegion 20 ∅ true ]} 1 [].
Definition printfFunction : Function :=
  mkFunction 0 "printf" (mkFunctionType i32 [PointerTy] true).

(** The truth value of a number: different from zero (for a floating-point
    number: ordered and different from zero). *)
Definition truthValue (a : RtValue) : option bool :=
  match a with
  | RInt _ x => Some (negb (bool_decide (x = 0%Z)))
  | RDouble d => Some (match SFcompare d fzero with
                       | Some Lt | Some Gt => true
                       | _ => false
                       end)
  | RPtr _ => None
  end.

(** [0 && (1 == 1)], lowered step by step inside [main]. *)
Definition leftConverted : CodeGenerator :=
  stateAfter (toBoolCond (ConstantInt 32 0)) insideMain.
Definition branchEmitted : CodeGenerator :=
  stateAfter (logicalOpBranch true (ConstantInt 32 0)) insideMain.
Definition rightLowered : CodeGenerator :=
  stateAfter (codegenExpr oneIsOne) branchEmitted.

(** ** What lowering keeps *)

(** [s'] is a later state of the generator [s]: the function being lowered
    and the loop contexts are the same, diagnostics, names and loaded
    modules have only been added to. *)
Record Advances (s s' : CodeGenerator) : Prop := mkAdvances {
  adv_function : currentFunction (ctl s') = currentFunction (ctl s);
  adv_loops : loopContextStack (ctl s') = loopContextStack (ctl s);
  adv_errors : (errorCount (diag s) <= errorCount (diag s'))%Z;
  adv_warnings : warningCount (diag s') = warningCount (diag s);
  adv_cerr : cerr (diag s) `prefix_of` cerr (diag s');
  adv_ids : irNextId (ir s) <= irNextId (ir s');
  adv_symbols : irSymbols (ir s) ⊆ irSymbols (ir s');
  adv_inits : globalInitializers (ctl s) `prefix_of` globalInitializers (ctl s');
  adv_modules : loadedModules (mods s) ⊆ loadedModules (mods s');
  adv_cwd : currentDirectory (mods s') = currentDirectory (mods s);
  adv_srcdir : sourceDirectory (mods s') = sourceDirectory (mods s)
}.

(** A computation that, when it finishes, leaves a later state. *)
Definition advancing {A} (c : CG A) : Prop :=
  forall s a s', c s = Done a s' -> Advances s s'.

(** The same, but for the function and the loop contexts, which the
    computation may change. *)
Record Grows (s s' : CodeGenerator) : Prop := mkGrows {
  grow_errors : (errorCount (diag s) <= errorCount (diag s'))%Z;
  grow_warnings : warningCount (diag s') = warningCount (diag s);
  grow_cerr : cerr (diag s) `prefix_of` cerr (diag s');
  grow_ids : irNextId (ir s) <= irNextId (ir s');
  grow_symbols : irSymbols (ir s) ⊆ irSymbols (ir s');
  grow_inits : globalInitializers (ctl s) `prefix_of` globalInitializers (ctl s');
  grow_modules : loadedModules (mods s) ⊆ loadedModules (mods s');
  grow_cwd : currentDirectory (mods s') = currentDirectory (mods s);
  grow_srcdir : sourceDirectory (mods s') = sourceDirectory (mods s)
}.

(** The size of a tree. *)
Fixpoint esize (e : ExprNode) : nat :=
  match e with
  | BinaryOpNode _ l r => S (esize l + esize r)
  | UnaryOpNode _ o => S (esize o)
  | FunctionCallNode _ args obj =>
      S ((fix sizes (l : list ExprNode) : nat :=
            match l with [] => 0 | a :: rest => esize a + sizes rest end) args
         + match obj with Some o => esize o | None => 0 end)
  | ArrayAccessNode a i => S (esize a + esize i)
  | MemberAccessNode o _ => S (esize o)
  | _ => 1
  end.

Fixpoint ssize (n : StmtNode) : nat :=
  let sizes := fix sizes (l : list StmtNode) : nat :=
                 match l with [] => 0 | a :: rest => ssize a + sizes rest end in
  match n with
  | BlockNode stmts => S (sizes stmts)
  | IfStmtNode _ t e => S (ssize t + match e with Some e => ssize e | None => 0 end)
  | WhileStmtNode _ b => S (ssize b)
  | FunctionDeclNode _ _ _ body =>
      S (match body with Some stmts => sizes stmts | None => 0 end)
  | _ => 1
  end.

(** [while (true) { break }], lowered inside the nested loops of
    [insideLoop]. *)
Definition breakingLoop : StmtNode :=
  WhileStmtNode (BoolLiteralNode true) (BlockNode [BreakStmtNode]).
Definition loopLowered : CodeGenerator := stateAfter (lowerStmt breakingLoop) insideLoop.

(** [nowhere], a name that is not declared, used as a statement. *)
Definition useOfUndeclared : StmtNode := ExprStmtNode (IdentifierNode "nowhere" 7).
Definition undeclaredLowered : CodeGenerator :=
  stateAfter (lowerStmt useOfUndeclared) insideMain.

(** [func f(): int { return 1 }], lowered by a new generator. *)
Definition functionF : StmtNode :=
  FunctionDeclNode "f" [] (Some tInt) (Some [ReturnStmtNode (Some (IntLiteralNode 1))]).
Definition functionLowered : CodeGenerator :=
  stateAfter (lowerStmt functionF) (newCodeGenerator "/").

(** The types of numbers: the integers of every width ([bool] and [char]
    included) and [double]. *)
Definition isNumericTy (t : llvmType) : bool := isIntegerTy t || isDoubleTy t.

(** The names [codegenFunctionCall] answers itself, before it looks a
    function up in the module. *)
Definition builtinNames : list string :=
  ["print"; "input"; "len"; "to_int"; "to_double"; "to_string"; "free"].

(** The calls that are refused before any argument is lowered: what the
    module holds under the name, the number of arguments, the message. *)
Inductive CallRefused (name : string) : option Function -> nat -> string -> Prop :=
  | UnknownFunction n :
      CallRefused name None n ("Error: Unknown function '" +:+ name +:+ "'")
  | WrongArgumentCount f n :
      ftVarArg (fnType f) = false -> arg_size f <> n ->
      CallRefused name (Some f) n
        ("Error: Function '" +:+ name +:+ "' expects " +:+ pretty (arg_size f)
         +:+ " arguments but got " +:+ pretty n)
  | TooFewArguments f n :
      ftVarArg (fnType f) = true -> n < arg_size f ->
      CallRefused name (Some f) n
        ("Error: Variadic function '" +:+ name +:+ "' expects at least "
         +:+ pretty (arg_size f) +:+ " arguments but got " +:+ pretty n).

Definition strlenFunction : Function :=
  mkFunction 1 "strlen" (mkFunctionType i64 [PointerTy] false).

(** The path [findModuleFile] looks for: the module name with the
    extension [.ppx]. *)
Definition modulePathOf (moduleName : string) : string :=
  if endsWithPpx moduleName then moduleName else moduleName +:+ ".ppx".

(** The module a qualified name [object.member] refers to: what the alias
    table holds for [object], or [object] itself. *)
Definition moduleNamed (s : CodeGenerator) (object : string) : string :=
  default object (moduleAliases (mods s) !! object).

(** The generator after [import m as mm], inside [main]. *)
Definition aliasImported : CodeGenerator :=
  stateAfter (enterFunction "main")
    (stateAfter (codegenImport lowerStmt moduleFileExists parseModuleFile "m" "mm")
       (newCodeGenerator "/")).

(** The line [codegenIdentifier] writes for a name it does not find. *)
Definition undefinedVariableMessage (name : string) (line : Z) : string :=
  if bool_decide (0 < line)%Z
  then ANSI_RED +:+ "Error" +:+ ANSI_RESET +:+ " at line " +:+ pretty line
       +:+ ": Undefined variable '" +:+ name +:+ "'"
  else ANSI_RED +:+ "Error" +:+ ANSI_RESET +:+ ": Undefined variable '" +:+ name +:+ "'".

(** Inside [main], with a local variable [x] (an [int] in [%20]) and a
    global variable of the same name. *)
Definition globalX : GlobalVariable := mkGlobalVariable 30 "x" DoubleTy.
Definition shadowed : CodeGenerator :=
  set_globalValues {[ "x" := Some globalX ]}
    (set_namedValues {[ "x" := Some (mkAllocaInst 20 i32) ]} insideMain).

(** What the unary operators compute: [-] negates a number (an integer
    wraps around in its width), [!] complements every bit of an integer,
    which on a [bool] is the negation. *)
Definition unaryValue (op : string) (a : RtValue) : option RtValue :=
  match a with
  | RInt w x =>
      if streq op "-" then Some (RInt w (wrap w (- x)))
      else if streq op "!" then Some (RInt w (Z.lxor x (2 ^ Z.of_N w - 1)))
      else None
  | RDouble d => if streq op "-" then Some (RDouble (SFopp d)) else None
  | RPtr _ => None
  end.

(** A function returning [double], and the generator inside it: the
    builder is in its entry block. *)
Definition doubleFunction : CodeGenerator :=
  stateAfter
    (let* f := Function_Create (mkFunctionType DoubleTy [] false) "half" in
     let* entry := BasicBlock_Create "entry" (Some f) in
     SetInsertPoint entry ;;
     modify (set_currentFunction (Some f)))
    (newCodeGenerator "/").
Definition halfFunction : Function := mkFunction 14 "half" (mkFunctionType DoubleTy [] false).

(** A generator's state after compiling a program. *)
Definition lowered (p : ProgramNode) : CodeGenerator :=
  match compile p with Done _ s => s | Abort _ => newCodeGenerator "/" end.

(** Compiles a program and runs one of its functions on arguments, for at
    most [fuel] instructions. *)
Definition call (fuel : nat) (p : ProgramNode) (name : string) (args : list RtValue)
    : option Outcome :=
  match compile p with
  | Done true s =>
      b ← entryBlock (ir s) name;
      Some (steps fuel (ir s) (mkMachine b None 0 ∅ args ∅ 0 []))
  | _ => None
  end.

(** The calls of [printf] a machine has made: format and arguments. *)
Definition printfCalls (m : Machine) : list (string * list RtValue) :=
  omap (fun e => match e with EvPrintf f a => Some (f, a) | _ => None end) (mEvents m).

(** [func count(n: int): int {
       let i: int = 0
       while (i < n) { print(i)  i = i + 1 }
       return i }] *)
Definition countProgram : ProgramNode :=
  mkProgramNode
    [FunctionDeclNode "count" [mkParameterNode "n" tInt] (Some tInt)
       (Some [VarDeclNode false "i" tInt (Some (IntLiteralNode 0));
              WhileStmtNode
                (BinaryOpNode "<" (IdentifierNode "i" 3) (IdentifierNode "n" 3))
                (BlockNode
                   [ExprStmtNode (FunctionCallNode "print" [IdentifierNode "i" 4] None);
                    AssignmentNode (IdentifierNode "i" 5) "="
                      (BinaryOpNode "+" (IdentifierNode "i" 5) (IntLiteralNode 1))]);
              ReturnStmtNode (Some (IdentifierNode "i" 7))])].

(** What [count] prints in its first [k] iterations. *)
Definition countedTo (k : nat) : list (string * list RtValue) :=
  map (fun j => ("%d" +:+ NL, [RInt 32 (Z.of_nat j)])) (seq 0 k).

(** A variable of type [int] held in a live region of its own. *)
Definition holdsInt (m : Machine) (r : Region) (x : Z) : Prop :=
  exists region,
    mMemory m !! r = Some region /\ regionLive region = true /\
    regionSize region = 4%Z /\ regionCells region !! 0%Z = Some (RInt 32 x).

(** The machine at the head of the loop of [count] (block 20) when [k]
    iterations are done: [i] holds [k], [n] its argument, and the numbers
    below [k] have been printed. *)
Definition atLoopHead (n : Z) (k : nat) (m : Machine) : Prop :=
  mBlock m = 20 /\ mPc m = 0 /\
  mRegs m !! 18 = Some (RPtr (PtrMem (inr 0) 0)) /\
  mRegs m !! 16 = Some (RPtr (PtrMem (inr 1) 0)) /\
  holdsInt m (inr 0) (Z.of_nat k) /\ holdsInt m (inr 1) n /\
  printfCalls m = countedTo k.

(** [func put(i: int, v: int): int {
       let a: int[5]
       a[i] = v
       return a[i] }] *)
Definition putProgram : ProgramNode :=
  mkProgramNode
    [FunctionDeclNode "put" [mkParameterNode "i" tInt; mkParameterNode "v" tInt] (Some tInt)
       (Some [VarDeclNode false "a" tIntArray5 None;
              AssignmentNode (ArrayAccessNode (IdentifierNode "a" 2) (IdentifierNode "i" 2))
                "=" (IdentifierNode "v" 2);
              ReturnStmtNode
                (Some (ArrayAccessNode (IdentifierNode "a" 3) (IdentifierNode "i" 3)))])].

(** [if (true) { print() }], lowered inside [main]. *)
Definition printNothing : StmtNode := ExprStmtNode (FunctionCallNode "print" [] None).
Definition ifLowered : CodeGenerator :=
  stateAfter (codegenIfStmt lowerStmt (BoolLiteralNode true) printNothing None) insideMain.

(** [while (true) print();] lowered inside [main]. *)
Definition whileLowered : CodeGenerator :=
  stateAfter (codegenWhileStmt lowerStmt (BoolLiteralNode true) printNothing) insideMain.

(** ** Evaluating the generator and the machine in proofs *)

Ltac cg_lookup :=
  first [ rewrite lookup_insert_eq
        | rewrite lookup_insert_ne by (first [lia | congruence | done]) ].

(** Unfolds the monad, the state accessors and the builder. *)
Ltac cg_unfold :=
  cbv beta iota zeta delta
    [bind ret abort get gets modify modify_ir when
     ir diag syms ctl mem mods
     set_ir set_diag set_syms set_ctl set_mem set_mods
     irSymbols irLayout irBlocks irStrings irGlobals irNextId irInsertBlock
     set_irSymbols set_irLayout set_irBlocks set_irStrings set_irGlobals
     set_irNextId set_irInsertBlock
     bbName bbParent bbInsts instId instName instOp
     freshId GetInsertBlock getBlock setBlock getParent Function_insert Function_insertTo
     BasicBlock_Create SetInsertPoint Insert insertBlockTerminator ConstantInt_get
     CreateBinOp CreateAdd CreateSub CreateMul CreateSDiv CreateSRem
     CreateFAdd CreateFSub CreateFMul CreateFDiv CreateFRem CreateOr
     CreateICmp CreateICmpEQ CreateICmpNE CreateICmpSLT CreateICmpSGE
     CreateFCmp CreateFCmpOEQ CreateFCmpONE CreateCall CreateCallTo
     CreateLoad CreateStore CreateGEP
     CreateBr CreateCondBr CreateRet CreateRetVoid CreateUnreachable CreateBrTo
     CreatePHI phiValue phiBlock addIncoming CreateGlobalString
     Module_getFunction getPrintfFunction
     createDivisionWithZeroCheck createModuloWithZeroCheck
     i1 i8 i32 i64 fnType ftReturn default mjoin option_join].
Ltac cg_eval := repeat (cg_unfold; try cg_lookup).

(** Decides the tests on closed types and strings. *)
Ltac eval_closed :=
  repeat match goal with
    | |- context [streq ?a ?b] =>
        let v := eval vm_compute in (streq a b) in
        lazymatch v with true => idtac | false => idtac end;
        change (streq a b) with v
    | |- context [isIntegerTyN ?k ?t] =>
        let v := eval vm_compute in (isIntegerTyN k t) in
        lazymatch v with true => idtac | false => idtac end;
        change (isIntegerTyN k t) with v
    | |- context [isDoubleTy ?t] =>
        let v := eval vm_compute in (isDoubleTy t) in
        lazymatch v with true => idtac | false => idtac end;
        change (isDoubleTy t) with v
    | |- context [isIntegerTy ?t] =>
        let v := eval vm_compute in (isIntegerTy t) in
        lazymatch v with true => idtac | false => idtac end;
        change (isIntegerTy t) with v
    | |- context [isPointerTy ?t] =>
        let v := eval vm_compute in (isPointerTy t) in
        lazymatch v with true => idtac | false => idtac end;
        change (isPointerTy t) with v
    | |- context [isVoidTy ?t] =>
        let v := eval vm_compute in (isVoidTy t) in
        lazymatch v with true => idtac | false => idtac end;
        change (isVoidTy t) with v
    | |- context [isArrayTy ?t] =>
        let v := eval vm_compute in (isArrayTy t) in
        lazymatch v with true => idtac | false => idtac end;
        change (isArrayTy t) with v
    end.
Ltac cg_pure :=
  cbv beta iota zeta delta [bind ret fst snd negb andb orb]; eval_closed;
  cbv beta iota zeta delta [bind ret fst snd negb andb orb].

Lemma step_at ir m bb i :
  irBlocks ir !! mBlock m = Some bb -> bbInsts bb !! mPc m = Some i ->
  step ir m = execInst ir i m.
Proof. intros Hb Hi. unfold step. now rewrite Hb, Hi. Qed.

Lemma lookup_end_0 {A} (l k : list A) (x : A) :
  (l ++ x :: k) !! List.length l = Some x.
Proof. induction l; [reflexivity | exact IHl]. Qed.
Lemma lookup_end_1 {A} (l k : list A) (x y : A) :
  (l ++ x :: y :: k) !! S (List.length l) = Some y.
Proof. induction l; [reflexivity | exact IHl]. Qed.
Lemma lookup_end_2 {A} (l k : list A) (x y z : A) :
  (l ++ x :: y :: z :: k) !! S (S (List.length l)) = Some z.
Proof. induction l; [reflexivity | exact IHl]. Qed.

Ltac machine_simpl :=
  cbv beta iota delta [nextPc jumpTo setReg addEvent setMemory];
  cbn [mBlock mPrev mPc mRegs mArgs mMemory mNextRegion mEvents
       nextPc jumpTo setReg addEvent setMemory
       bbInsts bbName bbParent instOp instId instName];
  repeat match goal with
         | H : mBlock ?m = _ |- context [mBlock ?m] => rewrite H
         | H : mPc ?m = _ |- context [mPc ?m] => rewrite H
         end.

(** One step of the machine inside the block described by [HB]. *)
Ltac run_step HB :=
  lazymatch goal with
  | |- context [step ?ir ?m] =>
      let H := fresh "Hstep" in
      eassert (H : step ir m = _) by
        (eapply step_at;
         [ machine_simpl; exact HB
         | machine_simpl;
           first [ reflexivity | apply lookup_end_0 | apply lookup_end_1
                 | apply lookup_end_2 ] ]);
      rewrite H; clear H; unfold execInst; machine_simpl
  end.

(** A call of [printf] on a format that is a string constant. *)
Ltac run_printf Hname Hstr :=
  cbn [mapM evalValue mbind option_bind mret option_ret];
  unfold callExternal; rewrite Hname;
  change (streq "printf" "printf") with true; cbv iota;
  cbn [irStrings ir]; rewrite Hstr; machine_simpl.

(** The value of an operand depends on the registers and the arguments
    only, and not on registers written later than its definition. *)
Lemma evalValue_regs m m' v :
  mRegs m' = mRegs m -> mArgs m' = mArgs m -> evalValue m' v = evalValue m v.
Proof. intros Hr Ha. destruct v; cbn; congruence. Qed.

Lemma evalValue_later m m' v s k x :
  definedBefore v s -> irNextId (ir s) <= k ->
  mRegs m' = <[k := x]> (mRegs m) -> mArgs m' = mArgs m ->
  evalValue m' v = evalValue m v.
Proof.
  intros Hv Hk Hr Ha. destruct v; cbn in *; try congruence.
  rewrite Hr. apply lookup_insert_ne. lia.
Qed.

(** Running [a + b] steps is running [a] steps and then [b]. *)
Lemma steps_add a b ir m :
  steps (a + b) ir m =
  match steps a ir m with
  | Running m' => steps b ir m'
  | o => o
  end.
Proof.
  revert m. induction a as [|a IH]; intros m; [reflexivity|].
  cbn [Nat.add steps]. destruct (step ir m); try reflexivity. apply IH.
Qed.

(** ** Running a divisor check *)

(** On a zero divisor the check prints its message and arrives at the merge
    block with the default value; nothing else happens. *)
Lemma zero_guard_run irs b bb printfFn test msg dflt mergeBB merge v m d :
  ZeroGuard irs b bb printfFn test msg dflt mergeBB merge v ->
  fnName printfFn = "printf" ->
  (forall m0, evalValue m0 dflt = Some d) ->
  atEndOf m b bb -> testHolds m test ->
  exists m',
    steps 5 irs m = Running m' /\
    atEndOf m' mergeBB merge /\
    evalValue m' v = Some d /\
    mEvents m' = mEvents m ++ [EvPrintf msg []] /\
    mMemory m' = mMemory m.
Proof.
  intros (isZero & testName & condbr & errorBB & computeBB & errorName & fmt & call & br &
          mergeName & phi & phiName & phiTy & resultV &
          Hb & Herr & Hstr & Hmerge & -> & ->) Hpn Hd [Hmb Hpc] Htest.
  assert (Hexec : execInst irs (mkInstruction isZero testName test) m =
                  Running (nextPc (setReg isZero (RInt 1 1) m))).
  { unfold execInst. cbn [instOp instId].
    destruct test; try contradiction; cbn in Htest; rewrite Htest; reflexivity. }
  eexists. split.
  { cbn [steps].
    lazymatch goal with
    | |- context [step ?ir ?m0] =>
        replace (step ir m0) with (execInst ir (mkInstruction isZero testName test) m0)
          by (symmetry; eapply step_at; [rewrite Hmb; exact Hb | rewrite Hpc; apply lookup_end_0])
    end.
    rewrite Hexec. machine_simpl.
    run_step Hb. cbn [evalValue]. machine_simpl. rewrite lookup_insert_eq.
    rewrite bool_decide_false by done. machine_simpl.
    run_step Herr. run_printf Hpn Hstr.
    run_step Herr.
    run_step Hmerge. cbn [phiIncoming mbind option_bind]. rewrite decide_True by done.
    cbn [mbind option_bind]. rewrite Hd. reflexivity. }
  machine_simpl. split; [split; reflexivity|].
  split. { cbn [evalValue]. machine_simpl. apply lookup_insert_eq. }
  split; reflexivity.
Qed.

(** On a zero divisor the check of [//=] prints its message and ends the
    program with exit status 1. *)
Lemma exit_guard_run irs b bb printfFn exitFn test msg m :
  ExitGuard irs b bb printfFn exitFn test msg ->
  fnName printfFn = "printf" -> fnName exitFn = "exit" ->
  atEndOf m b bb -> testHolds m test ->
  exists m',
    steps 4 irs m = Exited 1 m' /\
    mEvents m' = mEvents m ++ [EvPrintf msg []] /\
    mMemory m' = mMemory m.
Proof.
  intros (isZero & testName & condbr & errorBB & computeBB & errorName & fmt & call &
          exitCall & unreachable & Hb & Herr & Hstr) Hpn Hen [Hmb Hpc] Htest.
  assert (Hexec : execInst irs (mkInstruction isZero testName test) m =
                  Running (nextPc (setReg isZero (RInt 1 1) m))).
  { unfold execInst. cbn [instOp instId].
    destruct test; try contradiction; cbn in Htest; rewrite Htest; reflexivity. }
  eexists. split.
  { cbn [steps].
    lazymatch goal with
    | |- context [step ?ir ?m0] =>
        replace (step ir m0) with (execInst ir (mkInstruction isZero testName test) m0)
          by (symmetry; eapply step_at; [rewrite Hmb; exact Hb | rewrite Hpc; apply lookup_end_0])
    end.
    rewrite Hexec. machine_simpl.
    run_step Hb. cbn [evalValue]. machine_simpl. rewrite lookup_insert_eq.
    rewrite bool_decide_false by done. machine_simpl.
    run_step Herr. run_printf Hpn Hstr.
    run_step Herr. cbn [mapM evalValue mbind option_bind mret option_ret].
    unfold callExternal. rewrite Hen.
    change (streq "exit" "printf") with false.
    change (streq "exit" "exit") with true. cbv iota.
    reflexivity. }
  machine_simpl. split; reflexivity.
Qed.

(** ** The builder inside a block *)

(** With the builder in a block, [Insert] appends one instruction to it. *)
Lemma Insert_at s b bb name op ty :
  BuilderAt s b bb ->
  exists s',
    Insert name op ty s = Done (InstValue (irNextId (ir s)) ty) s' /\
    BuilderAt s' b (mkBasicBlock (bbName bb) (bbParent bb)
                      (bbInsts bb ++ [mkInstruction (irNextId (ir s)) name op])) /\
    sameTables s s'.
Proof.
  intros [Hi Hb Hlt].
  destruct s as [[sym lay blk str glb n ins] d sy c me mo].
  cbn in Hi, Hb, Hlt |- *. subst ins.
  unfold Insert. cg_eval. rewrite Hb. cg_eval.
  eexists. split; [reflexivity|]. split.
  - split; cbn; [reflexivity | apply lookup_insert_eq | lia].
  - repeat split.
Qed.

Lemma sameTables_trans s1 s2 s3 :
  sameTables s1 s2 -> sameTables s2 s3 -> sameTables s1 s3.
Proof.
  intros (? & ? & ? & ? & ? & ?) (? & ? & ? & ? & ? & ?).
  repeat split; congruence.
Qed.

(** With the builder in a block, a cast to another type appends one
    instruction to it. *)
Lemma CreateCast_at op v dest name s b bb :
  BuilderAt s b bb -> typeOf v <> dest ->
  exists s',
    CreateCast op v dest name s = Done (InstValue (irNextId (ir s)) dest) s' /\
    BuilderAt s' b (mkBasicBlock (bbName bb) (bbParent bb)
                      (bbInsts bb ++ [mkInstruction (irNextId (ir s)) name
                                        (OpCast op v dest)])) /\
    irSymbols (ir s') = irSymbols (ir s) /\
    irNextId (ir s') = S (irNextId (ir s)).
Proof.
  intros [Hi Hb Hlt] Hne.
  destruct s as [[sym lay blk str glb n ins] d sy c me mo].
  cbn in Hi, Hb, Hlt |- *. subst ins.
  unfold CreateCast. rewrite decide_False by exact Hne.
  unfold Insert. cg_eval. rewrite Hb. cg_eval.
  eexists. split; [reflexivity|]. split.
  - split; cbn; [reflexivity | apply lookup_insert_eq | lia].
  - split; reflexivity.
Qed.


(** ** Division by zero *)

(** What [createDivisionWithZeroCheck] emits for an integer division. *)
Lemma intdiv_shape s b bb l r w printfFn msg :
  BuilderAt s b bb -> declared s "printf" printfFn ->
  typeOf r = IntegerTy w -> typeOf l = IntegerTy w ->
  let n := irNextId (ir s) in
  exists s',
    createDivisionWithZeroCheck l r msg true s = Done (InstValue (10 + n) (IntegerTy w)) s' /\
    irInsertBlock (ir s') = Some (2 + n) /\
    irNextId (ir s') = 11 + n /\
    irBlocks (ir s') !! b = Some (mkBasicBlock (bbName bb) (bbParent bb)
       (bbInsts bb ++ [mkInstruction (3 + n) "is_zero" (OpICmp ICMP_EQ r (ConstantInt w 0));
                       mkInstruction (4 + n) "" (OpCondBr (InstValue (3 + n) i1) n (1 + n))])) /\
    irBlocks (ir s') !! n = Some (mkBasicBlock "div_error" (bbParent bb)
       [mkInstruction (6 + n) "" (OpCall printfFn [GlobalString (5 + n)]);
        mkInstruction (7 + n) "" (OpBr (2 + n))]) /\
    irBlocks (ir s') !! (1 + n) = Some (mkBasicBlock "div_compute" (bbParent bb)
       [mkInstruction (8 + n) "div_result" (OpBinary SDiv l r);
        mkInstruction (9 + n) "" (OpBr (2 + n))]) /\
    irBlocks (ir s') !! (2 + n) = Some (mkBasicBlock "div_merge" (bbParent bb)
       [mkInstruction (10 + n) "div_phi" (OpPHI (IntegerTy w)
           [(ConstantInt w 0, n); (InstValue (8 + n) (IntegerTy w), 1 + n)])]) /\
    irStrings (ir s') !! (5 + n) = Some msg.
Proof.
  intros [Hi Hb Hlt] [Hp Hpn] Hr Hl.
  destruct s as [[sym lay blk str glb n ins] d sy c me mo].
  destruct bb as [nm par insts].
  cbn in Hi, Hb, Hp, Hlt |- *. subst ins.
  cg_unfold. rewrite Hb.
  destruct par as [f|].
  - cg_eval. rewrite Hr. cg_eval. rewrite Hb. cg_eval. rewrite Hp. cg_eval. rewrite Hl. cg_eval.
    rewrite !Zmod_0_l.
    eexists. split; [reflexivity|]. cg_unfold.
    split; [reflexivity|]. split; [reflexivity|].
    split. { repeat cg_lookup. rewrite <- app_assoc. reflexivity. }
    split. { repeat cg_lookup. reflexivity. }
    split. { repeat cg_lookup. reflexivity. }
    split. { repeat cg_lookup. cbn. rewrite !decide_True by done. cbn. rewrite !decide_True by done. reflexivity. }
    repeat cg_lookup. reflexivity.
  - cg_eval. rewrite Hr. cg_eval. rewrite Hb. cg_eval. rewrite Hp. cg_eval. rewrite Hl. cg_eval.
    rewrite !Zmod_0_l.
    eexists. split; [reflexivity|]. cg_unfold.
    split; [reflexivity|]. split; [reflexivity|].
    split. { repeat cg_lookup. rewrite <- app_assoc. reflexivity. }
    split. { repeat cg_lookup. reflexivity. }
    split. { repeat cg_lookup. reflexivity. }
    split. { repeat cg_lookup. cbn. rewrite !decide_True by done. cbn. rewrite !decide_True by done. reflexivity. }
    repeat cg_lookup. reflexivity.
Qed.

(** Running the integer guard on a zero divisor. *)
Lemma intdiv_run s s' b bb l r w printfFn msg v :
  BuilderAt s b bb -> declared s "printf" printfFn ->
  typeOf r = IntegerTy w -> typeOf l = IntegerTy w ->
  createDivisionWithZeroCheck l r msg true s = Done v s' ->
  forall m, atEndOf m b bb -> evalValue m r = Some (RInt w 0) ->
  exists m' mergeBB merge,
    irInsertBlock (ir s') = Some mergeBB /\
    irBlocks (ir s') !! mergeBB = Some merge /\
    steps 5 (ir s') m = Running m' /\
    atEndOf m' mergeBB merge /\
    evalValue m' v = Some (RInt w 0) /\
    mEvents m' = mEvents m ++ [EvPrintf msg []] /\
    mMemory m' = mMemory m.
Proof.
  intros HB HP Hr Hl Hrun m [Hmb Hpc] Hev.
  destruct (intdiv_shape s b bb l r w printfFn msg HB HP Hr Hl)
    as (s2 & Hrun2 & Hins & _ & Hb & Herr & _ & Hmerge & Hstr).
  rewrite Hrun in Hrun2. injection Hrun2 as -> ->.
  destruct HP as [_ Hpn].
  set (n := irNextId (ir s)) in *. clearbody n.
  eexists _, _, _. split; [exact Hins|]. split; [exact Hmerge|].
  split.
  { cbn [steps].
    run_step Hb. rewrite Hev. cbn [evalValue]. cbn [mbind option_bind evalICmp].
    rewrite bool_decide_true by done. machine_simpl.
    run_step Hb. cbn [evalValue]. machine_simpl. rewrite lookup_insert_eq.
    rewrite bool_decide_false by done. machine_simpl.
    run_step Herr. run_printf Hpn Hstr.
    run_step Herr. 
    run_step Hmerge. cbn [phiIncoming mbind option_bind evalValue]. rewrite decide_True by done. cbn [evalValue].
    reflexivity. }
  machine_simpl. split; [split; reflexivity|]. 
  split. { cbn [evalValue]. machine_simpl. apply lookup_insert_eq. }
  split; reflexivity.
Qed.

(** What [createDivisionWithZeroCheck] emits for a floating-point division. *)
Lemma floatdiv_shape s b bb l r printfFn msg :
  BuilderAt s b bb -> declared s "printf" printfFn ->
  typeOf l = DoubleTy ->
  let n := irNextId (ir s) in
  exists s',
    createDivisionWithZeroCheck l r msg false s = Done (InstValue (10 + n) DoubleTy) s' /\
    irInsertBlock (ir s') = Some (2 + n) /\
    irNextId (ir s') = 11 + n /\
    irBlocks (ir s') !! b = Some (mkBasicBlock (bbName bb) (bbParent bb)
       (bbInsts bb ++ [mkInstruction (3 + n) "is_zero" (OpFCmp FCMP_OEQ r (ConstantFP fzero));
                       mkInstruction (4 + n) "" (OpCondBr (InstValue (3 + n) i1) n (1 + n))])) /\
    irBlocks (ir s') !! n = Some (mkBasicBlock "div_error" (bbParent bb)
       [mkInstruction (6 + n) "" (OpCall printfFn [GlobalString (5 + n)]);
        mkInstruction (7 + n) "" (OpBr (2 + n))]) /\
    irBlocks (ir s') !! (1 + n) = Some (mkBasicBlock "div_compute" (bbParent bb)
       [mkInstruction (8 + n) "div_result" (OpBinary FDiv l r);
        mkInstruction (9 + n) "" (OpBr (2 + n))]) /\
    irBlocks (ir s') !! (2 + n) = Some (mkBasicBlock "div_merge" (bbParent bb)
       [mkInstruction (10 + n) "div_phi" (OpPHI DoubleTy
           [(ConstantFP fnan, n); (InstValue (8 + n) DoubleTy, 1 + n)])]) /\
    irStrings (ir s') !! (5 + n) = Some msg.
Proof.
  intros [Hi Hb Hlt] [Hp Hpn] Hl.
  destruct s as [[sym lay blk str glb n ins] d sy c me mo].
  destruct bb as [nm par insts].
  cbn in Hi, Hb, Hp, Hlt |- *. subst ins.
  cg_unfold. rewrite Hb.
  destruct par as [f|].
  - cg_eval. rewrite Hb. cg_eval. rewrite Hp. cg_eval. rewrite Hl. cg_eval.
    eexists. split; [reflexivity|]. cg_unfold.
    split; [reflexivity|]. split; [reflexivity|].
    split. { repeat cg_lookup. rewrite <- app_assoc. reflexivity. }
    split. { repeat cg_lookup. reflexivity. }
    split. { repeat cg_lookup. reflexivity. }
    split. { repeat cg_lookup. cbn. rewrite !decide_True by done. cbn. rewrite !decide_True by done. reflexivity. }
    repeat cg_lookup. reflexivity.
  - cg_eval. rewrite Hb. cg_eval. rewrite Hp. cg_eval. rewrite Hl. cg_eval.
    eexists. split; [reflexivity|]. cg_unfold.
    split; [reflexivity|]. split; [reflexivity|].
    split. { repeat cg_lookup. rewrite <- app_assoc. reflexivity. }
    split. { repeat cg_lookup. reflexivity. }
    split. { repeat cg_lookup. reflexivity. }
    split. { repeat cg_lookup. cbn. rewrite !decide_True by done. cbn. rewrite !decide_True by done. reflexivity. }
    repeat cg_lookup. reflexivity.
Qed.

(** Running the floating-point guard on a zero divisor. *)
Lemma floatdiv_run s s' b bb l r printfFn msg v sgn :
  BuilderAt s b bb -> declared s "printf" printfFn ->
  typeOf l = DoubleTy ->
  createDivisionWithZeroCheck l r msg false s = Done v s' ->
  forall m, atEndOf m b bb -> evalValue m r = Some (RDouble (S754_zero sgn)) ->
  exists m' mergeBB merge,
    irInsertBlock (ir s') = Some mergeBB /\
    irBlocks (ir s') !! mergeBB = Some merge /\
    steps 5 (ir s') m = Running m' /\
    atEndOf m' mergeBB merge /\
    evalValue m' v = Some (RDouble fnan) /\
    mEvents m' = mEvents m ++ [EvPrintf msg []] /\
    mMemory m' = mMemory m.
Proof.
  intros HB HP Hl Hrun m [Hmb Hpc] Hev.
  destruct (floatdiv_shape s b bb l r printfFn msg HB HP Hl)
    as (s2 & Hrun2 & Hins & _ & Hb & Herr & _ & Hmerge & Hstr).
  rewrite Hrun in Hrun2. injection Hrun2 as -> ->.
  destruct HP as [_ Hpn].
  set (n := irNextId (ir s)) in *. clearbody n.
  eexists _, _, _. split; [exact Hins|]. split; [exact Hmerge|].
  split.
  { cbn [steps].
    run_step Hb. rewrite Hev. cbn [evalValue mbind option_bind evalFCmp].
    replace (SFcompare (S754_zero sgn) fzero) with (Some Eq) by (destruct sgn; reflexivity).
    machine_simpl.
    run_step Hb. cbn [evalValue]. machine_simpl. rewrite lookup_insert_eq.
    rewrite bool_decide_false by done. machine_simpl.
    run_step Herr. run_printf Hpn Hstr.
    run_step Herr. 
    run_step Hmerge. cbn [phiIncoming mbind option_bind evalValue]. rewrite decide_True by done. cbn [evalValue].
    reflexivity. }
  machine_simpl. split; [split; reflexivity|]. 
  split. { cbn [evalValue]. machine_simpl. apply lookup_insert_eq. }
  split; reflexivity.
Qed.



(** [a / b] on two integers: both are converted to floating point and the
    quotient is guarded as a floating-point division.  When [b] is 0 the
    emitted code prints the diagnostic and the value of the expression is
    NaN; control arrives at the end of the merge block. *)
Theorem float_division_of_integers (a b : ExprNode) s s1 s2 l r blk bb printfFn m x :
  codegenExpr a s = Done (Some l) s1 -> codegenExpr b s1 = Done (Some r) s2 ->
  typeOf l = i32 -> typeOf r = i32 -> definedBefore r s2 ->
  BuilderAt s2 blk bb -> declared s2 "printf" printfFn ->
  atEndOf m blk bb ->
  evalValue m l = Some (RInt 32 x) -> evalValue m r = Some (RInt 32 0) ->
  exists v s' m' mergeBB merge,
    codegenExpr (BinaryOpNode "/" a b) s = Done (Some v) s' /\
    irInsertBlock (ir s') = Some mergeBB /\
    irBlocks (ir s') !! mergeBB = Some merge /\
    steps 7 (ir s') m = Running m' /\
    atEndOf m' mergeBB merge /\
    evalValue m' v = Some (RDouble fnan) /\
    mEvents m' = mEvents m ++ [EvPrintf ("Runtime Error: Division by zero" +:+ NL) []] /\
    mMemory m' = mMemory m.
Proof.
  intros Ha Hb Hl Hr Hdr HB HP [Hmb Hpc] Hlv Hrv.
  assert (Hnl : typeOf l <> DoubleTy) by (rewrite Hl; discriminate).
  assert (Hnr : typeOf r <> DoubleTy) by (rewrite Hr; discriminate).
  destruct (CreateCast_at SIToFP l DoubleTy "conv_left" s2 blk bb HB Hnl)
    as (s3 & Hc1 & HB3 & Hsym3 & Hn3).
  destruct (CreateCast_at SIToFP r DoubleTy "conv_right" s3 blk _ HB3 Hnr)
    as (s4 & Hc2 & HB4 & Hsym4 & Hn4).
  assert (HP4 : declared s4 "printf" printfFn).
  { destruct HP as [HP1 HP2]. split; [|exact HP2]. rewrite Hsym4, Hsym3. exact HP1. }
  set (n := irNextId (ir s2)) in *. rewrite Hn3 in *.
  destruct (floatdiv_shape s4 blk _ (InstValue n DoubleTy) (InstValue (S n) DoubleTy)
              printfFn ("Runtime Error: Division by zero" +:+ NL) HB4 HP4 eq_refl)
    as (s' & Hrun & _ & _ & Hblk & _).
  cbn [bbName bbParent bbInsts] in Hblk. rewrite <- !app_assoc in Hblk. cbn [app] in Hblk.
  assert (H2 : exists m2,
            steps 2 (ir s') m = Running m2 /\
            mBlock m2 = blk /\ mPc m2 = S (S (List.length (bbInsts bb))) /\
            mRegs m2 !! (S n) = Some (RDouble (S754_zero false)) /\
            mEvents m2 = mEvents m /\ mMemory m2 = mMemory m).
  { eexists. split.
    { cbn [steps]. run_step Hblk. rewrite Hlv. cbn [mbind option_bind evalCast].
      machine_simpl.
      run_step Hblk.
      erewrite (evalValue_later m _ r s2 n) by
        (first [exact Hdr | reflexivity | subst n; lia]).
      rewrite Hrv. cbn [mbind option_bind evalCast]. reflexivity. }
    machine_simpl. split; [reflexivity|]. split; [reflexivity|].
    split; [rewrite lookup_insert_eq; reflexivity|]. split; reflexivity. }
  destruct H2 as (m2 & Hs2 & Hb2 & Hpc2 & Hreg2 & Hev2 & Hmem2).
  destruct (floatdiv_run s4 s' blk _ (InstValue n DoubleTy) (InstValue (S n) DoubleTy)
              printfFn _ _ false HB4 HP4 eq_refl Hrun m2)
    as (m' & mergeBB & merge & Hins & Hmg & Hs5 & Hend & Hval & Hev & Hmem).
  { split; [exact Hb2|]. rewrite Hpc2. cbn [bbInsts]. rewrite !length_app. cbn. lia. }
  { exact Hreg2. }
  eexists _, s', m', mergeBB, merge.
  split.
  { cbn [codegenExpr]. unfold codegenBinaryOp. cg_pure. rewrite Ha. cg_pure.
    rewrite Hb. cg_pure.
    unfold binaryOpOnValues. repeat (rewrite ?Hl, ?Hr; cg_pure).
    unfold CreateSIToFP. rewrite Hc1. cg_pure. rewrite Hc2. cg_pure.
    rewrite Hrun. reflexivity. }
  split; [exact Hins|]. split; [exact Hmg|].
  split; [rewrite (steps_add 2 5), Hs2; exact Hs5|].
  split; [exact Hend|]. split; [exact Hval|].
  split; [rewrite Hev, Hev2; reflexivity | rewrite Hmem, Hmem2; reflexivity].
Qed.

Lemma float_division_of_integers_witness :
  exists v s' m' mergeBB merge,
    codegenExpr (BinaryOpNode "/" (IntLiteralNode 10) (IntLiteralNode 0)) insideMain
      = Done (Some v) s' /\
    irInsertBlock (ir s') = Some mergeBB /\
    irBlocks (ir s') !! mergeBB = Some merge /\
    steps 7 (ir s') (machineAt 15 0) = Running m' /\
    atEndOf m' mergeBB merge /\
    evalValue m' v = Some (RDouble fnan) /\
    mEvents m' = mEvents (machineAt 15 0) ++
                 [EvPrintf ("Runtime Error: Division by zero" +:+ NL) []] /\
    mMemory m' = mMemory (machineAt 15 0).
Proof.
  apply (float_division_of_integers (IntLiteralNode 10) (IntLiteralNode 0)
           insideMain insideMain insideMain (ConstantInt 32 10) (ConstantInt 32 0)
           15 (mkBasicBlock "entry" (Some mainFunction) []) printfFunction
           (machineAt 15 0) 10).
  - vm_compute. reflexivity.
  - vm_compute. reflexivity.
  - reflexivity.
  - reflexivity.
  - exact I.
  - split; [vm_compute; reflexivity | vm_compute; reflexivity | vm_compute; lia].
  - split; vm_compute; reflexivity.
  - split; reflexivity.
  - reflexivity.
  - reflexivity.
Defined.

(** ** Compound assignment with a divisor check *)

Ltac guard_eval Hb Hp Hx Hy :=
  repeat (cg_eval; first [rewrite Hb | rewrite Hp | rewrite Hx | rewrite Hy]); cg_eval;
  rewrite ?Zmod_0_l.

(** Closes a [ZeroGuard] goal on a fully evaluated state. *)
Ltac guard_close :=
  unfold ZeroGuard; do 14 eexists;
  cbn [ir irBlocks irStrings bbName bbParent bbInsts];
  split; [ repeat cg_lookup; rewrite <- app_assoc; reflexivity |];
  split; [ repeat cg_lookup; reflexivity |];
  split; [ repeat cg_lookup; reflexivity |];
  split; [ repeat cg_lookup; cbn; rewrite !decide_True by done; cbn;
           rewrite !decide_True by done; reflexivity |];
  split; reflexivity.

Lemma divAssign_shape (isFloat : bool) s b bb oldVal value printfFn :
  BuilderAt s b bb -> declared s "printf" printfFn ->
  exists v s' mergeBB merge,
    divAssignWithZeroCheck isFloat oldVal value s = Done v s' /\
    irInsertBlock (ir s') = Some mergeBB /\
    ZeroGuard (ir s') b bb printfFn
      (if isFloat then OpFCmp FCMP_OEQ value (ConstantFP fzero)
       else OpICmp ICMP_EQ value (ConstantInt 32 0))
      ("Runtime Error: Division by zero in /= operator" +:+ NL)
      (if isFloat then ConstantFP fnan else ConstantInt 32 0)
      mergeBB merge v.
Proof.
  intros [Hi Hb Hlt] [Hp Hpn].
  destruct s as [[sym lay blk str glb n ins] d sy c me mo].
  destruct bb as [nm par insts].
  cbn in Hi, Hb, Hp, Hlt |- *. subst ins.
  unfold divAssignWithZeroCheck.
  destruct isFloat, par as [f|];
    guard_eval Hb Hp Hb Hp;
    (eexists _, _, _, _; split; [reflexivity|]; split; [reflexivity|]; guard_close).
Qed.

Lemma modAssign_shape (isFloat : bool) s b bb oldVal value printfFn :
  BuilderAt s b bb -> declared s "printf" printfFn ->
  typeOf oldVal = (if isFloat then DoubleTy else i32) ->
  exists v s' mergeBB merge,
    modAssignWithZeroCheck isFloat oldVal value s = Done v s' /\
    irInsertBlock (ir s') = Some mergeBB /\
    ZeroGuard (ir s') b bb printfFn
      (if isFloat then OpFCmp FCMP_OEQ value (ConstantFP fzero)
       else OpICmp ICMP_EQ value (ConstantInt 32 0))
      ("Runtime Error: Modulo by zero in %= operator" +:+ NL)
      (if isFloat then ConstantFP fnan else ConstantInt 32 0)
      mergeBB merge v.
Proof.
  intros [Hi Hb Hlt] [Hp Hpn] Ht.
  destruct s as [[sym lay blk str glb n ins] d sy c me mo].
  destruct bb as [nm par insts].
  cbn in Hi, Hb, Hp, Hlt |- *. subst ins.
  unfold modAssignWithZeroCheck.
  destruct isFloat, par as [f|];
    guard_eval Hb Hp Ht Hp;
    (eexists _, _, _, _; split; [reflexivity|]; split; [reflexivity|]; guard_close).
Qed.

Lemma floorDivAssign_shape s b bb oldVal value printfFn exitFn :
  BuilderAt s b bb -> declared s "printf" printfFn -> declared s "exit" exitFn ->
  typeOf oldVal = i32 -> typeOf value = i32 ->
  exists v s',
    floorDivAssignWithZeroCheck oldVal value s = Done v s' /\
    ExitGuard (ir s') b bb printfFn exitFn (OpICmp ICMP_EQ value (ConstantInt 32 0))
      ("Runtime Error: Integer division by zero in //= operator" +:+ NL).
Proof.
  intros [Hi Hb Hlt] [Hp Hpn] [He Hen] Ho Hv.
  destruct s as [[sym lay blk str glb n ins] d sy c me mo].
  destruct bb as [nm par insts].
  cbn in Hi, Hb, Hp, He, Hlt |- *. subst ins.
  unfold floorDivAssignWithZeroCheck. rewrite Ho, Hv. cg_pure.
  destruct par as [f|];
    (repeat (cg_eval; first [rewrite Hb | rewrite Hp | rewrite He | rewrite Ho | rewrite Hv]));
    cg_eval;
    (eexists _, _; split; [reflexivity|];
     unfold ExitGuard; do 10 eexists;
     cbn [ir irBlocks irStrings bbName bbParent bbInsts];
     split; [ repeat cg_lookup; rewrite <- app_assoc; reflexivity |];
     split; [ repeat cg_lookup; reflexivity |];
     repeat cg_lookup; reflexivity).
Qed.




(** [x /= 0] and [x %= 0] in a whole program: the diagnostic is printed,
    [x] becomes 0, and the program goes on to print [x] and to return. *)
Lemma div_and_mod_assign_by_zero_continue :
  (exists m,
     run 50 (compoundByZero "/=") = Some (Returned (Some (RInt 32 0)) m) /\
     printed (Returned (Some (RInt 32 0)) m) =
       ["Runtime Error: Division by zero in /= operator" +:+ NL; "%d" +:+ NL] /\
     (mMemory m !! inr 0) ≫= (fun r => regionCells r !! 0%Z) = Some (RInt 32 0)) /\
  (exists m,
     run 50 (compoundByZero "%=") = Some (Returned (Some (RInt 32 0)) m) /\
     printed (Returned (Some (RInt 32 0)) m) =
       ["Runtime Error: Modulo by zero in %= operator" +:+ NL; "%d" +:+ NL] /\
     (mMemory m !! inr 0) ≫= (fun r => regionCells r !! 0%Z) = Some (RInt 32 0)).
Proof.
  split; (eexists; split; [vm_compute; reflexivity|]; split; vm_compute; reflexivity).
Qed.

(** ** Falling off the end of a function *)

(** C4 (where the code departs from the claim): when the body's lowering
    leaves the insertion block without terminator, [codegenFunctionDecl]
    ends the function with [ret void] or with [ret] of the return type's
    zero value, registers the function, and writes nothing to the error
    stream: the diagnostics, the warning count among them, are what they
    were, for a non-void return type as for void.  The program
    [func f(): int { }  func main(): int { return f() }] compiles with
    success, without any line of diagnostics and with zero warnings. *)
Theorem falling_off_the_end_gives_no_warning :
  (forall name retType function prevFunction s b bb,
     BuilderAt s b bb -> getTerminator bb = None ->
     tempMemoryStack (mem s) = [] ->
     exists s' ret,
       finishFunctionDecl name retType function prevFunction s = Done tt s' /\
       diag s' = diag s /\
       instOp ret = defaultReturn retType /\
       irBlocks (ir s') !! b =
         Some (mkBasicBlock (bbName bb) (bbParent bb) (bbInsts bb ++ [ret])) /\
       functions (syms s') !! name = Some function) /\
  (exists s, compile fallsOffTheEnd = Done true s /\
             warningCount (diag s) = 0%Z /\ cerr (diag s) = []).
Proof.
  split.
  - intros name retType function prevFunction s b bb [Hi Hb Hlt] Hterm Htemps.
    destruct s as [[sym lay blk str glb n ins] d sy c [temps owned] mo].
    destruct bb as [nm par insts].
    cbn in Hi, Hb, Hlt, Htemps. subst ins temps.
    unfold finishFunctionDecl, insertBlockTerminator, clearTempMemory, defaultReturn.
    cg_eval. rewrite Hb. cg_eval. rewrite Hterm.
    cbn [is_Some bool_decide negb].
    replace (bool_decide (is_Some (@None Instruction))) with false
      by (symmetry; apply bool_decide_eq_false; intros [? ?]; discriminate).
    cbn [negb].
    unfold tempMemoryStack, mem, CreateRetVoid, CreateRet.
    destruct (isVoidTy retType).
    + cg_eval. rewrite Hb. cg_eval.
      eexists _, (mkInstruction _ _ _). split; [reflexivity|].
      unfold set_currentFunction, set_functions, set_syms, set_ctl, syms, ctl, diag, ir.
      cbn. split; [reflexivity|]. split; [reflexivity|].
      split; [apply lookup_insert_eq | apply lookup_insert_eq].
    + cg_eval. rewrite Hb. cg_eval.
      eexists _, (mkInstruction _ _ _). split; [reflexivity|].
      unfold set_currentFunction, set_functions, set_syms, set_ctl, syms, ctl, diag, ir.
      cbn. split; [reflexivity|]. split; [reflexivity|].
      split; [apply lookup_insert_eq | apply lookup_insert_eq].
  - eexists. split; [vm_compute; reflexivity|]. split; reflexivity.
Qed.

(** ** [break] and [continue] *)

(** C7 (the part that fails): with an empty loop context stack, [break] and
    [continue] write one line to the error stream and do nothing else; the
    error count stays what it was, so [hasErrors] answers as before.  The
    program [func main(): int { break  return 0 }] is therefore compiled
    with success, with zero errors counted, and the same holds with
    [continue]. *)
Theorem break_outside_loop_is_not_counted :
  (forall s, loopContextStack (ctl s) = [] ->
     exists s' s'',
       codegenBreakStmt s = Done tt s' /\
       codegenContinueStmt s = Done tt s'' /\
       ir s' = ir s /\ ir s'' = ir s /\
       errorCount (diag s') = errorCount (diag s) /\
       errorCount (diag s'') = errorCount (diag s) /\
       hasErrors s' = hasErrors s /\ hasErrors s'' = hasErrors s /\
       cerr (diag s') = cerr (diag s) ++ ["Error: 'break' statement not in loop or switch"] /\
       cerr (diag s'') = cerr (diag s) ++ ["Error: 'continue' statement not in loop"]) /\
  (exists s, compile breakOutsideLoop = Done true s /\
             errorCount (diag s) = 0%Z /\
             cerr (diag s) = ["Error: 'break' statement not in loop or switch"]) /\
  (exists s, compile continueOutsideLoop = Done true s /\
             errorCount (diag s) = 0%Z /\
             cerr (diag s) = ["Error: 'continue' statement not in loop"]).
Proof.
  split; [|split].
  - intros s Hstack.
    unfold codegenBreakStmt, codegenContinueStmt, bind, gets.
    rewrite Hstack. cbn [last].
    eexists _, _. repeat split; reflexivity.
  - eexists. split; [vm_compute; reflexivity|]. split; reflexivity.
  - eexists. split; [vm_compute; reflexivity|]. split; reflexivity.
Qed.



(** ** Array bounds *)

(** C1 (where the code departs from the claim): for an array variable the
    only test emitted before the access is [index < 0].  In
    [let arr: int[5]  let x: int = arr[10]] the check block holds the
    comparison with zero and the branch, nothing about the length; at run
    time control takes the access path and the load reads 40 bytes into
    the 20-byte array, without any diagnostic.  A negative index is caught:
    [arr[-1]] prints the diagnostic and yields 0. *)
Theorem array_index_past_the_end_is_not_guarded :
  (exists s isNegative errorBB accessBB,
     compile (arrayIndex (IntLiteralNode 10)) = Done true s /\
     cerr (diag s) = [] /\
     blockNamed (ir s) "bounds_check" =
       Some [OpICmp ICMP_SLT (ConstantInt 32 10) (ConstantInt 32 0);
             OpCondBr isNegative errorBB accessBB]) /\
  (exists m,
     run 50 (arrayIndex (IntLiteralNode 10)) =
       Some (Faulted (OutOfBounds (PtrMem (inr 1) 40) i32) m) /\
     regionSize <$> (mMemory m !! inr 1) = Some 20%Z /\
     mEvents m = [EvLoad (PtrMem (inr 1) 40) i32]) /\
  (exists m,
     run 50 (arrayIndex (UnaryOpNode "-" (IntLiteralNode 1))) =
       Some (Returned (Some (RInt 32 0)) m) /\
     printed (Returned (Some (RInt 32 0)) m) =
       ["Runtime Error: Array index out of bounds" +:+ NL; "%d" +:+ NL] /\
     mEvents m !! 3 = Some (EvPrintf ("%d" +:+ NL) [RInt 32 0])).
Proof.
  split; [|split].
  - eexists _, _, _, _. split; [vm_compute; reflexivity|].
    split; vm_compute; reflexivity.
  - eexists. split; [vm_compute; reflexivity|]. split; vm_compute; reflexivity.
  - eexists. split; [vm_compute; reflexivity|]. split; vm_compute; reflexivity.
Qed.

(** What [codegenArrayAccess] emits around the access to an array variable
    indexed by an [int] (lines 1790-1894, [isStringType] false). *)
Lemma boundsCheckedAccess_shape s b bb f index arrayPtr elementType len printfFn :
  BuilderAt s b bb -> bbParent bb = Some f -> declared s "printf" printfFn ->
  typeOf index = i32 ->
  let n := irNextId (ir s) in
  exists s',
    boundsCheckedAccess index arrayPtr (ArrayTy elementType len) elementType true false s
      = Done (Some (InstValue (13 + n) elementType)) s' /\
    irInsertBlock (ir s') = Some (3 + n) /\
    irBlocks (ir s') !! b =
      Some (mkBasicBlock (bbName bb) (bbParent bb)
              (bbInsts bb ++ [mkInstruction (4 + n) "" (OpBr n)])) /\
    irBlocks (ir s') !! n =
      Some (mkBasicBlock "bounds_check" (Some f)
              [mkInstruction (5 + n) "is_negative"
                 (OpICmp ICMP_SLT index (ConstantInt 32 0));
               mkInstruction (6 + n) ""
                 (OpCondBr (InstValue (5 + n) i1) (1 + n) (2 + n))]) /\
    irBlocks (ir s') !! (1 + n) =
      Some (mkBasicBlock "bounds_error" (Some f)
              [mkInstruction (8 + n) "" (OpCall printfFn [GlobalString (7 + n)]);
               mkInstruction (9 + n) "" (OpBr (3 + n))]) /\
    irStrings (ir s') !! (7 + n) =
      Some ("Runtime Error: Array index out of bounds" +:+ NL) /\
    irBlocks (ir s') !! (2 + n) =
      Some (mkBasicBlock "array_access" (Some f)
              [mkInstruction (10 + n) "arrayptr"
                 (OpGEP (ArrayTy elementType len) arrayPtr [ConstantInt 64 0; index]);
               mkInstruction (11 + n) "arrayval"
                 (OpLoad elementType (InstValue (10 + n) PointerTy));
               mkInstruction (12 + n) "" (OpBr (3 + n))]) /\
    irBlocks (ir s') !! (3 + n) =
      Some (mkBasicBlock "bounds_merge" (Some f)
              [mkInstruction (13 + n) "array_result"
                 (OpPHI elementType
                    [(getNullValue elementType, 1 + n);
                     (InstValue (11 + n) elementType, 2 + n)])]).
Proof.
  intros [Hi Hb Hlt] Hpar [Hp Hpn] Hty.
  destruct s as [[sym lay blk str glb n ins] d sy c me mo].
  destruct bb as [nm par insts].
  cbn in Hi, Hb, Hp, Hlt, Hpar |- *. subst ins par.
  unfold boundsCheckedAccess.
  repeat (cg_eval; first [rewrite Hb | rewrite Hp | rewrite Hty]). cg_eval.
  rewrite ?Zmod_0_l.
  cbn [isArrayTy andb].
  repeat (cg_eval; first [rewrite Hb | rewrite Hp | rewrite Hty]). cg_eval.
  eexists. split; [reflexivity|].
  cbn [ir irInsertBlock irBlocks irStrings].
  split; [reflexivity|].
  split; [repeat cg_lookup; reflexivity|].
  split; [repeat cg_lookup; reflexivity|].
  split; [repeat cg_lookup; reflexivity|].
  split; [repeat cg_lookup; reflexivity|].
  split; [repeat cg_lookup; reflexivity|].
  repeat cg_lookup. cbn. rewrite !decide_True by done. cbn.
  rewrite !decide_True by done. reflexivity.
Qed.

(** The part of C1 that holds, and the general form of the part that does
    not.  For an array variable indexed by an [int]: a negative index
    prints the diagnostic and yields the element type's zero value without
    any access to memory, through the merge block.  A non-negative index,
    whatever the length of the array, takes the access path: the address
    is the array's plus index times element size, no diagnostic is
    printed, and when that address lies beyond the end of the array's
    storage the load that follows is a read outside it. *)
Theorem array_index_guard s b bb f index arrayPtr elementType len printfFn m x zero r off :
  BuilderAt s b bb -> bbParent bb = Some f -> declared s "printf" printfFn ->
  typeOf index = i32 -> definedBefore index s -> definedBefore arrayPtr s ->
  atEndOf m b bb ->
  evalValue m index = Some (RInt 32 x) ->
  (forall m0, evalValue m0 (getNullValue elementType) = Some zero) ->
  evalValue m arrayPtr = Some (RPtr (PtrMem r off)) ->
  exists v s' mergeBB merge,
    boundsCheckedAccess index arrayPtr (ArrayTy elementType len) elementType true false s
      = Done (Some v) s' /\
    irInsertBlock (ir s') = Some mergeBB /\
    irBlocks (ir s') !! mergeBB = Some merge /\
    ((signed 32 x < 0)%Z ->
       exists m',
         steps 6 (ir s') m = Running m' /\
         atEndOf m' mergeBB merge /\
         evalValue m' v = Some zero /\
         mEvents m' = mEvents m ++
                      [EvPrintf ("Runtime Error: Array index out of bounds" +:+ NL) []] /\
         mMemory m' = mMemory m) /\
    ((0 <= signed 32 x)%Z ->
       let address := PtrMem r (off + signed 32 x * sizeOf elementType) in
       (exists m' ptr load,
          steps 4 (ir s') m = Running m' /\
          step (ir s') m' = execInst (ir s') load m' /\
          instOp load = OpLoad elementType ptr /\
          evalValue m' ptr = Some (RPtr address) /\
          mEvents m' = mEvents m /\ mMemory m' = mMemory m) /\
       (forall region,
          mMemory m !! r = Some region -> regionLive region = true ->
          (regionSize region < off + signed 32 x * sizeOf elementType + sizeOf elementType)%Z ->
          exists m', steps 5 (ir s') m = Faulted (OutOfBounds address elementType) m' /\
                     mEvents m' = mEvents m ++ [EvLoad address elementType])).
Proof.
  intros HB Hpar HP Hty Hdi Hda [Hmb Hpc] Hidx Hzero Hptr.
  destruct (boundsCheckedAccess_shape s b bb f index arrayPtr elementType len printfFn
              HB Hpar HP Hty)
    as (s' & Hrun & Hins & Hb & Hcheck & Herr & Hstr & Hacc & Hmerge).
  destruct HP as [_ Hpn].
  set (n := irNextId (ir s)) in *.
  eexists _, s', _, _. split; [exact Hrun|]. split; [exact Hins|]. split; [exact Hmerge|].
  split.
  - intros Hneg. apply Z.ltb_lt in Hneg. eexists. split.
    { cbn [steps]. run_step Hb. run_step Hcheck.
      erewrite (evalValue_regs m _ index) by reflexivity. rewrite Hidx.
      cbn [mbind option_bind evalValue evalICmp].
      change (signed 32 0) with 0%Z. rewrite Hneg. machine_simpl.
      run_step Hcheck. cbn [evalValue]. machine_simpl. rewrite lookup_insert_eq.
      rewrite bool_decide_false by done. machine_simpl.
      run_step Herr. run_printf Hpn Hstr.
      run_step Herr.
      run_step Hmerge. cbn [phiIncoming mbind option_bind]. rewrite decide_True by done.
      cbn [mbind option_bind]. rewrite Hzero. reflexivity. }
    machine_simpl. split; [split; reflexivity|].
    split. { cbn [evalValue]. machine_simpl. apply lookup_insert_eq. }
    split; reflexivity.
  - intros Hpos address.
    assert (Hge : (signed 32 x <? 0)%Z = false) by (apply Z.ltb_ge; exact Hpos).
    assert (Hfour : exists m4,
              steps 4 (ir s') m = Running m4 /\
              mBlock m4 = 2 + n /\ mPc m4 = 1 /\
              mRegs m4 !! (10 + n) = Some (RPtr address) /\
              mEvents m4 = mEvents m /\ mMemory m4 = mMemory m).
    { eexists. split.
      { cbn [steps]. run_step Hb. run_step Hcheck.
        erewrite (evalValue_regs m _ index) by reflexivity. rewrite Hidx.
        cbn [mbind option_bind evalValue evalICmp].
        change (signed 32 0) with 0%Z. rewrite Hge. machine_simpl.
        run_step Hcheck. cbn [evalValue]. machine_simpl. rewrite lookup_insert_eq.
        rewrite bool_decide_true by done. machine_simpl.
        run_step Hacc.
        erewrite (evalValue_later m _ arrayPtr s (5 + n)) by
          (first [exact Hda | reflexivity | subst n; lia]).
        rewrite Hptr. cbn [mapM mbind option_bind mret option_ret evalValue].
        erewrite (evalValue_later m _ index s (5 + n)) by
          (first [exact Hdi | reflexivity | subst n; lia]).
        rewrite Hidx. cbn [mbind option_bind mret option_ret gepOffset sizeOf].
        change (signed 64 0) with 0%Z. cbn [mbind option_bind].
        reflexivity. }
      machine_simpl. split; [reflexivity|]. split; [reflexivity|].
      split. { rewrite lookup_insert_eq. unfold address. do 3 f_equal. ring. }
      split; reflexivity. }
    destruct Hfour as (m4 & H4 & Hb4 & Hpc4 & Hreg4 & Hev4 & Hmem4).
    split.
    + exists m4, (InstValue (10 + n) PointerTy), (mkInstruction (11 + n) "arrayval"
                 (OpLoad elementType (InstValue (10 + n) PointerTy))).
      split; [exact H4|].
      split; [apply (step_at _ _ _ _ ltac:(rewrite Hb4; exact Hacc)); rewrite Hpc4; reflexivity|].
      split; [reflexivity|]. split; [exact Hreg4|]. split; assumption.
    + intros region Hregion Hlive Hbeyond.
      rewrite (steps_add 4 1), H4. cbn [steps].
      rewrite (step_at _ _ _ (mkInstruction (11 + n) "arrayval"
                 (OpLoad elementType (InstValue (10 + n) PointerTy)))
                 ltac:(rewrite Hb4; exact Hacc) ltac:(rewrite Hpc4; reflexivity)).
      unfold execInst. cbn [instOp instId evalValue]. rewrite Hreg4.
      unfold loadFrom, address. rewrite Hmem4, Hregion, Hlive. cbn [negb].
      rewrite bool_decide_eq_false_2 by lia.
      eexists. split; [reflexivity|]. cbn [addEvent mEvents]. rewrite Hev4. reflexivity.
Qed.

Lemma array_index_guard_witness :
  exists v s' mergeBB merge,
    boundsCheckedAccess (ConstantInt 32 10) (InstValue 3 PointerTy)
      (ArrayTy i32 5) i32 true false insideMain = Done (Some v) s' /\
    irInsertBlock (ir s') = Some mergeBB /\
    irBlocks (ir s') !! mergeBB = Some merge /\
    ((signed 32 10 < 0)%Z ->
       exists m',
         steps 6 (ir s') arrayMachine = Running m' /\
         atEndOf m' mergeBB merge /\
         evalValue m' v = Some (RInt 32 0) /\
         mEvents m' = mEvents arrayMachine ++
                      [EvPrintf ("Runtime Error: Array index out of bounds" +:+ NL) []] /\
         mMemory m' = mMemory arrayMachine) /\
    ((0 <= signed 32 10)%Z ->
       let address := PtrMem (inr 0) (0 + signed 32 10 * sizeOf i32) in
       (exists m' ptr load,
          steps 4 (ir s') arrayMachine = Running m' /\
          step (ir s') m' = execInst (ir s') load m' /\
          instOp load = OpLoad i32 ptr /\
          evalValue m' ptr = Some (RPtr address) /\
          mEvents m' = mEvents arrayMachine /\ mMemory m' = mMemory arrayMachine) /\
       (forall region,
          mMemory arrayMachine !! inr 0 = Some region -> regionLive region = true ->
          (regionSize region < 0 + signed 32 10 * sizeOf i32 + sizeOf i32)%Z ->
          exists m', steps 5 (ir s') arrayMachine = Faulted (OutOfBounds address i32) m' /\
                     mEvents m' = mEvents arrayMachine ++ [EvLoad address i32])).
Proof.
  apply (array_index_guard insideMain 15 (mkBasicBlock "entry" (Some mainFunction) [])
           mainFunction (ConstantInt 32 10) (InstValue 3 PointerTy) i32 5 printfFunction
           arrayMachine 10 (RInt 32 0) (inr 0) 0).
  - split; [vm_compute; reflexivity | vm_compute; reflexivity | vm_compute; lia].
  - reflexivity.
  - split; vm_compute; reflexivity.
  - reflexivity.
  - exact I.
  - vm_compute. lia.
  - split; reflexivity.
  - reflexivity.
  - intros m0. reflexivity.
  - vm_compute. reflexivity.
Defined.

(** ** Ownership of strings *)

(** C9 (where the code departs from the claim): the owner of an allocation
    is recorded while lowering, as the SSA value of the allocation.  The
    assignment [s = s + "c"] in the body of a loop is lowered once, with
    [free] of the value [s] owned when the loop was lowered.  At run time
    the first iteration releases that allocation (region 2); the second
    iteration calls [free] on it again, while the string allocated by the
    first iteration (region 3), which [s] owned in between, is still live
    and is never released. *)
Theorem reassignment_in_loop_frees_twice :
  exists m,
    run 200 reassignInLoop = Some (Faulted (UseAfterFree (PtrMem (inr 2) 0)) m) /\
    mEvents m =
      [EvStore (PtrMem (inr 1) 0) (RPtr (PtrMem (inr 2) 0));
       EvStore (PtrMem (inr 0) 0) (RInt 32 0);
       EvLoad (PtrMem (inr 0) 0) i32;
       EvLoad (PtrMem (inr 1) 0) PointerTy;
       EvStore (PtrMem (inr 1) 0) (RPtr (PtrMem (inr 3) 0));
       EvFree (PtrMem (inr 2) 0);
       EvLoad (PtrMem (inr 0) 0) i32;
       EvStore (PtrMem (inr 0) 0) (RInt 32 1);
       EvLoad (PtrMem (inr 0) 0) i32;
       EvLoad (PtrMem (inr 1) 0) PointerTy;
       EvStore (PtrMem (inr 1) 0) (RPtr (PtrMem (inr 4) 0))] /\
    regionLive <$> (mMemory m !! inr 2) = Some false /\
    regionLive <$> (mMemory m !! inr 3) = Some true /\
    (mMemory m !! inr 1) ≫= (fun r => regionCells r !! 0%Z) = Some (RPtr (PtrMem (inr 4) 0)).
Proof.
  eexists. split; [vm_compute; reflexivity|].
  repeat split; vm_compute; reflexivity.
Qed.

(** ** Ownership of strings: one lowering of an assignment *)

(** [freeEach] appends one call of [free] per pointer, in the order of the
    list. *)
Lemma freeEach_at freeFunc l :
  forall s b bb,
    BuilderAt s b bb ->
    exists s' bb',
      freeEach freeFunc l s = Done tt s' /\
      BuilderAt s' b bb' /\
      opsOf bb' = opsOf bb ++ map (fun p => OpCall freeFunc [p]) l /\
      sameTables s s'.
Proof.
  induction l as [|p rest IH]; intros s b bb HB.
  - exists s, bb. cbn. rewrite app_nil_r.
    split; [reflexivity|]. split; [exact HB|]. split; [reflexivity|]. repeat split.
  - cbn [freeEach]. unfold CreateCall.
    destruct (Insert_at s b bb "" (OpCall freeFunc [p]) (ftReturn (fnType freeFunc)) HB)
      as (s1 & Hins & HB1 & Hsame1).
    unfold bind at 1. rewrite Hins.
    destruct (IH s1 b _ HB1) as (s' & bb' & Hrest & HB' & Hops & Hsame).
    exists s', bb'. split; [exact Hrest|]. split; [exact HB'|].
    split; [|eapply sameTables_trans; eassumption].
    rewrite Hops. unfold opsOf. cbn [bbInsts]. rewrite map_app. cbn.
    rewrite <- app_assoc. reflexivity.
Qed.

Lemma eraseFirst_NoDup (x : Value) l : NoDup l -> x ∉ eraseFirst x l.
Proof.
  induction 1 as [|y l Hy Hnd IH]; cbn.
  - apply not_elem_of_nil.
  - destruct (decide (y = x)) as [->|Hne]; [exact Hy|].
    rewrite not_elem_of_cons. split; [congruence | exact IH].
Qed.

Lemma eraseFirst_subseteq (x y : Value) l : y ∈ eraseFirst x l -> y ∈ l.
Proof.
  induction l as [|z l IH]; cbn; [easy|].
  destruct (decide (z = x)).
  - intros H. rewrite elem_of_cons. now right.
  - rewrite !elem_of_cons. intros [->|H]; [now left | right; auto].
Qed.

(** What one lowering of an assignment of a temporary string to a variable
    that owns a string emits (lines 3070-3086 with [trackOwnedString] and
    [clearTempMemory]): the store, one [free] of the string the variable
    owned, and one [free] for each of the other temporaries, the last
    pushed first.  The new string is taken off the temporaries, so no
    [free] of it is emitted, and it is recorded as owned by the variable. *)
Theorem ownership_transfer name alloca value old temps s b bb freeFn :
  BuilderAt s b bb -> declared s "free" freeFn ->
  typeOf value = PointerTy ->
  tempMemoryStack (mem s) = temps -> value ∈ temps -> NoDup temps ->
  ownedStringMemory (mem s) !! name = Some old -> old ∉ temps ->
  exists s' bb',
    storeAndTransferOwnership name alloca value s = Done tt s' /\
    BuilderAt s' b bb' /\
    opsOf bb' = opsOf bb ++
                [OpStore value (allocaValue alloca); OpCall freeFn [old]] ++
                map (fun p => OpCall freeFn [p]) (rev (eraseFirst value temps)) /\
    (value ∉ eraseFirst value temps) /\ (old ∉ eraseFirst value temps) /\
    tempMemoryStack (mem s') = [] /\
    ownedStringMemory (mem s') = <[name := value]> (ownedStringMemory (mem s)).
Proof.
  intros [Hi Hb Hlt] [Hf Hfn] Hty Htemps Hin Hnd Hown Hold.
  destruct s as [[sym lay blk str glb n ins] d sy c [temps0 owned] mo].
  destruct bb as [nm par insts].
  cbn in Hi, Hb, Hlt, Hf, Htemps, Hown |- *. subst ins temps0.
  unfold storeAndTransferOwnership, CreateStore.
  cg_eval. rewrite Hb. cg_eval. rewrite Hty. cbn [isPointerTy].
  unfold tempMemoryStack, mem. cg_unfold.
  rewrite bool_decide_eq_true_2 by exact Hin.
  unfold removeTempMemory, trackOwnedString, freeOwnedString, set_tempMemoryStack,
    set_ownedStringMemory, CreateCall.
  rewrite Hty. cbn [isPointerTy negb].
  cg_eval. unfold ownedStringMemory, tempMemoryStack, mem. cg_unfold.
  rewrite Hown. cg_eval. rewrite Hf. cg_eval.
  assert (Hnew : value ∉ eraseFirst value temps) by (apply eraseFirst_NoDup; exact Hnd).
  assert (Hold' : old ∉ eraseFirst value temps)
    by (intros H; apply Hold; eapply eraseFirst_subseteq; exact H).
  unfold clearTempMemory, tempMemoryStack, mem. cg_unfold.
  destruct (eraseFirst value temps) as [|t0 rest] eqn:Herase.
  - eexists _, _. split; [reflexivity|].
    split; [split; cbn; [reflexivity | apply lookup_insert_eq | lia] |].
    split; [unfold opsOf; cbn; rewrite !map_app; cbn; rewrite <- !app_assoc; reflexivity |].
    split; [exact Hnew|]. split; [exact Hold'|].
    split; [reflexivity|]. cbn. apply insert_delete_eq.
  - rewrite Hf. cg_unfold.
    match goal with
    | |- context [freeEach ?f ?l ?st] =>
        destruct (freeEach_at f l st b
                    (mkBasicBlock nm par
                       ((insts ++ [mkInstruction n "" (OpStore value (allocaValue alloca))]) ++
                        [mkInstruction (S n) "" (OpCall freeFn [old])])))
          as (s' & bb' & Hfree & HB' & Hops & Hsame)
    end.
    { split; cbn; [reflexivity | apply lookup_insert_eq | lia]. }
    rewrite Hfree.
    destruct Hsame as (_ & _ & _ & Hmem & _).
    destruct s' as [i' d' sy' c' me' mo']. cbn in Hmem. subst me'.
    eexists _, bb'. split; [reflexivity|].
    split; [destruct HB'; split; assumption|].
    split.
    { rewrite Hops. unfold opsOf. cbn [bbInsts]. rewrite !map_app. cbn.
      rewrite <- !app_assoc. reflexivity. }
    split; [exact Hnew|]. split; [exact Hold'|].
    split; [reflexivity|]. cbn. apply insert_delete_eq.
Qed.

Lemma ownership_transfer_witness :
  exists s' bb',
    storeAndTransferOwnership "s" (mkAllocaInst 2 PointerTy) (InstValue 7 PointerTy)
      ownsAString = Done tt s' /\
    BuilderAt s' 15 bb' /\
    opsOf bb' = opsOf (mkBasicBlock "entry" (Some mainFunction) []) ++
                [OpStore (InstValue 7 PointerTy) (allocaValue (mkAllocaInst 2 PointerTy));
                 OpCall freeFunction [InstValue 3 PointerTy]] ++
                map (fun p => OpCall freeFunction [p])
                    (rev (eraseFirst (InstValue 7 PointerTy)
                            [InstValue 5 PointerTy; InstValue 7 PointerTy])) /\
    (InstValue 7 PointerTy ∉ eraseFirst (InstValue 7 PointerTy)
                               [InstValue 5 PointerTy; InstValue 7 PointerTy]) /\
    (InstValue 3 PointerTy ∉ eraseFirst (InstValue 7 PointerTy)
                               [InstValue 5 PointerTy; InstValue 7 PointerTy]) /\
    tempMemoryStack (mem s') = [] /\
    ownedStringMemory (mem s') =
      <["s" := InstValue 7 PointerTy]> (ownedStringMemory (mem ownsAString)).
Proof.
  apply (ownership_transfer "s" (mkAllocaInst 2 PointerTy) (InstValue 7 PointerTy)
           (InstValue 3 PointerTy) [InstValue 5 PointerTy; InstValue 7 PointerTy]
           ownsAString 15 (mkBasicBlock "entry" (Some mainFunction) []) freeFunction).
  - split; [vm_compute; reflexivity | vm_compute; reflexivity | vm_compute; lia].
  - split; vm_compute; reflexivity.
  - reflexivity.
  - reflexivity.
  - apply (bool_decide_unpack _). vm_compute. exact I.
  - apply (bool_decide_unpack _). vm_compute. exact I.
  - vm_compute. reflexivity.
  - apply (bool_decide_unpack _). vm_compute. exact I.
Defined.

(** ** [print] without arguments *)

(** C10: [print()] with no argument is lowered, without any diagnostic, to
    exactly one instruction, a call of [printf] whose only argument is a
    string constant holding the single character newline; executing it
    prints that string and nothing else. *)
Theorem print_without_arguments s b bb printfFn m :
  BuilderAt s b bb -> declared s "printf" printfFn -> atEndOf m b bb ->
  exists v s' fmt call m',
    codegenExpr (FunctionCallNode "print" [] None) s = Done (Some v) s' /\
    diag s' = diag s /\
    irStrings (ir s') !! fmt = Some (String (ascii_of_nat 10) "") /\
    instOp call = OpCall printfFn [GlobalString fmt] /\
    irBlocks (ir s') !! b =
      Some (mkBasicBlock (bbName bb) (bbParent bb) (bbInsts bb ++ [call])) /\
    irInsertBlock (ir s') = Some b /\
    steps 1 (ir s') m = Running m' /\
    mEvents m' = mEvents m ++ [EvPrintf (String (ascii_of_nat 10) "") []] /\
    atEndOf m' b (mkBasicBlock (bbName bb) (bbParent bb) (bbInsts bb ++ [call])).
Proof.
  intros [Hi Hb Hlt] [Hp Hpn] [Hmb Hpc].
  destruct s as [[sym lay blk str glb n ins] d sy c me mo].
  destruct bb as [nm par insts].
  cbn in Hi, Hb, Hp, Hlt, Hpc |- *. subst ins.
  unfold codegenFunctionCall, codegenUnqualifiedCall. eval_closed. cbv iota.
  unfold codegenPrint. cg_eval. rewrite Hp. cg_eval. rewrite Hb. cg_eval.
  eexists _, _, _, (mkInstruction _ _ _), _.
  split; [reflexivity|]. split; [reflexivity|].
  cg_unfold.
  assert (Hstr : <[n:=NL]> str !! n = Some (String (ascii_of_nat 10) ""))
    by (rewrite lookup_insert_eq; reflexivity).
  split; [exact Hstr|].
  split; [reflexivity|].
  assert (Hblk : <[b:=mkBasicBlock nm par
                        (insts ++ [mkInstruction (S n) "printcall"
                                     (OpCall printfFn [GlobalString n])])]> blk !! b =
                 Some (mkBasicBlock nm par
                        (insts ++ [mkInstruction (S n) "printcall"
                                     (OpCall printfFn [GlobalString n])])))
    by apply lookup_insert_eq.
  split; [exact Hblk|]. split; [reflexivity|].
  split.
  { cbn [steps]. run_step Hblk. run_printf Hpn Hstr. reflexivity. }
  machine_simpl. split; [reflexivity|]. split; [reflexivity|].
  cbn. rewrite length_app. cbn. lia.
Qed.

Lemma print_without_arguments_witness :
  exists v s' fmt call m',
    codegenExpr (FunctionCallNode "print" [] None) insideMain = Done (Some v) s' /\
    diag s' = diag insideMain /\
    irStrings (ir s') !! fmt = Some (String (ascii_of_nat 10) "") /\
    instOp call = OpCall (mkFunction 0 "printf" (mkFunctionType i32 [PointerTy] true))
                         [GlobalString fmt] /\
    irBlocks (ir s') !! 15 =
      Some (mkBasicBlock "entry"
              (Some (mkFunction 14 "main" (mkFunctionType i32 [] false))) ([] ++ [call])) /\
    irInsertBlock (ir s') = Some 15 /\
    steps 1 (ir s') (machineAt 15 0) = Running m' /\
    mEvents m' = [] ++ [EvPrintf (String (ascii_of_nat 10) "") []] /\
    atEndOf m' 15 (mkBasicBlock "entry"
              (Some (mkFunction 14 "main" (mkFunctionType i32 [] false))) ([] ++ [call])).
Proof.
  apply (print_without_arguments insideMain 15
           (mkBasicBlock "entry" (Some (mkFunction 14 "main" (mkFunctionType i32 [] false))) [])
           (mkFunction 0 "printf" (mkFunctionType i32 [PointerTy] true))
           (machineAt 15 0)).
  - split; [vm_compute; reflexivity | vm_compute; reflexivity | vm_compute; lia].
  - split; vm_compute; reflexivity.
  - split; reflexivity.
Defined.

(** ** Short-circuit evaluation *)

Lemma toBoolCond_i1 v : typeOf v = i1 -> toBoolCond v = ret v.
Proof. intros H. unfold toBoolCond. rewrite H. reflexivity. Qed.

(** Whatever [toBoolCond] gives is of type [bool]. *)
Lemma toBoolCond_type v s c s' : toBoolCond v s = Done c s' -> typeOf c = i1.
Proof.
  unfold toBoolCond.
  destruct s as [[sym lay blk str glb n ins] d sy ct me mo].
  destruct (typeOf v) as [|w| | |] eqn:Hty; cbn [isIntegerTyN isDoubleTy negb].
  - unfold bind, ConstantInt_get, abort. discriminate.
  - destruct (N.eqb w 1) eqn:Hw; cbn [negb].
    + intros [= <- <-]. apply N.eqb_eq in Hw. now subst w.
    + unfold CreateICmpNE, CreateICmp, Insert. cg_unfold.
      destruct ins as [ib|]; cg_unfold.
      * destruct (blk !! ib); cg_unfold; [|discriminate].
        intros [= <- <-]. reflexivity.
      * intros [= <- <-]. reflexivity.
  - unfold CreateFCmpONE, CreateFCmp, Insert. cg_unfold.
    destruct ins as [ib|]; cg_unfold.
    + destruct (blk !! ib); cg_unfold; [|discriminate].
      intros [= <- <-]. reflexivity.
    + intros [= <- <-]. reflexivity.
  - unfold bind, ConstantInt_get, abort. discriminate.
  - unfold bind, ConstantInt_get, abort. discriminate.
Qed.

(** The branch and the merge work on the converted operands. *)
Lemma logicalOpBranch_converted isAnd v s c s' :
  toBoolCond v s = Done c s' ->
  logicalOpBranch isAnd v s = logicalOpBranch isAnd c s'.
Proof.
  intros H. pose proof (toBoolCond_type _ _ _ _ H) as Hty.
  unfold logicalOpBranch. unfold bind at 1. rewrite H.
  rewrite (toBoolCond_i1 c Hty). reflexivity.
Qed.

Lemma logicalOpMerge_converted isAnd function mergeBB leftBB v s c s' :
  toBoolCond v s = Done c s' ->
  logicalOpMerge isAnd function mergeBB leftBB v s =
  logicalOpMerge isAnd function mergeBB leftBB c s'.
Proof.
  intros H. pose proof (toBoolCond_type _ _ _ _ H) as Hty.
  unfold logicalOpMerge. unfold bind at 1. rewrite H.
  rewrite (toBoolCond_i1 c Hty). reflexivity.
Qed.

(** What [logicalOpBranch] emits: the conditional branch at the end of the
    current block, an empty block for the right side with the builder in
    it, and the merge block, still detached and empty. *)
Lemma logicalOpBranch_shape (isAnd : bool) lv s1 b bb f :
  BuilderAt s1 b bb -> bbParent bb = Some f -> typeOf lv = i1 ->
  exists s2,
    logicalOpBranch isAnd lv s1 = Done (Some f, 1 + irNextId (ir s1), b) s2 /\
    BuilderAt s2 (irNextId (ir s1))
      (mkBasicBlock (if isAnd then "and_rhs" else "or_rhs") (Some f) []) /\
    irBlocks (ir s2) !! b =
      Some (mkBasicBlock (bbName bb) (bbParent bb)
              (bbInsts bb ++
               [mkInstruction (2 + irNextId (ir s1)) ""
                  (if isAnd
                   then OpCondBr lv (irNextId (ir s1)) (1 + irNextId (ir s1))
                   else OpCondBr lv (1 + irNextId (ir s1)) (irNextId (ir s1)))])) /\
    irBlocks (ir s2) !! (1 + irNextId (ir s1)) =
      Some (mkBasicBlock (if isAnd then "and_merge" else "or_merge") None []).
Proof.
  intros [Hi Hb Hlt] Hpar Hty.
  destruct s1 as [[sym lay blk str glb n ins] d sy c me mo].
  destruct bb as [nm par insts].
  cbn in Hi, Hb, Hlt, Hpar |- *. subst ins par.
  unfold logicalOpBranch. rewrite (toBoolCond_i1 _ Hty).
  destruct isAnd;
    (repeat (cg_eval; first [rewrite Hb])); cg_eval;
    (eexists; split; [reflexivity|];
     split; [split; cbn [ir irInsertBlock irBlocks irNextId];
             [reflexivity | repeat cg_lookup; reflexivity | lia] |];
     cbn [ir irBlocks];
     split; repeat cg_lookup; reflexivity).
Qed.

(** What [logicalOpMerge] emits: the branch to the merge block at the end
    of the right side, and the merge block, now part of the function, with
    its PHI node. *)
Lemma logicalOpMerge_shape (isAnd : bool) f mergeBB leftBB rv s3 rhsEnd bbEnd mergeName :
  BuilderAt s3 rhsEnd bbEnd -> typeOf rv = i1 ->
  irBlocks (ir s3) !! mergeBB = Some (mkBasicBlock mergeName None []) ->
  rhsEnd <> mergeBB ->
  exists s4,
    logicalOpMerge isAnd (Some f) mergeBB leftBB rv s3 =
      Done (Some (InstValue (1 + irNextId (ir s3)) i1)) s4 /\
    irInsertBlock (ir s4) = Some mergeBB /\
    irBlocks (ir s4) !! mergeBB =
      Some (mkBasicBlock mergeName (Some f)
              [mkInstruction (1 + irNextId (ir s3))
                 (if isAnd then "and_result" else "or_result")
                 (OpPHI i1 [(ConstantInt 1 (shortCircuitValue isAnd), leftBB);
                            (rv, rhsEnd)])]) /\
    irBlocks (ir s4) !! rhsEnd =
      Some (mkBasicBlock (bbName bbEnd) (bbParent bbEnd)
              (bbInsts bbEnd ++ [mkInstruction (irNextId (ir s3)) "" (OpBr mergeBB)])) /\
    (forall k, k <> rhsEnd -> k <> mergeBB ->
               irBlocks (ir s4) !! k = irBlocks (ir s3) !! k).
Proof.
  intros [Hi Hb Hlt] Hty Hm Hne.
  destruct s3 as [[sym lay blk str glb n ins] d sy c me mo].
  destruct bbEnd as [nm par insts].
  cbn in Hi, Hb, Hlt, Hm |- *. subst ins.
  unfold logicalOpMerge. rewrite (toBoolCond_i1 _ Hty).
  destruct isAnd;
    (repeat (cg_eval; first [rewrite Hb | rewrite Hm])); cg_eval;
    unfold ConstantInt_getFalse, ConstantInt_getTrue;
    (eexists; split; [reflexivity|];
     cbn [ir irInsertBlock irBlocks irNextId];
     split; [reflexivity|];
     split; [repeat cg_lookup; cbn; rewrite !decide_True by done; cbn;
             rewrite !decide_True by done; reflexivity |];
     split; [repeat cg_lookup; reflexivity |];
     intros k Hk1 Hk2; repeat cg_lookup; reflexivity).
Qed.

(** C8: lowering [left && right] or [left || right] lowers [left] once,
    into the current block, converts its value to [bool] ([leftCond]; a
    comparison with zero unless the value is a [bool] already) and ends the
    block with a conditional branch on it; [right] is lowered into a block
    of its own, empty before, and converted likewise ([rightCond]); the two
    paths meet in the merge block, where a PHI node is the value of the
    expression.  At run time, when [left] has the truth value on which the
    operator skips its right side (false for [&&], true for [||]), two
    instructions are executed, the branch and the PHI node: control comes to
    the merge block straight from the block of [left], the expression has
    that truth value, and no register but the PHI node's, no memory and no
    event has changed, so nothing of [right] was evaluated.  With the other
    truth value the branch enters the block of [right], and when the code of
    [right] is through, the truth value of [right] is the value of the
    expression.  The hypotheses about [right] say that its lowering
    succeeds and leaves the block of [left] and the merge block as they
    were. *)
Theorem short_circuit_evaluation (isAnd : bool) left right s s0 s1 s2 s3 s4
    lv leftCond rv rightCond b bb f function mergeBB leftBB rhsEnd bbEnd :
  codegenExpr left s = Done (Some lv) s0 ->
  toBoolCond lv s0 = Done leftCond s1 ->
  BuilderAt s1 b bb -> bbParent bb = Some f ->
  logicalOpBranch isAnd lv s0 = Done (function, mergeBB, leftBB) s2 ->
  codegenExpr right s2 = Done (Some rv) s3 ->
  toBoolCond rv s3 = Done rightCond s4 ->
  BuilderAt s4 rhsEnd bbEnd ->
  keepsBlock s2 s4 b -> keepsBlock s2 s4 mergeBB ->
  rhsEnd <> b -> rhsEnd <> mergeBB ->
  exists v s5 rhsBB rhsName merge,
    codegenExpr (BinaryOpNode (logicalOperator isAnd) left right) s = Done (Some v) s5 /\
    BuilderAt s2 rhsBB (mkBasicBlock rhsName (Some f) []) /\
    irInsertBlock (ir s5) = Some mergeBB /\
    irBlocks (ir s5) !! mergeBB = Some merge /\
    (forall m,
       atEndOf m b bb ->
       evalValue m leftCond = Some (RInt 1 (shortCircuitValue isAnd)) ->
       exists m',
         steps 2 (ir s5) m = Running m' /\
         atEndOf m' mergeBB merge /\ mPrev m' = Some b /\
         evalValue m' v = Some (RInt 1 (shortCircuitValue isAnd)) /\
         (exists phi, v = InstValue phi i1 /\
            mRegs m' = <[phi := RInt 1 (shortCircuitValue isAnd)]> (mRegs m)) /\
         mEvents m' = mEvents m /\ mMemory m' = mMemory m) /\
    (forall m,
       atEndOf m b bb ->
       evalValue m leftCond = Some (RInt 1 (1 - shortCircuitValue isAnd)) ->
       exists m',
         steps 1 (ir s5) m = Running m' /\
         mBlock m' = rhsBB /\ mPc m' = 0 /\
         mRegs m' = mRegs m /\ mEvents m' = mEvents m /\ mMemory m' = mMemory m) /\
    (forall m x,
       atEndOf m rhsEnd bbEnd ->
       evalValue m rightCond = Some (RInt 1 x) ->
       exists m',
         steps 2 (ir s5) m = Running m' /\
         atEndOf m' mergeBB merge /\ mPrev m' = Some rhsEnd /\
         evalValue m' v = Some (RInt 1 x) /\
         mEvents m' = mEvents m /\ mMemory m' = mMemory m).
Proof.
  intros Hleft Hlconv HB1 Hpar Hbranch Hright Hrconv HB4 Hkb Hkm Hneb Hnem.
  pose proof (toBoolCond_type _ _ _ _ Hlconv) as Hlty.
  pose proof (toBoolCond_type _ _ _ _ Hrconv) as Hrty.
  destruct (logicalOpBranch_shape isAnd leftCond s1 b bb f HB1 Hpar Hlty)
    as (s2' & Hbranch' & HB2 & Hb2 & Hm2).
  rewrite (logicalOpBranch_converted isAnd lv s0 leftCond s1 Hlconv) in Hbranch.
  rewrite Hbranch in Hbranch'. injection Hbranch' as -> -> -> <-.
  rewrite <- (logicalOpBranch_converted isAnd lv s0 leftCond s1 Hlconv) in Hbranch.
  set (n := irNextId (ir s1)) in *.
  cbn [Nat.add] in *.
  assert (Hbn : b < n) by (destruct HB1; assumption).
  unfold keepsBlock in Hkb, Hkm. rewrite Hb2 in Hkb. rewrite Hm2 in Hkm.
  destruct (logicalOpMerge_shape isAnd f (S n) b rightCond s4 rhsEnd bbEnd _
              HB4 Hrty Hkm Hnem)
    as (s5 & Hmerge & Hins5 & Hm5 & Hend5 & Hframe).
  rewrite <- (logicalOpMerge_converted isAnd (Some f) (S n) b rv s3 rightCond s4 Hrconv)
    in Hmerge.
  assert (Hb5 : irBlocks (ir s5) !! b =
                Some (mkBasicBlock (bbName bb) (bbParent bb)
                        (bbInsts bb ++
                         [mkInstruction (S (S n)) ""
                            (if isAnd then OpCondBr leftCond n (S n)
                             else OpCondBr leftCond (S n) n)]))).
  { rewrite Hframe by (first [lia | congruence]). exact Hkb. }
  eexists _, s5, n, _, _.
  split.
  { cbn [codegenExpr]. unfold codegenBinaryOp, codegenLogicalOp, logicalOperator.
    destruct isAnd; cg_pure; rewrite Hleft; cg_pure; rewrite Hbranch; cg_pure;
      rewrite Hright; cg_pure; rewrite Hmerge; reflexivity. }
  split; [exact HB2|]. split; [exact Hins5|]. split; [exact Hm5|].
  split; [|split].
  - intros m [Hmb Hpc] Hev. eexists. split.
    { cbn [steps]. run_step Hb5.
      destruct isAnd; cbn [shortCircuitValue] in Hev |- *; machine_simpl; rewrite Hev;
        [rewrite bool_decide_true by done | rewrite bool_decide_false by done];
        machine_simpl;
        run_step Hm5; cbn [phiIncoming mbind option_bind]; rewrite decide_True by done;
        cbn [mbind option_bind evalValue]; reflexivity. }
    machine_simpl. split; [split; reflexivity|]. split; [reflexivity|].
    split. { cbn [evalValue]. machine_simpl. apply lookup_insert_eq. }
    split; [eexists; split; reflexivity|]. split; reflexivity.
  - intros m [Hmb Hpc] Hev. eexists. split.
    { cbn [steps]. run_step Hb5.
      destruct isAnd; cbn [shortCircuitValue] in Hev |- *; machine_simpl; rewrite Hev;
        [rewrite bool_decide_false by done | rewrite bool_decide_true by done];
        machine_simpl; reflexivity. }
    machine_simpl. repeat split; reflexivity.
  - intros m x [Hmb Hpc] Hev. eexists. split.
    { cbn [steps]. run_step Hend5.
      run_step Hm5. cbn [phiIncoming mbind option_bind].
      rewrite decide_False by congruence. rewrite decide_True by done.
      cbn [mbind option_bind].
      erewrite evalValue_regs; [rewrite Hev; reflexivity | reflexivity | reflexivity]. }
    machine_simpl. split; [split; reflexivity|]. split; [reflexivity|].
    split. { cbn [evalValue]. machine_simpl. apply lookup_insert_eq. }
    split; reflexivity.
Qed.

Lemma short_circuit_evaluation_witness :
  exists v s5 rhsBB rhsName merge,
    codegenExpr (BinaryOpNode (logicalOperator true) (IntLiteralNode 0) oneIsOne)
      insideMain = Done (Some v) s5 /\
    BuilderAt branchEmitted rhsBB (mkBasicBlock rhsName (Some mainFunction) []) /\
    irInsertBlock (ir s5) = Some 18 /\
    irBlocks (ir s5) !! 18 = Some merge /\
    (forall m,
       atEndOf m 15
         (mkBasicBlock "entry" (Some mainFunction)
            [mkInstruction 16 "tobool"
               (OpICmp ICMP_NE (ConstantInt 32 0) (ConstantInt 32 0))]) ->
       evalValue m (InstValue 16 i1) = Some (RInt 1 (shortCircuitValue true)) ->
       exists m',
         steps 2 (ir s5) m = Running m' /\
         atEndOf m' 18 merge /\ mPrev m' = Some 15 /\
         evalValue m' v = Some (RInt 1 (shortCircuitValue true)) /\
         (exists phi, v = InstValue phi i1 /\
            mRegs m' = <[phi := RInt 1 (shortCircuitValue true)]> (mRegs m)) /\
         mEvents m' = mEvents m /\ mMemory m' = mMemory m) /\
    (forall m,
       atEndOf m 15
         (mkBasicBlock "entry" (Some mainFunction)
            [mkInstruction 16 "tobool"
               (OpICmp ICMP_NE (ConstantInt 32 0) (ConstantInt 32 0))]) ->
       evalValue m (InstValue 16 i1) = Some (RInt 1 (1 - shortCircuitValue true)) ->
       exists m',
         steps 1 (ir s5) m = Running m' /\
         mBlock m' = rhsBB /\ mPc m' = 0 /\
         mRegs m' = mRegs m /\ mEvents m' = mEvents m /\ mMemory m' = mMemory m) /\
    (forall m x,
       atEndOf m 17
         (mkBasicBlock "and_rhs" (Some mainFunction)
            [mkInstruction 20 "eqtmp"
               (OpICmp ICMP_EQ (ConstantInt 32 1) (ConstantInt 32 1))]) ->
       evalValue m (InstValue 20 i1) = Some (RInt 1 x) ->
       exists m',
         steps 2 (ir s5) m = Running m' /\
         atEndOf m' 18 merge /\ mPrev m' = Some 17 /\
         evalValue m' v = Some (RInt 1 x) /\
         mEvents m' = mEvents m /\ mMemory m' = mMemory m).
Proof.
  apply (short_circuit_evaluation true (IntLiteralNode 0) oneIsOne
           insideMain insideMain leftConverted branchEmitted rightLowered rightLowered
           (ConstantInt 32 0) (InstValue 16 i1) (InstValue 20 i1) (InstValue 20 i1)
           15 (mkBasicBlock "entry" (Some mainFunction)
                 [mkInstruction 16 "tobool"
                    (OpICmp ICMP_NE (ConstantInt 32 0) (ConstantInt 32 0))])
           mainFunction (Some mainFunction) 18 15 17
           (mkBasicBlock "and_rhs" (Some mainFunction)
              [mkInstruction 20 "eqtmp"
                 (OpICmp ICMP_EQ (ConstantInt 32 1) (ConstantInt 32 1))])).
  - vm_compute. reflexivity.
  - vm_compute. reflexivity.
  - split; [vm_compute; reflexivity | vm_compute; reflexivity | vm_compute; lia].
  - reflexivity.
  - vm_compute. reflexivity.
  - vm_compute. reflexivity.
  - vm_compute. reflexivity.
  - split; [vm_compute; reflexivity | vm_compute; reflexivity | vm_compute; lia].
  - vm_compute. reflexivity.
  - vm_compute. reflexivity.
  - discriminate.
  - discriminate.
Defined.



(** ** Modules *)

Lemma findModuleFile_pure fileExists moduleName s :
  exists path, findModuleFile fileExists moduleName s = Done path s.
Proof.
  unfold findModuleFile, bind, gets, ret.
  repeat match goal with
         | |- context [if ?c then _ else _] => destruct c
         end; eexists; reflexivity.
Qed.

(** A load that succeeds leaves the module in the loaded set. *)
Lemma loadModule_records cg fileExists openAndParse moduleName s s0 :
  loadModule cg fileExists openAndParse moduleName s = Done true s0 ->
  moduleName ∈ loadedModules (mods s0).
Proof.
  unfold loadModule.
  unfold bind at 1. unfold gets at 1.
  destruct (bool_decide (moduleName ∈ loadedModules (mods s))) eqn:Hin.
  - intros [= <-]. now apply bool_decide_eq_true in Hin.
  - unfold bind at 1.
    destruct (findModuleFile_pure fileExists moduleName s) as [path ->].
    destruct (streq path "").
    + unfold bind, cerrLine, modify, ret. discriminate.
    + destruct (openAndParse path) as [| |moduleRoot].
      * unfold bind, cerrLine, modify, ret. discriminate.
      * unfold bind, cerrLine, modify, ret. discriminate.
      * unfold bind at 1. unfold modify at 1. unfold bind at 1.
        match goal with
        | |- context [loadModuleStatements ?a ?b ?c ?d] =>
            destruct (loadModuleStatements a b c d) as [u s''|why]
        end; [|discriminate].
        unfold bind, modify, ret. intros [= <-].
        destruct s'' as [i d sy c me [lm al mf mg cd sd]]. cbn.
        set_solver.
Qed.



Lemma bind_inv {A B} (c : CG A) (k : A -> CG B) s r s' :
  bind c k s = Done r s' -> exists a s1, c s = Done a s1 /\ k a s1 = Done r s'.
Proof.
  unfold bind. destruct (c s) as [a s1|why]; [|discriminate].
  intros H. now exists a, s1.
Qed.

Ltac invert_bind H :=
  let a := fresh "a" in
  let s1 := fresh "s" in
  let H1 := fresh "Hstep" in
  apply bind_inv in H; destruct H as (a & s1 & H1 & H).

(** A function declaration that is lowered ends up in [functions]. *)
Lemma codegenFunctionDecl_registers cg name parameters returnType body s s' :
  mjoin (irSymbols (ir s) !! name) = None ->
  codegenFunctionDecl cg name parameters returnType body s = Done tt s' ->
  is_Some (functions (syms s') !! name).
Proof.
  intros Hfree H. unfold codegenFunctionDecl in H.
  invert_bind H. unfold Module_getFunction, gets in Hstep.
  injection Hstep as <- <-. rewrite Hfree in H.
  do 10 invert_bind H.
  unfold finishFunctionDecl in H.
  do 3 invert_bind H.
  unfold modify in H. injection H as <-.
  unfold set_functions, set_syms. cbn [syms functions].
  rewrite lookup_insert_eq. eauto.
Qed.




(** ** What every lowering function keeps *)

Lemma Advances_refl s : Advances s s.
Proof. split; reflexivity || lia || done. Qed.

Lemma Advances_trans s1 s2 s3 : Advances s1 s2 -> Advances s2 s3 -> Advances s1 s3.
Proof.
  intros [] []. split; try congruence; try lia; etrans; eassumption.
Qed.

Lemma Advances_Grows s s' : Advances s s' -> Grows s s'.
Proof. intros []. split; assumption. Qed.

Lemma Grows_refl s : Grows s s.
Proof. split; reflexivity || lia || done. Qed.

Lemma Grows_trans s1 s2 s3 : Grows s1 s2 -> Grows s2 s3 -> Grows s1 s3.
Proof.
  intros [] []. split; try congruence; try lia; etrans; eassumption.
Qed.

Lemma adv_ret {A} (a : A) : advancing (ret a).
Proof. intros s x s' [= _ <-]. apply Advances_refl. Qed.

Lemma adv_abort {A} why : advancing (@abort A why).
Proof. intros s x s' [=]. Qed.

Lemma adv_gets {A} (f : CodeGenerator -> A) : advancing (gets f).
Proof. intros s x s' [= _ <-]. apply Advances_refl. Qed.

Lemma adv_get : advancing get.
Proof. intros s x s' [= _ <-]. apply Advances_refl. Qed.

Lemma adv_bind {A B} (c : CG A) (k : A -> CG B) :
  advancing c -> (forall a, advancing (k a)) -> advancing (bind c k).
Proof.
  intros Hc Hk s b s' H. apply bind_inv in H as (a & s1 & H1 & H2).
  eapply Advances_trans; [eapply Hc | eapply Hk]; eassumption.
Qed.

Lemma adv_modify f : (forall s, Advances s (f s)) -> advancing (modify f).
Proof. intros Hf s x s' [= _ <-]. apply Hf. Qed.

(** The state after an update of one member. *)
Ltac adv_update :=
  intros;
  repeat match goal with s : CodeGenerator |- _ =>
    destruct s as [[sym lay blk str glb n ins] [ec wc ce] [nv gv fs vt] [cf ls gi] [tm os]
                     [lm ma mf mg cd sd]] end;
  split; cbn; try reflexivity; try lia; try done; try (now apply prefix_app_r);
  try set_solver.

Lemma adv_modify_ir f :
  (forall m, irNextId m <= irNextId (f m) /\ irSymbols m ⊆ irSymbols (f m)) ->
  advancing (modify_ir f).
Proof.
  intros Hf. apply adv_modify. intros s. destruct (Hf (ir s)).
  split; cbn; try reflexivity; try lia; try done.
Qed.

Lemma adv_freshId : advancing freshId.
Proof. intros s x s' [= _ <-]. adv_update. Qed.

Lemma adv_GetInsertBlock : advancing GetInsertBlock.
Proof.
  intros s x s'. unfold GetInsertBlock. destruct (irInsertBlock (ir s)); intros [= _ <-].
  apply Advances_refl.
Qed.

Lemma adv_getBlock b : advancing (getBlock b).
Proof.
  intros s x s'. unfold getBlock. destruct (irBlocks (ir s) !! b); intros [= _ <-].
  apply Advances_refl.
Qed.

Lemma adv_setBlock b bb : advancing (setBlock b bb).
Proof. apply adv_modify_ir. intros m. split; cbn; done. Qed.

Lemma adv_SetInsertPoint b : advancing (SetInsertPoint b).
Proof. apply adv_modify_ir. intros m. split; cbn; done. Qed.

Lemma adv_cerrLine msg : advancing (cerrLine msg).
Proof. apply adv_modify. adv_update. Qed.

Lemma adv_incrErrorCount : advancing incrErrorCount.
Proof. apply adv_modify. adv_update. Qed.

Lemma adv_namedValues_at name : advancing (namedValues_at name).
Proof.
  intros s x s'. unfold namedValues_at.
  destruct (namedValues (syms s) !! name); intros [= _ <-];
    [apply Advances_refl | adv_update].
Qed.

Lemma adv_globalValues_at name : advancing (globalValues_at name).
Proof.
  intros s x s'. unfold globalValues_at.
  destruct (globalValues (syms s) !! name); intros [= _ <-];
    [apply Advances_refl | adv_update].
Qed.

Create HintDb adv discriminated.
#[local] Hint Resolve adv_ret adv_abort adv_gets adv_get adv_freshId adv_GetInsertBlock
  adv_getBlock adv_setBlock adv_SetInsertPoint adv_cerrLine adv_incrErrorCount
  adv_namedValues_at adv_globalValues_at : adv.

Ltac head_of t := lazymatch t with ?f _ => head_of f | _ => t end.

(** A recursive call on a part of the node. *)
Ltac adv_part :=
  first [ assumption
        | cbn [esize ssize]; lia
        | cbn [In]; tauto ].

(** One step through the text of a function. *)
Ltac adv_step :=
  first
    [ assumption
    | lazymatch goal with
      | |- advancing (bind _ _) => apply adv_bind; [|intros ?]
      | |- advancing (if ?c then _ else _) => destruct c
      | |- advancing (match ?x with _ => _ end) => destruct x
      | |- advancing (modify _) => apply adv_modify; adv_update
      | |- advancing (modify_ir _) => apply adv_modify_ir; intros ?; split; cbn; done
      end
    | match goal with
      | H : forall e, _ -> advancing (?cg e) |- advancing (?cg ?x) => apply H; adv_part
      | H : forall e, advancing (?cg e) |- advancing (?cg ?x) => apply H
      end
    | lazymatch goal with
      | |- advancing ?c =>
          first [ solve [eauto with adv]
                | let h := head_of c in progress unfold h ]
      end ].
Ltac adv_auto := cbv zeta; repeat (adv_step; cbv zeta).

Lemma adv_getParent b : advancing (getParent b).
Proof. unfold getParent. adv_auto. Qed.
#[local] Hint Resolve adv_getParent : adv.

Lemma adv_Function_insert f b : advancing (Function_insert f b).
Proof. unfold Function_insert. adv_auto. Qed.
#[local] Hint Resolve adv_Function_insert : adv.

Lemma adv_Function_insertTo f b : advancing (Function_insertTo f b).
Proof. unfold Function_insertTo. adv_auto. Qed.
#[local] Hint Resolve adv_Function_insertTo : adv.

Lemma adv_BasicBlock_Create name f : advancing (BasicBlock_Create name f).
Proof. unfold BasicBlock_Create. adv_auto. Qed.
#[local] Hint Resolve adv_BasicBlock_Create : adv.

Lemma adv_Insert name op ty : advancing (Insert name op ty).
Proof. unfold Insert. adv_auto. Qed.
#[local] Hint Resolve adv_Insert : adv.

Lemma adv_insertBlockTerminator : advancing insertBlockTerminator.
Proof. unfold insertBlockTerminator. adv_auto. Qed.
#[local] Hint Resolve adv_insertBlockTerminator : adv.

Lemma adv_ConstantInt_get t v : advancing (ConstantInt_get t v).
Proof. unfold ConstantInt_get. adv_auto. Qed.
#[local] Hint Resolve adv_ConstantInt_get : adv.

Lemma adv_CreateCast op v dest name : advancing (CreateCast op v dest name).
Proof. unfold CreateCast. adv_auto. Qed.
#[local] Hint Resolve adv_CreateCast : adv.

Lemma adv_CreateBinOp op l r name : advancing (CreateBinOp op l r name).
Proof. unfold CreateBinOp. adv_auto. Qed.
#[local] Hint Resolve adv_CreateBinOp : adv.

Lemma adv_CreateICmp p l r name : advancing (CreateICmp p l r name).
Proof. unfold CreateICmp. adv_auto. Qed.
Lemma adv_CreateFCmp p l r name : advancing (CreateFCmp p l r name).
Proof. unfold CreateFCmp. adv_auto. Qed.
Lemma adv_CreateCall f args name : advancing (CreateCall f args name).
Proof. unfold CreateCall. adv_auto. Qed.
Lemma adv_CreateCallTo f args name : advancing (CreateCallTo f args name).
Proof. unfold CreateCallTo. adv_auto. Qed.
Lemma adv_CreateLoad t p name : advancing (CreateLoad t p name).
Proof. unfold CreateLoad. adv_auto. Qed.
Lemma adv_CreateStore v p : advancing (CreateStore v p).
Proof. unfold CreateStore. adv_auto. Qed.
Lemma adv_CreateGEP t p idx name : advancing (CreateGEP t p idx name).
Proof. unfold CreateGEP. adv_auto. Qed.
Lemma adv_CreateBr d : advancing (CreateBr d).
Proof. unfold CreateBr. adv_auto. Qed.
Lemma adv_CreateCondBr c a b : advancing (CreateCondBr c a b).
Proof. unfold CreateCondBr. adv_auto. Qed.
Lemma adv_CreatePHI t name : advancing (CreatePHI t name).
Proof. unfold CreatePHI. adv_auto. Qed.
Lemma adv_addIncoming phi v from : advancing (addIncoming phi v from).
Proof. unfold addIncoming. adv_auto. Qed.
Lemma adv_CreateGlobalString str : advancing (CreateGlobalString str).
Proof. unfold CreateGlobalString. adv_auto. Qed.
Lemma adv_Module_getFunction name : advancing (Module_getFunction name).
Proof. unfold Module_getFunction. adv_auto. Qed.
#[local] Hint Resolve adv_CreateICmp adv_CreateFCmp adv_CreateCall adv_CreateCallTo
  adv_CreateLoad adv_CreateStore adv_CreateGEP adv_CreateBr adv_CreateCondBr adv_CreatePHI
  adv_addIncoming adv_CreateGlobalString adv_Module_getFunction : adv.

(** A function or a global is entered in the module's symbol table under
    its name only when the name is free. *)
Lemma adv_Function_Create ft name : advancing (Function_Create ft name).
Proof.
  intros s f s' H. unfold Function_Create in H.
  apply bind_inv in H as (id & s1 & H1 & H).
  apply bind_inv in H as (taken & s2 & [= <- <-] & H).
  apply bind_inv in H as ([] & s3 & [= <-] & [= _ <-]).
  injection H1 as <- <-.
  destruct s as [[sym lay blk str glb n ins] [ec wc ce] [nv gv fs vt] [cf ls gi] [tm os]
                   [lm ma mf mg cd sd]].
  cbn. destruct (sym !! name) eqn:Hfree; split; cbn; try reflexivity; try lia; try done.
  now apply insert_subseteq.
Qed.

Lemma adv_GlobalVariable_new t isConstant init name :
  advancing (GlobalVariable_new t isConstant init name).
Proof.
  intros s f s' H. unfold GlobalVariable_new in H.
  apply bind_inv in H as (id & s1 & H1 & H).
  apply bind_inv in H as (taken & s2 & [= <- <-] & H).
  apply bind_inv in H as ([] & s3 & [= <-] & [= _ <-]).
  injection H1 as <- <-.
  destruct s as [[sym lay blk str glb n ins] [ec wc ce] [nv gv fs vt] [cf ls gi] [tm os]
                   [lm ma mf mg cd sd]].
  cbn. destruct (sym !! name) eqn:Hfree; split; cbn; try reflexivity; try lia; try done.
  now apply insert_subseteq.
Qed.
#[local] Hint Resolve adv_Function_Create adv_GlobalVariable_new : adv.

Lemma adv_reportError msg line : advancing (reportError msg line).
Proof. unfold reportError. adv_auto. Qed.

Lemma adv_pushTempMemory p : advancing (pushTempMemory p).
Proof. unfold pushTempMemory. adv_auto. Qed.
Lemma adv_removeTempMemory p : advancing (removeTempMemory p).
Proof. unfold removeTempMemory. adv_auto. Qed.
Lemma adv_freeEach f l : advancing (freeEach f l).
Proof. induction l; cbn [freeEach]; adv_auto. Qed.
#[local] Hint Resolve adv_pushTempMemory adv_removeTempMemory adv_freeEach : adv.
Lemma adv_clearTempMemory : advancing clearTempMemory.
Proof. unfold clearTempMemory. adv_auto. Qed.
Lemma adv_freeOwnedString name : advancing (freeOwnedString name).
Proof. unfold freeOwnedString. adv_auto. Qed.
#[local] Hint Resolve adv_clearTempMemory adv_freeOwnedString : adv.
Lemma adv_trackOwnedString name p : advancing (trackOwnedString name p).
Proof. unfold trackOwnedString. adv_auto. Qed.
Lemma adv_getType name : advancing (getType name).
Proof. unfold getType. adv_auto. Qed.
Lemma adv_createEntryBlockAlloca f name t : advancing (createEntryBlockAlloca f name t).
Proof. unfold createEntryBlockAlloca. adv_auto. Qed.
Lemma adv_convertIntToInt v t : advancing (convertIntToInt v t).
Proof. unfold convertIntToInt. adv_auto. Qed.
#[local] Hint Resolve adv_trackOwnedString adv_getType adv_createEntryBlockAlloca
  adv_convertIntToInt : adv.
Lemma adv_convertToType v t : advancing (convertToType v t).
Proof. unfold convertToType. adv_auto. Qed.
Lemma adv_createDivisionWithZeroCheck l r msg i :
  advancing (createDivisionWithZeroCheck l r msg i).
Proof. unfold createDivisionWithZeroCheck. adv_auto. Qed.
Lemma adv_createModuloWithZeroCheck l r msg : advancing (createModuloWithZeroCheck l r msg).
Proof. unfold createModuloWithZeroCheck. adv_auto. Qed.
Lemma adv_codegenIdentifier name line : advancing (codegenIdentifier name line).
Proof. unfold codegenIdentifier. adv_auto. Qed.
Lemma adv_toBoolCond v : advancing (toBoolCond v).
Proof. unfold toBoolCond. adv_auto. Qed.
#[local] Hint Resolve adv_convertToType adv_createDivisionWithZeroCheck
  adv_createModuloWithZeroCheck adv_codegenIdentifier adv_toBoolCond : adv.

Lemma adv_forEach {A Acc R} (body : Acc -> A -> CG (R + Acc)) acc l :
  (forall acc x, In x l -> advancing (body acc x)) -> advancing (forEach body acc l).
Proof.
  revert acc. induction l as [|x l IH]; intros acc Hbody; cbn [forEach].
  - apply adv_ret.
  - apply adv_bind; [apply Hbody; now left|].
    intros [r|acc']; [apply adv_ret|]. apply IH. intros; apply Hbody. now right.
Qed.

Lemma esize_In x args : In x args ->
  esize x <= (fix sizes (l : list ExprNode) : nat :=
                match l with [] => 0 | a :: rest => esize a + sizes rest end) args.
Proof.
  induction args as [|a args IH]; intros Hin; [destruct Hin|].
  destruct Hin as [->|Hin]; [lia|]. specialize (IH Hin). lia.
Qed.

Section ExpressionsAdvance.

Variable cgE : ExprNode -> CG (option Value).

Lemma adv_logicalOpBranch isAnd v : advancing (logicalOpBranch isAnd v).
Proof. unfold logicalOpBranch. adv_auto. Qed.
Lemma adv_logicalOpMerge isAnd f m l v : advancing (logicalOpMerge isAnd f m l v).
Proof. unfold logicalOpMerge. adv_auto. Qed.
Lemma adv_binaryOpOnValues op l r : advancing (binaryOpOnValues op l r).
Proof. unfold binaryOpOnValues. adv_auto. Qed.

Lemma adv_codegenBinaryOp op l r :
  advancing (cgE l) -> advancing (cgE r) -> advancing (codegenBinaryOp cgE op l r).
Proof.
  intros Hl Hr. unfold codegenBinaryOp, codegenLogicalOp.
  pose proof adv_logicalOpBranch. pose proof adv_logicalOpMerge.
  pose proof adv_binaryOpOnValues. adv_auto.
Qed.

Lemma adv_codegenUnaryOp op e : advancing (cgE e) -> advancing (codegenUnaryOp cgE op e).
Proof. intros He. unfold codegenUnaryOp. adv_auto. Qed.

Lemma adv_codegenFunctionCall f args obj :
  (forall a, In a args -> advancing (cgE a)) ->
  advancing (codegenFunctionCall cgE f args obj).
Proof.
  intros Hargs.
  assert (Hmod : forall g, advancing (codegenModuleCall cgE g args)).
  { intros g. unfold codegenModuleCall. apply adv_bind.
    - apply adv_forEach. intros acc x Hin. specialize (Hargs x Hin). adv_auto.
    - intros ?. adv_auto. }
  assert (Hplain : advancing (codegenPlainCall cgE f args)).
  { unfold codegenPlainCall. apply adv_bind; [adv_auto|]. intros [callee|]; [|adv_auto].
    destruct (_ && _); [adv_auto|]. destruct (_ && _); [adv_auto|].
    apply adv_bind.
    - apply adv_forEach. intros acc x Hin. specialize (Hargs x Hin). adv_auto.
    - intros ?. adv_auto. }
  assert (Hun : advancing (codegenUnqualifiedCall cgE f args)).
  { unfold codegenUnqualifiedCall, codegenPrint, codegenInput, codegenLen, codegenToInt,
      codegenToDouble, codegenToString, codegenFree.
    adv_auto. }
  unfold codegenFunctionCall, findModuleFunction. adv_auto.
Qed.

Lemma adv_boundsCheckedAccess i p at_ et v st :
  advancing (boundsCheckedAccess i p at_ et v st).
Proof. unfold boundsCheckedAccess. adv_auto. Qed.

Lemma adv_collectIndices current acc :
  (forall e, esize e < esize current -> advancing (cgE e)) ->
  advancing (collectIndices cgE current acc).
Proof.
  revert acc. induction current; intros acc Hsub; cbn [collectIndices]; try apply adv_ret.
  apply adv_bind; [apply Hsub; cbn [esize]; lia|].
  intros [v|]; [|apply adv_ret].
  destruct current1;
    try (apply IHcurrent1; intros e He; apply Hsub; cbn [esize] in *; lia);
    adv_auto.
Qed.

Lemma adv_descendDimensions idx p t : advancing (descendDimensions idx p t).
Proof.
  revert p t. induction idx as [|i idx IH]; intros p t; cbn [descendDimensions];
    [apply adv_ret|].
  destruct idx; [apply adv_ret|]. destruct t; adv_auto.
Qed.

Lemma adv_codegenArrayAccess a i :
  (forall e, esize e < esize (ArrayAccessNode a i) -> advancing (cgE e)) ->
  advancing (codegenArrayAccess cgE a i).
Proof.
  intros Hsub. unfold codegenArrayAccess.
  assert (Hcol : forall acc, advancing (collectIndices cgE a acc)).
  { intros acc. apply adv_collectIndices. intros e He. apply Hsub. cbn [esize]. lia. }
  pose proof adv_descendDimensions. pose proof adv_boundsCheckedAccess.
  assert (Hi : advancing (cgE i)) by (apply Hsub; cbn [esize]; lia).
  adv_auto.
Qed.

Lemma adv_codegenMemberAccess o m : advancing (codegenMemberAccess o m).
Proof. unfold codegenMemberAccess, findModuleGlobal. adv_auto. Qed.

End ExpressionsAdvance.

Lemma adv_codegenExpr e : advancing (codegenExpr e).
Proof.
  remember (S (esize e)) as n eqn:Hn. assert (Hlt : esize e < n) by lia. clear Hn.
  revert e Hlt. induction n as [|n IH]; intros e Hlt; [lia|].
  destruct e; cbn [codegenExpr].
  1-5: unfold codegenIntLiteral, codegenDoubleLiteral, codegenStringLiteral,
         codegenCharLiteral, codegenBoolLiteral; adv_auto.
  - apply adv_codegenIdentifier.
  - cbn [esize] in Hlt. apply adv_codegenBinaryOp; apply IH; lia.
  - cbn [esize] in Hlt. apply adv_codegenUnaryOp; apply IH; lia.
  - apply adv_codegenFunctionCall. intros a Hin. apply IH.
    pose proof (esize_In a arguments Hin). cbn [esize] in Hlt. lia.
  - apply adv_codegenArrayAccess. intros e He. apply IH. lia.
  - apply adv_codegenMemberAccess.
Qed.
#[local] Hint Resolve adv_codegenExpr : adv.

Lemma adv_bind_inv {A B} (c : CG A) (k : A -> CG B) s r s' :
  advancing c -> bind c k s = Done r s' ->
  exists a s1, Advances s s1 /\ k a s1 = Done r s'.
Proof.
  intros Hc H. apply bind_inv in H as (a & s1 & H1 & H2).
  exists a, s1. split; [eapply Hc; eassumption | assumption].
Qed.

(** The chain of states a function went through. *)
Ltac adv_chain :=
  repeat first [ eassumption | apply Advances_refl
               | eapply Advances_trans; [eassumption|] ].

Lemma ssize_In x stmts : In x stmts ->
  ssize x <= (fix sizes (l : list StmtNode) : nat :=
                match l with [] => 0 | a :: rest => ssize a + sizes rest end) stmts.
Proof.
  induction stmts as [|a stmts IH]; intros Hin; [destruct Hin|].
  destruct Hin as [->|Hin]; [lia|]. specialize (IH Hin). lia.
Qed.

Lemma adv_deferGlobalInitializer name type isConst init :
  advancing (deferGlobalInitializer name type isConst init).
Proof. unfold deferGlobalInitializer. adv_auto. Qed.
#[local] Hint Resolve adv_deferGlobalInitializer : adv.

Lemma adv_globalInitialValue name type isConst init :
  advancing (globalInitialValue name type isConst init).
Proof. unfold globalInitialValue, ConstantFP_get. adv_auto. Qed.
#[local] Hint Resolve adv_globalInitialValue : adv.

Lemma adv_codegenVarDecl isConst name type init :
  advancing (codegenVarDecl isConst name type init).
Proof. unfold codegenVarDecl. adv_auto. Qed.

Lemma adv_compoundAssignOnVariable op o v : advancing (compoundAssignOnVariable op o v).
Proof.
  unfold compoundAssignOnVariable, divAssignWithZeroCheck, floorDivAssignWithZeroCheck,
    modAssignWithZeroCheck.
  adv_auto.
Qed.

Lemma adv_codegenAssignment target op value : advancing (codegenAssignment target op value).
Proof.
  pose proof adv_compoundAssignOnVariable.
  unfold codegenAssignment, compoundAssignOnElement, storeAndTransferOwnership. adv_auto.
Qed.

Lemma adv_codegenBreakStmt : advancing codegenBreakStmt.
Proof. unfold codegenBreakStmt. adv_auto. Qed.
Lemma adv_codegenContinueStmt : advancing codegenContinueStmt.
Proof. unfold codegenContinueStmt. adv_auto. Qed.
Lemma adv_codegenReturnStmt v : advancing (codegenReturnStmt v).
Proof. unfold codegenReturnStmt. adv_auto. Qed.
Lemma adv_codegenExprStmt e : advancing (codegenExprStmt e).
Proof. unfold codegenExprStmt. adv_auto. Qed.
#[local] Hint Resolve adv_codegenVarDecl adv_codegenAssignment adv_codegenBreakStmt
  adv_codegenContinueStmt adv_codegenReturnStmt adv_codegenExprStmt : adv.

Section StatementsAdvance.

Variable cgS : StmtNode -> CG unit.
Variable fileExists : string -> bool.
Variable openAndParse : string -> ParseOutcome.

Lemma adv_codegenStatements stmts :
  (forall x, In x stmts -> advancing (cgS x)) -> advancing (codegenStatements cgS stmts).
Proof.
  induction stmts as [|x stmts IH]; intros H; cbn [codegenStatements]; [apply adv_ret|].
  apply adv_bind; [apply H; now left|]. intros _. apply IH. intros; apply H. now right.
Qed.

Lemma adv_codegenBlock stmts :
  (forall x, In x stmts -> advancing (cgS x)) -> advancing (codegenBlock cgS stmts).
Proof. intros H. pose proof (adv_codegenStatements stmts H). unfold codegenBlock. adv_auto. Qed.

Lemma adv_codegenIfStmt c t e :
  advancing (cgS t) -> (forall x, e = Some x -> advancing (cgS x)) ->
  advancing (codegenIfStmt cgS c t e).
Proof.
  intros Ht He. unfold codegenIfStmt.
  destruct e as [elseStmt|]; [specialize (He _ eq_refl)|clear He]; adv_auto.
Qed.

(** The loop context pushed by [while] is popped when the loop has been
    lowered, on both ways out. *)
Lemma adv_codegenWhileStmt c b : advancing (cgS b) -> advancing (codegenWhileStmt cgS c b).
Proof.
  intros Hb s x s' H. unfold codegenWhileStmt in H.
  do 5 (apply adv_bind_inv in H as (? & ? & ? & H); [|solve [adv_auto]]).
  apply bind_inv in H as ([] & pushed & [= Hpush] & H).
  match type of Hpush with
  | set_loopContextStack _ ?before = _ => assert (Hpre : Advances s before) by adv_chain
  end.
  assert (Hmid : exists s2, Advances pushed s2 /\
            s' = set_loopContextStack (removelast (loopContextStack (ctl s2))) s2).
  { do 3 (apply adv_bind_inv in H as (? & ? & ? & H); [|solve [adv_auto]]).
    match type of H with
    | match ?c with _ => _ end _ = _ => destruct c as [condVal|]
    end.
    - do 10 (apply adv_bind_inv in H as (? & ? & ? & H); [|solve [adv_auto]]).
      injection H as _ <-. eexists. split; [|reflexivity]. adv_chain.
    - injection H as _ <-. eexists. split; [|reflexivity]. adv_chain. }
  destruct Hmid as (s2 & Hmid & ->).
  subst pushed.
  destruct Hpre as [Pf Pl Pe Pw Pc Pi Ps Pg Pm Pd Psd],
           Hmid as [Mf Ml Me Mw Mc Mi Ms Mg Mm Md Msd].
  cbn in *.
  split; cbn; try congruence; try lia; try (etrans; eassumption).
  rewrite Ml, removelast_last. assumption.
Qed.

Lemma adv_storeParameters f idx params types :
  advancing (storeParameters f idx params types).
Proof.
  revert idx types. induction params as [|p params IH]; intros idx types;
    cbn [storeParameters]; [apply adv_ret|].
  destruct types; adv_auto.
Qed.

Lemma adv_parameterTypes params : advancing (parameterTypes params).
Proof. induction params; cbn [parameterTypes]; adv_auto. Qed.

(** [currentFunction] is set to the function being lowered and set back to
    what it was when the function has been lowered. *)
Lemma adv_codegenFunctionDecl name params returnType body :
  (forall stmts x, body = Some stmts -> In x stmts -> advancing (cgS x)) ->
  advancing (codegenFunctionDecl cgS name params returnType body).
Proof.
  intros Hbody s x s' H. unfold codegenFunctionDecl in H.
  pose proof adv_parameterTypes. pose proof adv_storeParameters.
  apply adv_bind_inv in H as (known & ? & ? & H); [|solve [adv_auto]].
  destruct known; [eapply Advances_trans; [eassumption|]; eapply adv_cerrLine; eassumption|].
  do 5 (apply adv_bind_inv in H as (? & ? & ? & H); [|solve [adv_auto]]).
  apply bind_inv in H as (prev & before & [= Hprev ->] & H).
  apply bind_inv in H as ([] & entered & [= Henter] & H).
  assert (Hpre : Advances s before) by adv_chain.
  assert (Hmid : exists s2 fn, Advances entered s2 /\
            s' = set_functions fn (set_currentFunction prev s2)).
  { do 3 (apply adv_bind_inv in H as (? & ? & ? & H); [|solve [adv_auto]]).
    apply adv_bind_inv in H as (? & ? & ? & H).
    2:{ destruct body as [stmts|]; [|apply adv_ret].
        apply adv_codegenBlock. intros; eapply Hbody; [reflexivity|assumption]. }
    unfold finishFunctionDecl in H.
    do 2 (apply adv_bind_inv in H as (? & ? & ? & H); [|solve [adv_auto]]).
    apply bind_inv in H as ([] & ? & [= <-] & [= _ <-]).
    eexists _, _. split; [|reflexivity]. adv_chain. }
  destruct Hmid as (s2 & fn & Hmid & ->).
  subst entered.
  destruct Hpre as [Pf Pl Pe Pw Pc Pi Ps Pg Pm Pd Psd],
           Hmid as [Mf Ml Me Mw Mc Mi Ms Mg Mm Md Msd].
  cbn in *.
  split; cbn; try congruence; try lia; try (etrans; eassumption).
Qed.

Hypothesis cgS_advancing : forall x, advancing (cgS x).

Lemma adv_loadModuleStatements moduleName stmts :
  advancing (loadModuleStatements cgS moduleName stmts).
Proof.
  assert (Hf : forall name params returnType body,
             advancing (codegenFunctionDecl cgS name params returnType body)).
  { intros. apply adv_codegenFunctionDecl. intros; apply cgS_advancing. }
  induction stmts as [|stmt stmts IH]; cbn [loadModuleStatements]; [apply adv_ret|].
  apply adv_bind; [|intros _; exact IH].
  destruct stmt; adv_auto.
Qed.

Lemma adv_loadModule moduleName :
  advancing (loadModule cgS fileExists openAndParse moduleName).
Proof.
  pose proof adv_loadModuleStatements.
  unfold loadModule, findModuleFile.
  apply adv_bind; [adv_auto|]. intros loaded.
  destruct (bool_decide _); [adv_auto|].
  apply adv_bind; [adv_auto|]. intros moduleFile.
  destruct (streq _ _); [adv_auto|].
  destruct (openAndParse moduleFile); try solve [adv_auto].
  apply adv_bind.
  { apply adv_modify. intros s. destruct (moduleFunctions (mods s) !! moduleName);
      [apply Advances_refl | adv_update]. }
  intros _. adv_auto.
Qed.

Lemma adv_codegenImport moduleName alias :
  advancing (codegenImport cgS fileExists openAndParse moduleName alias).
Proof. pose proof adv_loadModule. unfold codegenImport. adv_auto. Qed.

End StatementsAdvance.

Lemma adv_codegenStmtWith importModule node :
  (forall m a, advancing (importModule m a)) ->
  advancing (codegenStmtWith importModule node).
Proof.
  intros Himp.
  remember (S (ssize node)) as n eqn:Hn. assert (Hlt : ssize node < n) by lia. clear Hn.
  revert node Hlt. induction n as [|n IH]; intros node Hlt; [lia|].
  destruct node; cbn [codegenStmtWith]; try solve [eauto with adv].
  - apply adv_codegenBlock. intros x Hin. apply IH.
    pose proof (ssize_In x _ Hin). cbn [ssize] in Hlt. lia.
  - cbn [ssize] in Hlt. apply adv_codegenIfStmt.
    + apply IH. lia.
    + intros x ->. apply IH. lia.
  - cbn [ssize] in Hlt. apply adv_codegenWhileStmt. apply IH. lia.
  - apply adv_codegenFunctionDecl. intros stmts x -> Hin. apply IH.
    pose proof (ssize_In x _ Hin). cbn [ssize] in Hlt. lia.
Qed.

Lemma adv_codegenStmt fileExists openAndParse depth node :
  advancing (codegenStmt fileExists openAndParse depth node).
Proof.
  revert node. induction depth as [|d IH]; intros node; cbn [codegenStmt];
    apply adv_codegenStmtWith; intros m a.
  - apply adv_abort.
  - apply adv_codegenImport. exact IH.
Qed.

Lemma adv_initializeGlobals inits : advancing (initializeGlobals inits).
Proof. induction inits; cbn [initializeGlobals]; adv_auto. Qed.

Lemma adv_createGlobalConstructor : advancing createGlobalConstructor.
Proof.
  intros s x s' H. unfold createGlobalConstructor in H.
  pose proof adv_initializeGlobals.
  apply bind_inv in H as (inits & ? & [= <- <-] & H).
  destruct (globalInitializers (ctl s)) eqn:Hinits;
    [injection H as _ <-; apply Advances_refl|].
  do 3 (apply adv_bind_inv in H as (? & ? & ? & H); [|solve [adv_auto]]).
  apply bind_inv in H as (saved & before & [= Hsaved ->] & H).
  apply bind_inv in H as ([] & entered & [= Henter] & H).
  assert (Hpre : Advances s before) by adv_chain.
  apply adv_bind_inv in H as (? & s2 & Hmid & H); [|solve [adv_auto]].
  apply bind_inv in H as ([] & restored & [= Hrestore] & H).
  do 2 (apply adv_bind_inv in H as (? & ? & ? & H); [|solve [adv_auto]]).
  injection H as _ ->.
  assert (Hpost : Advances restored s') by adv_chain.
  subst entered restored.
  destruct Hpre as [Pf Pl Pe Pw Pc Pi Ps Pg Pm Pd Psd],
           Hmid as [Mf Ml Me Mw Mc Mi Ms Mg Mm Md Msd],
           Hpost as [Qf Ql Qe Qw Qc Qi Qs Qg Qm Qd Qsd].
  cbn in *.
  split; try congruence; try lia; try (etrans; [eassumption|]; etrans; eassumption).
Qed.

Lemma adv_generate fileExists openAndParse verifyModule depth root :
  advancing (generate fileExists openAndParse verifyModule depth root).
Proof.
  pose proof adv_createGlobalConstructor.
  assert (advancing (codegenStatements (codegenStmt fileExists openAndParse depth)
                       (match root with Some r => statements r | None => [] end))).
  { apply adv_codegenStatements. intros; apply adv_codegenStmt. }
  unfold generate. destruct root; adv_auto.
Qed.

(** X7.  Lowering a statement leaves the generator in the context it was
    in: when [codegenStmt] finishes, [currentFunction] and the stack of loop
    contexts are what they were before, whatever the statement contains
    (loops push and pop their context, function declarations set and
    restore the current function, imports lower whole files). *)
Theorem statement_keeps_contexts fileExists openAndParse depth node s s' :
  codegenStmt fileExists openAndParse depth node s = Done tt s' ->
  currentFunction (ctl s') = currentFunction (ctl s) /\
  loopContextStack (ctl s') = loopContextStack (ctl s).
Proof.
  intros H. destruct (adv_codegenStmt _ _ _ _ _ _ _ H). split; assumption.
Qed.

Lemma statement_keeps_contexts_witness :
  currentFunction (ctl loopLowered) = currentFunction (ctl insideLoop) /\
  loopContextStack (ctl loopLowered) = loopContextStack (ctl insideLoop).
Proof.
  apply (statement_keeps_contexts moduleFileExists parseModuleFile 1 breakingLoop).
  vm_compute. reflexivity.
Defined.

(** X8.  Diagnostics only accumulate while a statement is lowered: the
    error count does not go down, what was written to [std::cerr] stays
    (lines are only added after it), and the warning count is not touched
    at all. *)
Theorem diagnostics_only_accumulate fileExists openAndParse depth node s s' :
  codegenStmt fileExists openAndParse depth node s = Done tt s' ->
  (errorCount (diag s) <= errorCount (diag s'))%Z /\
  cerr (diag s) `prefix_of` cerr (diag s') /\
  warningCount (diag s') = warningCount (diag s).
Proof.
  intros H. destruct (adv_codegenStmt _ _ _ _ _ _ _ H). repeat split; assumption.
Qed.

Lemma diagnostics_only_accumulate_witness :
  (errorCount (diag insideMain) <= errorCount (diag undeclaredLowered))%Z /\
  cerr (diag insideMain) `prefix_of` cerr (diag undeclaredLowered) /\
  warningCount (diag undeclaredLowered) = warningCount (diag insideMain).
Proof.
  apply (diagnostics_only_accumulate moduleFileExists parseModuleFile 1 useOfUndeclared).
  vm_compute. reflexivity.
Defined.

(** X9.  Names and modules are only added while a statement is lowered: a
    name bound in the LLVM module's symbol table keeps its binding (a
    function or global created under a taken name does not replace it), a
    loaded module stays loaded, the deferred global initializers keep their
    order, and handles are numbered upwards. *)
Theorem bindings_are_permanent fileExists openAndParse depth node s s' :
  codegenStmt fileExists openAndParse depth node s = Done tt s' ->
  irSymbols (ir s) ⊆ irSymbols (ir s') /\
  loadedModules (mods s) ⊆ loadedModules (mods s') /\
  globalInitializers (ctl s) `prefix_of` globalInitializers (ctl s') /\
  irNextId (ir s) <= irNextId (ir s').
Proof.
  intros H. destruct (adv_codegenStmt _ _ _ _ _ _ _ H). repeat split; assumption.
Qed.

Lemma bindings_are_permanent_witness :
  irSymbols (ir (newCodeGenerator "/")) ⊆ irSymbols (ir functionLowered) /\
  loadedModules (mods (newCodeGenerator "/")) ⊆ loadedModules (mods functionLowered) /\
  globalInitializers (ctl (newCodeGenerator "/"))
    `prefix_of` globalInitializers (ctl functionLowered) /\
  irNextId (ir (newCodeGenerator "/")) <= irNextId (ir functionLowered).
Proof.
  apply (bindings_are_permanent moduleFileExists parseModuleFile 1 functionF).
  vm_compute. reflexivity.
Defined.



(** ** Calls *)

Lemma streq_false a b : a <> b -> streq a b = false.
Proof. intros H. unfold streq. now apply bool_decide_eq_false. Qed.

(** X12.  A call of a function of the compilation unit is checked before
    anything is lowered: when the module holds no function of that name,
    when an ordinary function is given another number of arguments than it
    has parameters, or a variadic one fewer than its fixed parameters, the
    call yields no value, no argument is lowered and no instruction emitted;
    the one thing that changes is the message written to [std::cerr] (the
    error count stays as it is). *)
Theorem call_is_checked_before_lowering cgE name args s callee msg :
  name ∉ builtinNames ->
  Module_getFunction name s = Done callee s ->
  CallRefused name callee (length args) msg ->
  codegenFunctionCall cgE name args None s = Done None (stateAfter (cerrLine msg) s).
Proof.
  intros Hname Hlook Hrefused.
  unfold codegenFunctionCall, codegenUnqualifiedCall.
  unfold builtinNames in Hname.
  repeat (rewrite streq_false; [|intros ->; apply Hname; set_solver]).
  unfold codegenPlainCall, bind. rewrite Hlook.
  destruct Hrefused as [n|f n Hvar Hcount|f n Hvar Hcount].
  - reflexivity.
  - rewrite Hvar. cbn [negb andb].
    destruct (Nat.eqb_spec (arg_size f) n) as [Heq|_]; [contradiction|]. reflexivity.
  - rewrite Hvar. cbn [negb andb].
    destruct (Nat.ltb_spec n (arg_size f)) as [_|Hge]; [reflexivity|lia].
Qed.

Lemma call_is_checked_before_lowering_witness :
  codegenFunctionCall codegenExpr "strlen" [IntLiteralNode 1; IntLiteralNode 2] None insideMain
  = Done None
      (stateAfter
         (cerrLine "Error: Function 'strlen' expects 1 arguments but got 2") insideMain).
Proof.
  apply (call_is_checked_before_lowering codegenExpr "strlen"
           [IntLiteralNode 1; IntLiteralNode 2] insideMain (Some strlenFunction)).
  - unfold builtinNames. intros Hin. repeat (apply elem_of_cons in Hin as [Heq|Hin];
      [discriminate Heq|]). now apply elem_of_nil in Hin.
  - vm_compute. reflexivity.
  - apply (WrongArgumentCount "strlen" strlenFunction 2); [reflexivity | vm_compute; lia].
Defined.

(** ** Conversions *)

Lemma sameTables_refl s : sameTables s s.
Proof. repeat split. Qed.

Lemma CreateCast_total op v dest name s b bb :
  BuilderAt s b bb ->
  exists r s' bb',
    CreateCast op v dest name s = Done r s' /\ typeOf r = dest /\ BuilderAt s' b bb' /\
    sameTables s s'.
Proof.
  intros Hat. unfold CreateCast. destruct (decide (typeOf v = dest)) as [Heq|Hne].
  - exists v, s, bb. split; [reflexivity|]. split; [assumption|].
    split; [assumption | apply sameTables_refl].
  - destruct (Insert_at s b bb name (OpCast op v dest) dest Hat) as (s' & Hins & Hat' & Hsame).
    eexists _, s', _. split; [exact Hins|]. split; [reflexivity|].
    split; [exact Hat' | exact Hsame].
Qed.

Lemma convertIntToInt_total v t s b bb :
  BuilderAt s b bb ->
  exists r s' bb',
    convertIntToInt v t s = Done r s' /\ typeOf r = t /\ BuilderAt s' b bb' /\
    sameTables s s'.
Proof.
  intros Hat. unfold convertIntToInt.
  repeat match goal with |- context [if ?c then _ else _] => destruct c end;
    eapply CreateCast_total; exact Hat.
Qed.

(** Between numbers the conversion arrives, and the builder stays in its
    block. *)
Lemma convertToType_numeric v t s b bb :
  BuilderAt s b bb -> isNumericTy (typeOf v) = true -> isNumericTy t = true ->
  exists r s' bb',
    convertToType v t s = Done r s' /\ typeOf r = t /\ BuilderAt s' b bb' /\
    sameTables s s'.
Proof.
  intros Hat Hv Ht. unfold convertToType.
  destruct (decide (typeOf v = t)) as [Heq|Hne].
  { exists v, s, bb. split; [reflexivity|]. split; [assumption|].
    split; [assumption | apply sameTables_refl]. }
  destruct (typeOf v) as [|wv| | |] eqn:Hty; try discriminate Hv;
    destruct t as [|wt| | |]; try discriminate Ht; cbn [isIntegerTy isDoubleTy andb].
  - eapply convertIntToInt_total. exact Hat.
  - cbn [getIntegerBitWidth]. destruct (_ || _); eapply CreateCast_total; exact Hat.
  - destruct (CreateCast_total FPToSI v i32 "fptosi" s b bb Hat)
      as (r & s' & bb' & H & Hr & Hat' & Hsame).
    unfold CreateFPToSI, bind. rewrite H.
    destruct (negb _) eqn:Hi32.
    + destruct (convertIntToInt_total r (IntegerTy wt) s' b bb' Hat')
        as (r2 & s2 & bb2 & H2 & Hr2 & Hat2 & Hsame2).
      exists r2, s2, bb2. split; [assumption|]. split; [assumption|].
      split; [assumption | eapply sameTables_trans; eassumption].
    + apply negb_false_iff, bool_decide_eq_true in Hi32.
      exists r, s', bb'. split; [reflexivity|]. split; [now rewrite Hr, Hi32|].
      split; assumption.
  - congruence.
Qed.

(** X11.  [convertToType] between numbers always arrives: for a value of
    an integer type of any width or of type [double] and a target among
    these types, the conversion finishes and its result has the target
    type.  Between a string (a pointer) and anything that is not a pointer
    nothing is converted: the value comes back as it is and no instruction
    is emitted. *)
Theorem conversion_reaches_target_type v t s b bb :
  BuilderAt s b bb ->
  (isNumericTy (typeOf v) = true -> isNumericTy t = true ->
   exists r s', convertToType v t s = Done r s' /\ typeOf r = t) /\
  (isPointerTy (typeOf v) = negb (isPointerTy t) -> convertToType v t s = Done v s).
Proof.
  intros Hat. split.
  - intros Hv Ht.
    destruct (convertToType_numeric v t s b bb Hat Hv Ht) as (r & s' & _ & H & Hr & _).
    now exists r, s'.
  - intros Hptr. unfold convertToType.
    destruct (decide (typeOf v = t)) as [Heq|Hne].
    { rewrite Heq in Hptr. now destruct (isPointerTy t). }
    destruct (typeOf v) as [|wv| | |ev nv]; destruct t as [|wt| | |et nt];
      try discriminate Hptr; try reflexivity;
      cbn [isIntegerTy isDoubleTy isPointerTy isIntegerTyN andb orb];
      repeat match goal with |- context [if ?c then _ else _] => destruct c end;
      reflexivity.
Qed.

Lemma conversion_reaches_target_type_witness :
  (exists r s', convertToType (ConstantFP fzero) i8 insideMain = Done r s' /\ typeOf r = i8) /\
  convertToType (GlobalString 3) i32 insideMain = Done (GlobalString 3) insideMain.
Proof.
  destruct (conversion_reaches_target_type (ConstantFP fzero) i8 insideMain 15
              (mkBasicBlock "entry" (Some mainFunction) [])) as [Hnum _].
  { split; vm_compute; [reflexivity | reflexivity | lia]. }
  destruct (conversion_reaches_target_type (GlobalString 3) i32 insideMain 15
              (mkBasicBlock "entry" (Some mainFunction) [])) as [_ Hptr].
  { split; vm_compute; [reflexivity | reflexivity | lia]. }
  split; [apply Hnum; reflexivity | apply Hptr; reflexivity].
Defined.

(** ** The stack of temporaries *)

Lemma eraseFirst_absent (p : Value) l : p ∉ l -> eraseFirst p l = l.
Proof.
  induction l as [|x l IH]; intros Hp; [reflexivity|]. cbn [eraseFirst].
  apply not_elem_of_cons in Hp as [Hne Hp].
  destruct (decide (x = p)) as [->|_]; [contradiction|]. now rewrite IH.
Qed.

Lemma eraseFirst_first (p : Value) l1 l2 :
  p ∉ l1 -> eraseFirst p (l1 ++ p :: l2) = l1 ++ l2.
Proof.
  induction l1 as [|x l1 IH]; intros Hp; cbn [eraseFirst app].
  - now rewrite decide_True.
  - apply not_elem_of_cons in Hp as [Hne Hp].
    destruct (decide (x = p)) as [->|_]; [contradiction|]. now rewrite IH.
Qed.

(** X13.  A temporary leaves the stack once.  [removeTempMemory] takes out
    the first entry equal to the pointer and keeps the others in their
    order; a pointer that is not on the stack is ignored.  Pushing a pointer
    that is not yet tracked and removing it again gives back the generator
    as it was; pushes of a null pointer or of a value that is not a pointer
    are ignored. *)
Theorem temporary_leaves_the_stack_once s p before after :
  tempMemoryStack (mem s) = before ++ after -> p ∉ before ->
  isPointerTy (typeOf p) = true ->
  removeTempMemory (Some p) (set_tempMemoryStack (before ++ p :: after) s)
    = Done tt (set_tempMemoryStack (before ++ after) s) /\
  (p ∉ after -> removeTempMemory (Some p) s = Done tt s) /\
  (p ∉ after ->
   (pushTempMemory (Some p) ;; removeTempMemory (Some p)) s = Done tt s) /\
  pushTempMemory None s = Done tt s /\
  (forall v, isPointerTy (typeOf v) = false -> pushTempMemory (Some v) s = Done tt s).
Proof.
  intros Hstack Hbefore Hptr.
  destruct s as [i d sy c [temps owned] mo]. cbn in Hstack. subst temps.
  split; [|split; [|split; [|split]]].
  - unfold removeTempMemory, modify, set_tempMemoryStack, set_mem. cbn.
    now rewrite eraseFirst_first.
  - intros Hafter. unfold removeTempMemory, modify, set_tempMemoryStack, set_mem. cbn.
    rewrite eraseFirst_absent; [reflexivity|].
    rewrite elem_of_app. tauto.
  - intros Hafter. unfold pushTempMemory, removeTempMemory, bind, modify. rewrite Hptr.
    cbn. rewrite <- (app_nil_r ((before ++ after) ++ [p])), <- app_assoc.
    cbn [app]. rewrite eraseFirst_first; [now rewrite app_nil_r|].
    rewrite elem_of_app. tauto.
  - reflexivity.
  - intros v Hv. unfold pushTempMemory. now rewrite Hv.
Qed.

Lemma temporary_leaves_the_stack_once_witness :
  removeTempMemory (Some (InstValue 5 PointerTy))
    (set_tempMemoryStack ([] ++ InstValue 5 PointerTy :: [InstValue 7 PointerTy]) ownsAString)
  = Done tt (set_tempMemoryStack ([] ++ [InstValue 7 PointerTy]) ownsAString).
Proof.
  apply (temporary_leaves_the_stack_once
           (set_tempMemoryStack [InstValue 7 PointerTy] ownsAString)
           (InstValue 5 PointerTy) [] [InstValue 7 PointerTy]).
  - reflexivity.
  - apply not_elem_of_nil.
  - reflexivity.
Defined.

(** ** Finding and importing modules *)

Lemma modulePathOf_nonempty moduleName : modulePathOf moduleName <> "".
Proof.
  unfold modulePathOf. destruct (endsWithPpx moduleName) eqn:H.
  - intros ->. discriminate H.
  - destruct moduleName; discriminate.
Qed.

Lemma append_nonempty_r (a b : string) : b <> "" -> a +:+ b <> "".
Proof. intros Hb. destruct a; [exact Hb | discriminate]. Qed.




(** X16.  A qualified call [object.function()] is resolved in the
    namespace of the module that [object] names, through the alias table
    when [object] is an alias.  When that namespace holds the function, a
    call of it is emitted (named "module_call" unless the function returns
    nothing); when it does not, no value is produced, nothing is emitted and
    the message names the function and the module. *)
Theorem qualified_call_resolves_in_module_namespace cgE object line function s b bb :
  BuilderAt s b bb ->
  match inNamespace s (moduleNamed s object) function with
  | Some f =>
      exists s',
        codegenFunctionCall cgE function [] (Some (IdentifierNode object line)) s
          = Done (Some (InstValue (irNextId (ir s)) (ftReturn (fnType f)))) s' /\
        BuilderAt s' b
          (mkBasicBlock (bbName bb) (bbParent bb)
             (bbInsts bb ++
              [mkInstruction (irNextId (ir s))
                 (if isVoidTy (ftReturn (fnType f)) then "" else "module_call")
                 (OpCall f [])])) /\
        sameTables s s'
  | None =>
      codegenFunctionCall cgE function [] (Some (IdentifierNode object line)) s
        = Done None
            (stateAfter (cerrLine ("Error: Function '" +:+ function
                                   +:+ "' not found in module '"
                                   +:+ moduleNamed s object +:+ "'")) s)
  end.
Proof.
  intros Hat. unfold codegenFunctionCall, findModuleFunction, inNamespace.
  unfold bind, gets.
  change (match moduleAliases (mods s) !! object with
          | Some actual => actual
          | None => object
          end) with (moduleNamed s object).
  destruct (moduleFunctions (mods s) !! moduleNamed s object) as [ns|];
    cbn [mbind option_bind]; [destruct (ns !! function) as [f|]|]; try reflexivity.
  unfold codegenModuleCall. cbn [forEach]. unfold bind, ret.
  destruct (isVoidTy (ftReturn (fnType f)));
    [destruct (Insert_at s b bb "" (OpCall f []) (ftReturn (fnType f)) Hat)
       as (s' & Hins & Hat' & Hsame)
    |destruct (Insert_at s b bb "module_call" (OpCall f []) (ftReturn (fnType f)) Hat)
       as (s' & Hins & Hat' & Hsame)];
    exists s'; unfold CreateCall; rewrite Hins;
    (split; [reflexivity|]; split; assumption).
Qed.

Lemma qualified_call_resolves_in_module_namespace_witness :
  exists s',
    codegenFunctionCall codegenExpr "helper" [] (Some (IdentifierNode "mm" 1)) aliasImported
      = Done (Some (InstValue (irNextId (ir aliasImported)) i32)) s'.
Proof.
  assert (Hat : BuilderAt aliasImported 18
                  (mkBasicBlock "entry"
                     (Some (mkFunction 17 "main" (mkFunctionType i32 [] false))) []))
    by (split; vm_compute; [reflexivity | reflexivity | lia]).
  assert (Hns : inNamespace aliasImported (moduleNamed aliasImported "mm") "helper"
                = Some (mkFunction 14 "helper" (mkFunctionType i32 [] false)))
    by (vm_compute; reflexivity).
  pose proof (qualified_call_resolves_in_module_namespace codegenExpr "mm" 1 "helper"
                aliasImported 18 _ Hat) as H.
  rewrite Hns in H.
  destruct H as (s' & H & _). exists s'. exact H.
Defined.

(** ** Names *)





(** ** Return statements *)

Lemma clear_nothing s : tempMemoryStack (mem s) = [] -> clearTempMemory s = Done tt s.
Proof. intros H. unfold clearTempMemory, bind, gets. now rewrite H. Qed.

Lemma remove_nothing s v : tempMemoryStack (mem s) = [] ->
  removeTempMemory (Some v) s = Done tt s.
Proof.
  intros H. unfold removeTempMemory, modify.
  destruct s as [i d sy c [temps owned] mo]. cbn in H. subst temps. reflexivity.
Qed.

(** X20.  [return] inside a function, with no temporaries outstanding.
    With a value of a number type, in a function that returns a number: the
    value is converted to the return type of the function and one [ret] of
    the converted value ends the block; running it, the function returns
    the value.  In a function that returns nothing the statement is refused:
    a message is written and nothing is emitted.  Without a value [ret void]
    is emitted, after a line of warning when the function returns a value;
    neither case touches the error or the warning count. *)
Theorem return_statement e f s0 s b bb v :
  currentFunction (ctl s0) = Some f ->
  codegenExpr e s0 = Done (Some v) s ->
  BuilderAt s b bb -> tempMemoryStack (mem s) = [] ->
  isNumericTy (typeOf v) = true ->
  (isNumericTy (ftReturn (fnType f)) = true ->
   exists r s1 bb1 s' ret,
     convertToType v (ftReturn (fnType f)) s = Done r s1 /\
     typeOf r = ftReturn (fnType f) /\ BuilderAt s1 b bb1 /\
     codegenReturnStmt (Some e) s0 = Done tt s' /\
     instOp ret = OpRet (Some r) /\
     BuilderAt s' b (mkBasicBlock (bbName bb1) (bbParent bb1) (bbInsts bb1 ++ [ret])) /\
     diag s' = diag s /\
     forall irs m a,
       irBlocks irs !! b =
         Some (mkBasicBlock (bbName bb1) (bbParent bb1) (bbInsts bb1 ++ [ret])) ->
       atEndOf m b bb1 -> evalValue m r = Some a ->
       steps 1 irs m = Returned (Some a) m) /\
  (isVoidTy (ftReturn (fnType f)) = true ->
   codegenReturnStmt (Some e) s0
     = Done tt (stateAfter (cerrLine "Error: Cannot return a value from void function") s)) /\
  (tempMemoryStack (mem s0) = [] -> forall b0 bb0, BuilderAt s0 b0 bb0 ->
   exists s' ret,
     codegenReturnStmt None s0 = Done tt s' /\
     instOp ret = OpRet None /\
     BuilderAt s' b0 (mkBasicBlock (bbName bb0) (bbParent bb0) (bbInsts bb0 ++ [ret])) /\
     cerr (diag s') =
       cerr (diag s0) ++ (if isVoidTy (ftReturn (fnType f)) then []
                          else ["Warning: Empty return in non-void function"]) /\
     errorCount (diag s') = errorCount (diag s0) /\
     warningCount (diag s') = warningCount (diag s0)).
Proof.
  intros Hfn He Hat Htemps Hnum. split; [|split].
  - intros Hret.
    destruct (convertToType_numeric v _ s b bb Hat Hnum Hret)
      as (r & s1 & bb1 & Hconv & Hr & Hat1 & Hsame).
    assert (Htemps1 : tempMemoryStack (mem s1) = [])
      by (destruct Hsame as (_ & _ & _ & Hmem & _); now rewrite Hmem).
    destruct (Insert_at s1 b bb1 "" (OpRet (Some r)) VoidTy Hat1) as (s' & Hins & Hat' & Hsame').
    exists r, s1, bb1, s', (mkInstruction (irNextId (ir s1)) "" (OpRet (Some r))).
    split; [exact Hconv|]. split; [exact Hr|]. split; [exact Hat1|].
    split; [|split; [reflexivity|split; [exact Hat'|split]]].
    + unfold codegenReturnStmt. unfold bind at 1. unfold gets at 1. rewrite Hfn.
      unfold bind at 1. rewrite He.
      destruct (decide (typeOf v = ftReturn (fnType f))) as [Heq|Hne].
      * rewrite bool_decide_eq_true_2 by exact Heq. cbn [negb].
        assert (r = v /\ s1 = s) as [-> ->].
        { revert Hconv. unfold convertToType. rewrite decide_True by exact Heq.
          now intros [= <- <-]. }
        unfold bind.
        destruct (isPointerTy (typeOf v));
          [rewrite remove_nothing by exact Htemps | unfold ret at 1];
          cbv beta iota; rewrite clear_nothing by exact Htemps; cbv beta iota;
          unfold CreateRet, bind; now rewrite Hins.
      * rewrite bool_decide_eq_false_2 by exact Hne. cbn [negb].
        assert (Hnotvoid : isVoidTy (ftReturn (fnType f)) = false)
          by (destruct (ftReturn (fnType f)); try discriminate Hret; reflexivity).
        rewrite Hnotvoid. unfold bind at 1. rewrite Hconv.
        rewrite bool_decide_eq_true_2 by exact Hr. cbn [negb].
        unfold bind. unfold ret at 1. cbv beta iota.
        destruct (isPointerTy (typeOf r));
          [rewrite remove_nothing by exact Htemps1 | unfold ret at 1];
          cbv beta iota; rewrite clear_nothing by exact Htemps1; cbv beta iota;
          unfold CreateRet, bind; now rewrite Hins.
    + destruct Hsame as (Hd & _), Hsame' as (Hd' & _). congruence.
    + intros irs m a Hblk [Hmb Hpc] Hev. cbn [steps].
      assert (Hstep : step irs m
                = execInst irs (mkInstruction (irNextId (ir s1)) "" (OpRet (Some r))) m).
      { eapply step_at; [rewrite Hmb; exact Hblk|].
        rewrite Hpc. cbn [bbInsts]. apply lookup_end_0. }
      rewrite Hstep. unfold execInst. cbn [instOp]. now rewrite Hev.
  - intros Hvoid.
    unfold codegenReturnStmt. unfold bind at 1. unfold gets at 1. rewrite Hfn.
    unfold bind at 1. rewrite He.
    assert (Hne : typeOf v <> ftReturn (fnType f)).
    { intros Heq. rewrite Heq in Hnum. destruct (ftReturn (fnType f)); discriminate. }
    rewrite bool_decide_eq_false_2 by exact Hne. cbn [negb]. rewrite Hvoid. reflexivity.
  - intros Htemps0 b0 bb0 Hat0.
    unfold codegenReturnStmt. unfold bind at 1. unfold gets at 1. rewrite Hfn.
    destruct (isVoidTy (ftReturn (fnType f))) eqn:Hvoid; cbn [negb].
    + destruct (Insert_at s0 b0 bb0 "" (OpRet None) VoidTy Hat0) as (s' & Hins & Hat' & Hsame).
      exists s', (mkInstruction (irNextId (ir s0)) "" (OpRet None)).
      unfold bind at 1. unfold ret at 1. unfold bind at 1.
      rewrite clear_nothing by exact Htemps0. unfold CreateRetVoid, bind. rewrite Hins.
      destruct Hsame as (Hd & _). rewrite Hd, app_nil_r.
      repeat (split; [first [reflexivity | exact Hat']|]). reflexivity.
    + set (s1 := stateAfter (cerrLine "Warning: Empty return in non-void function") s0).
      assert (Hat1 : BuilderAt s1 b0 bb0) by (destruct Hat0; split; assumption).
      assert (Htemps1 : tempMemoryStack (mem s1) = []) by exact Htemps0.
      destruct (Insert_at s1 b0 bb0 "" (OpRet None) VoidTy Hat1) as (s' & Hins & Hat' & Hsame).
      exists s', (mkInstruction (irNextId (ir s1)) "" (OpRet None)).
      unfold bind at 1. change (cerrLine _ s0) with (Done tt s1). cbv iota beta.
      unfold bind at 1. rewrite clear_nothing by exact Htemps1.
      unfold CreateRetVoid, bind. rewrite Hins.
      destruct Hsame as (Hd & _). rewrite Hd.
      repeat (split; [first [reflexivity | exact Hat']|]). reflexivity.
Qed.

Lemma return_statement_witness :
  exists r s1 bb1 s' ret,
    convertToType (ConstantInt 32 1) DoubleTy doubleFunction = Done r s1 /\
    typeOf r = DoubleTy /\ BuilderAt s1 15 bb1 /\
    codegenReturnStmt (Some (IntLiteralNode 1)) doubleFunction = Done tt s' /\
    instOp ret = OpRet (Some r) /\
    BuilderAt s' 15 (mkBasicBlock (bbName bb1) (bbParent bb1) (bbInsts bb1 ++ [ret])).
Proof.
  destruct (return_statement (IntLiteralNode 1) halfFunction doubleFunction doubleFunction 15
              (mkBasicBlock "entry" (Some halfFunction) []) (ConstantInt 32 1))
    as [H _].
  - reflexivity.
  - reflexivity.
  - split; vm_compute; [reflexivity | reflexivity | lia].
  - reflexivity.
  - reflexivity.
  - destruct (H eq_refl) as (r & s1 & bb1 & s' & ret & H1 & H2 & H3 & H4 & H5 & H6 & _).
    exists r, s1, bb1, s', ret. repeat (split; [assumption|]). assumption.
Defined.

(** ** Unary operators *)



(** ** An array element, written and read *)

(** X22.  What is written to an element of an array is what is read from
    it.  [put(i, v)], compiled, called with an index inside the array and
    any value: the assignment [a[i] = v] stores the value at the element's
    address, the read [a[i]] passes the index check and loads it back, and
    the function returns [v] without having printed anything. *)
Theorem array_element_round_trip i v :
  (0 <= i < 5)%Z ->
  exists m,
    call 18 putProgram "put" [RInt 32 i; RInt 32 v] = Some (Returned (Some (RInt 32 v)) m) /\
    printfCalls m = [] /\
    (mMemory m !! inr 0) ≫= (fun r => regionCells r !! (4 * i)%Z) = Some (RInt 32 v).
Proof.
  intros Hi.
  assert (Hcases : (i = 0 \/ i = 1 \/ i = 2 \/ i = 3 \/ i = 4)%Z) by lia.
  destruct Hcases as [-> | [-> | [-> | [-> | ->]]]];
    (eexists; split; [vm_compute; reflexivity|]; split; vm_compute; reflexivity).
Qed.

Lemma array_element_round_trip_witness :
  exists m,
    call 18 putProgram "put" [RInt 32 2; RInt 32 7] = Some (Returned (Some (RInt 32 7)) m) /\
    printfCalls m = [] /\
    (mMemory m !! inr 0) ≫= (fun r => regionCells r !! (4 * 2)%Z) = Some (RInt 32 7).
Proof. apply (array_element_round_trip 2 7). lia. Defined.

(** ** The conditional statement *)

Lemma Insert_keeps_insertion_point name op ty s v s' :
  Insert name op ty s = Done v s' -> irInsertBlock (ir s') = irInsertBlock (ir s).
Proof.
  destruct s as [[sym lay blk str glb n ins] d sy cx me mo].
  unfold Insert. cg_eval.
  destruct ins as [b|]; [destruct (blk !! b)|]; cg_eval; intros H; try discriminate H;
    injection H as _ <-; reflexivity.
Qed.

(** The next call of the function in [H], evaluated. *)
Ltac eval_step H Hb :=
  let a := fresh "a" in
  let sx := fresh "sx" in
  let HA := fresh "HA" in
  let HE := fresh "HE" in
  apply bind_inv in H as (a & sx & HA & H);
  lazymatch type of HA with
  | ?lhs = _ =>
      eassert (HE : lhs = Done _ _) by
        (cg_eval; repeat (rewrite Hb; cg_eval); reflexivity);
      rewrite HE in HA; clear HE; injection HA as <- <-
  end.

(** X23.  The branch of an [if].  With the condition lowered to a [bool]
    in the current block, [if] creates the block of the then-branch in the
    function, the block the condition's failure leads to (the block of the
    else-branch when there is one, otherwise the block after the statement)
    and ends the current block with one conditional branch between them; the
    then-branch is lowered next, in its block; when the statement is lowered
    the builder is in the block after it.  At run time the branch goes to
    the then-block when the condition holds and to the other block when it
    does not. *)
Theorem if_statement_branches cgS c t e s0 s1 cv b bb f s' :
  codegenExpr c s0 = Done (Some cv) s1 -> typeOf cv = i1 ->
  BuilderAt s1 b bb -> bbParent bb = Some f ->
  codegenIfStmt cgS c t e s0 = Done tt s' ->
  exists s2 s3 branch,
    let thenBB := irNextId (ir s1) in
    let target := S thenBB in
    let mergeBB := match e with Some _ => S (S thenBB) | None => S thenBB end in
    instOp branch = OpCondBr cv thenBB target /\
    irBlocks (ir s2) !! b =
      Some (mkBasicBlock (bbName bb) (bbParent bb) (bbInsts bb ++ [branch])) /\
    BuilderAt s2 thenBB (mkBasicBlock "then" (Some f) []) /\
    irBlocks (ir s2) !! target =
      Some (mkBasicBlock (match e with Some _ => "else" | None => "ifcont" end) None []) /\
    sameTables s1 s2 /\
    cgS t s2 = Done tt s3 /\
    irInsertBlock (ir s') = Some mergeBB /\
    forall irs m x,
      irBlocks irs !! b =
        Some (mkBasicBlock (bbName bb) (bbParent bb) (bbInsts bb ++ [branch])) ->
      atEndOf m b bb -> evalValue m cv = Some (RInt 1 x) ->
      steps 1 irs m = Running (jumpTo (if bool_decide (x = 0%Z) then target else thenBB) m).
Proof.
  intros He Hty [Hi Hb Hlt] Hpar H.
  unfold codegenIfStmt in H. unfold bind at 1 in H. rewrite He in H.
  cbv beta iota in H. rewrite Hty in H. cbn [isIntegerTyN N.eqb Pos.eqb negb i1] in H.
  destruct s1 as [[sym lay blk str glb n ins] d sy cx me mo].
  destruct bb as [nm par insts].
  cbn in Hi, Hb, Hlt, Hpar. subst ins par.
  apply bind_inv in H as (? & ? & [= <- <-] & H).
  eval_step H Hb. eval_step H Hb. eval_step H Hb.
  assert (Hrun : forall branch target,
    instOp branch = OpCondBr cv n target ->
    forall irs m x,
      irBlocks irs !! b = Some (mkBasicBlock nm (Some f) (insts ++ [branch])) ->
      atEndOf m b (mkBasicBlock nm (Some f) insts) -> evalValue m cv = Some (RInt 1 x) ->
      steps 1 irs m = Running (jumpTo (if bool_decide (x = 0%Z) then target else n) m)).
  { intros branch target Hop irs m x Hblk [Hmb Hpc] Hev. cbn [steps].
    assert (Hstep : step irs m = execInst irs branch m).
    { eapply step_at; [rewrite Hmb; exact Hblk|].
      rewrite Hpc. cbn [bbInsts]. apply lookup_end_0. }
    rewrite Hstep. unfold execInst. rewrite Hop, Hev. reflexivity. }
  assert (Hunreachable : forall sa sb, CreateUnreachable sa = Done tt sb ->
            irInsertBlock (ir sb) = irInsertBlock (ir sa)).
  { intros sa sb Hu. unfold CreateUnreachable in Hu.
    apply bind_inv in Hu as (? & ? & Hins & [= <-]).
    eapply Insert_keeps_insertion_point; exact Hins. }
  destruct e as [elseStmt|].
  - eval_step H Hb. eval_step H Hb. eval_step H Hb. eval_step H Hb.
    apply bind_inv in H as ([] & s3 & Hthen & H).
    match type of Hthen with cgS t ?s2 = _ => exists s2, s3 end.
    eexists (mkInstruction _ _ _).
    cbn [ir irNextId irBlocks irInsertBlock bbName bbParent bbInsts instOp].
    split; [reflexivity|]. split; [apply lookup_insert_eq|].
    split; [split; cbn; [reflexivity | repeat cg_lookup; reflexivity | lia]|].
    split; [repeat cg_lookup; reflexivity|].
    split; [repeat split|]. split; [exact Hthen|]. split; [|apply Hrun; reflexivity].
    do 9 (apply bind_inv in H as (? & ? & ? & H)).
    match goal with
    | Hset : SetInsertPoint _ _ = Done _ ?sy |- _ =>
        assert (Hpoint : irInsertBlock (ir sy) = Some (S (S n)))
          by (injection Hset as _ <-; reflexivity)
    end.
    destruct (_ && _); [|injection H as <-; exact Hpoint].
    now rewrite (Hunreachable _ _ H).
  - eval_step H Hb. eval_step H Hb. eval_step H Hb. eval_step H Hb.
    apply bind_inv in H as ([] & s3 & Hthen & H).
    match type of Hthen with cgS t ?s2 = _ => exists s2, s3 end.
    eexists (mkInstruction _ _ _).
    cbn [ir irNextId irBlocks irInsertBlock bbName bbParent bbInsts instOp].
    split; [reflexivity|]. split; [apply lookup_insert_eq|].
    split; [split; cbn; [reflexivity | repeat cg_lookup; reflexivity | lia]|].
    split; [repeat cg_lookup; reflexivity|].
    split; [repeat split|]. split; [exact Hthen|]. split; [|apply Hrun; reflexivity].
    do 3 (apply bind_inv in H as (? & ? & ? & H)).
    injection H as <-. reflexivity.
Qed.

Lemma if_statement_branches_witness :
  exists s2 s3 branch,
    instOp branch = OpCondBr (ConstantInt 1 1) 16 17 /\
    BuilderAt s2 16 (mkBasicBlock "then" (Some mainFunction) []) /\
    lowerStmt printNothing s2 = Done tt s3 /\
    irInsertBlock (ir ifLowered) = Some 17.
Proof.
  destruct (if_statement_branches lowerStmt (BoolLiteralNode true) printNothing None
              insideMain insideMain (ConstantInt 1 1) 15
              (mkBasicBlock "entry" (Some mainFunction) []) mainFunction ifLowered)
    as (s2 & s3 & branch & H1 & _ & H3 & _ & _ & H6 & H7 & _).
  - reflexivity.
  - reflexivity.
  - split; vm_compute; [reflexivity | reflexivity | lia].
  - reflexivity.
  - vm_compute. reflexivity.
  - exists s2, s3, branch. repeat split; try assumption; apply H3.
Defined.

(** ** A loop, run *)

Lemma count_compiles : compile countProgram = Done true (lowered countProgram).
Proof. vm_compute. reflexivity. Qed.

Lemma count_entry : entryBlock (ir (lowered countProgram)) "count" = Some 15.
Proof. vm_compute. reflexivity. Qed.

Lemma count_cond :
  irBlocks (ir (lowered countProgram)) !! 20 =
    Some (mkBasicBlock "whilecond"
            (Some (mkFunction 14 "count" (mkFunctionType i32 [i32] false)))
            [mkInstruction 24 "i" (OpLoad i32 (InstValue 18 PointerTy));
             mkInstruction 25 "n" (OpLoad i32 (InstValue 16 PointerTy));
             mkInstruction 26 "lttmp" (OpICmp ICMP_SLT (InstValue 24 i32) (InstValue 25 i32));
             mkInstruction 27 "" (OpCondBr (InstValue 26 i1) 21 22)]).
Proof. vm_compute. reflexivity. Qed.

Lemma count_body :
  irBlocks (ir (lowered countProgram)) !! 21 =
    Some (mkBasicBlock "whilebody"
            (Some (mkFunction 14 "count" (mkFunctionType i32 [i32] false)))
            [mkInstruction 28 "i" (OpLoad i32 (InstValue 18 PointerTy));
             mkInstruction 30 "printcall"
               (OpCall printfFunction [GlobalString 29; InstValue 28 i32]);
             mkInstruction 31 "i" (OpLoad i32 (InstValue 18 PointerTy));
             mkInstruction 32 "addtmp" (OpBinary Add (InstValue 31 i32) (ConstantInt 32 1));
             mkInstruction 33 "" (OpStore (InstValue 32 i32) (InstValue 18 PointerTy));
             mkInstruction 34 "" (OpBr 20)]).
Proof. vm_compute. reflexivity. Qed.

Lemma count_after :
  irBlocks (ir (lowered countProgram)) !! 22 =
    Some (mkBasicBlock "afterwhile"
            (Some (mkFunction 14 "count" (mkFunctionType i32 [i32] false)))
            [mkInstruction 35 "i" (OpLoad i32 (InstValue 18 PointerTy));
             mkInstruction 36 "" (OpRet (Some (InstValue 35 i32)))]).
Proof. vm_compute. reflexivity. Qed.

Lemma count_format : irStrings (ir (lowered countProgram)) !! 29 = Some ("%d" +:+ NL).
Proof. vm_compute. reflexivity. Qed.

(** A load of an [int] variable. *)
Lemma load_int irs m id name ptrId r x :
  mRegs m !! ptrId = Some (RPtr (PtrMem r 0)) -> holdsInt m r x ->
  execInst irs (mkInstruction id name (OpLoad i32 (InstValue ptrId PointerTy))) m
  = Running (nextPc (setReg id (RInt 32 x) (addEvent (EvLoad (PtrMem r 0) i32) m))).
Proof.
  intros Hreg (region & Hmem & Hlive & Hsize & Hcell).
  unfold execInst. cbn [instOp instId evalValue]. rewrite Hreg.
  unfold loadFrom. rewrite Hmem, Hlive. cbn [negb]. rewrite Hsize.
  rewrite bool_decide_eq_true_2 by (vm_compute; split; discriminate).
  rewrite Hcell. rewrite bool_decide_eq_true_2 by reflexivity. reflexivity.
Qed.

Lemma count_entry_run n :
  exists m,
    steps 5 (ir (lowered countProgram)) (mkMachine 15 None 0 ∅ [RInt 32 n] ∅ 0 [])
      = Running m /\
    atLoopHead n 0 m.
Proof.
  eexists. split; [vm_compute; reflexivity|].
  repeat split; try (vm_compute; reflexivity).
  - eexists. repeat split; vm_compute; reflexivity.
  - eexists. repeat split; vm_compute; reflexivity.
Qed.

(** The next step of a machine inside the block described by [HB]. *)
Ltac at_step HB :=
  lazymatch goal with
  | |- context [step ?ir ?m] =>
      let H := fresh "Hstep" in
      eassert (H : step ir m = _) by
        (eapply step_at; [cbn [mBlock]; exact HB | cbn [mPc bbInsts]; reflexivity]);
      rewrite H; clear H
  end.

Ltac at_load HB :=
  at_step HB;
  erewrite load_int;
    [ | cbn [mRegs]; rewrite ?lookup_insert_ne by lia; eassumption
      | unfold holdsInt; cbn [mMemory]; eassumption ];
  cbv beta iota delta [nextPc setReg addEvent];
  cbn [mBlock mPrev mPc mRegs mArgs mMemory mNextRegion mEvents].

Lemma signed_small x : (0 <= x < 2147483648)%Z -> signed 32 x = x.
Proof.
  intros H. unfold signed. change (2 ^ (Z.of_N 32 - 1))%Z with 2147483648%Z.
  destruct (Z.ltb_spec x 2147483648); [reflexivity | lia].
Qed.

Lemma countedTo_S k :
  countedTo (S k) = countedTo k ++ [("%d" +:+ NL, [RInt 32 (Z.of_nat k)])].
Proof. unfold countedTo. rewrite seq_S, map_app. reflexivity. Qed.

(** One iteration: from the head of the loop back to it. *)
Lemma count_iteration n k m :
  (0 <= n < 2 ^ 31)%Z -> (Z.of_nat k < n)%Z -> atLoopHead n k m ->
  exists m',
    steps 10 (ir (lowered countProgram)) m = Running m' /\ atLoopHead n (S k) m'.
Proof.
  intros Hn Hk (Hb & Hpc & Hr18 & Hr16 & Hi & Hnn & Hprinted).
  change (2 ^ 31)%Z with 2147483648%Z in Hn.
  destruct m as [blk prev pc regs args mem nr ev].
  cbn [mBlock mPc mRegs] in Hb, Hpc, Hr18, Hr16. subst blk pc.
  unfold holdsInt in Hi, Hnn. cbn [mMemory] in Hi, Hnn.
  unfold printfCalls in Hprinted. cbn [mEvents] in Hprinted.
  pose proof Hi as (ri & Hmi & Hlive & Hsize & Hcell).
  eexists. split.
  { cbn [steps].
    at_load count_cond.
    at_load count_cond.
    at_step count_cond. unfold execInst. cbn [instOp instId evalValue mRegs].
    rewrite (lookup_insert_ne _ 25 24) by lia. rewrite !lookup_insert_eq.
    cbn [mbind option_bind evalICmp].
    rewrite !signed_small by lia.
    replace (Z.of_nat k <? n)%Z with true by (symmetry; apply Z.ltb_lt; exact Hk).
    cbv beta iota delta [nextPc setReg addEvent];
      cbn [mBlock mPrev mPc mRegs mArgs mMemory mNextRegion mEvents].
    at_step count_cond. unfold execInst. cbn [instOp instId evalValue mRegs].
    rewrite lookup_insert_eq. rewrite bool_decide_eq_false_2 by discriminate.
    cbv beta iota delta [jumpTo];
      cbn [mBlock mPrev mPc mRegs mArgs mMemory mNextRegion mEvents].
    at_load count_body.
    at_step count_body. unfold execInst. cbn [instOp instId mapM evalValue mRegs].
    rewrite lookup_insert_eq. cbn [mbind option_bind mret option_ret].
    unfold callExternal. change (streq (fnName printfFunction) "printf") with true.
    cbv iota. rewrite count_format.
    cbv beta iota delta [nextPc setReg addEvent];
      cbn [mBlock mPrev mPc mRegs mArgs mMemory mNextRegion mEvents].
    at_load count_body.
    at_step count_body. unfold execInst. cbn [instOp instId evalValue mRegs].
    rewrite lookup_insert_eq. cbn [evalBinOp]. unfold wrap.
    rewrite (Z.mod_small (Z.of_nat k + 1)) by (change (2 ^ Z.of_N 32)%Z with 4294967296%Z; lia).
    cbv beta iota delta [nextPc setReg addEvent];
      cbn [mBlock mPrev mPc mRegs mArgs mMemory mNextRegion mEvents].
    at_step count_body. unfold execInst. cbn [instOp instId evalValue mRegs].
    rewrite lookup_insert_eq.
    rewrite !(lookup_insert_ne _ _ 18) by lia. rewrite Hr18.
    unfold storeTo. cbn [mMemory]. rewrite Hmi, Hlive. cbn [negb rtType]. rewrite Hsize.
    rewrite bool_decide_eq_true_2 by (vm_compute; split; discriminate).
    cbv beta iota delta [nextPc setReg addEvent setMemory];
      cbn [mBlock mPrev mPc mRegs mArgs mMemory mNextRegion mEvents].
    at_step count_body. unfold execInst. cbn [instOp].
    cbv beta iota delta [jumpTo];
      cbn [mBlock mPrev mPc mRegs mArgs mMemory mNextRegion mEvents].
    reflexivity. }
  split; [reflexivity|]. split; [reflexivity|]. cbn [mRegs].
  split; [rewrite !(lookup_insert_ne _ _ 18) by lia; exact Hr18|].
  split; [rewrite !(lookup_insert_ne _ _ 16) by lia; exact Hr16|].
  split; [|split].
  - eexists. cbn [mMemory]. rewrite lookup_insert_eq. split; [reflexivity|].
    cbn [regionLive regionSize regionCells]. split; [reflexivity|]. split; [reflexivity|].
    rewrite lookup_insert_eq. do 2 f_equal. lia.
  - destruct Hnn as (rn & Hmn & Hnlive & Hnsize & Hncell).
    exists rn. cbn [mMemory]. rewrite lookup_insert_ne by discriminate.
    repeat split; assumption.
  - unfold printfCalls. cbn [mEvents]. rewrite !omap_app, Hprinted. cbn [omap].
    rewrite !app_nil_r, countedTo_S. reflexivity.
Qed.

(** Leaving the loop: the condition fails and the function returns [i]. *)
Lemma count_exit n k m :
  (0 <= n < 2 ^ 31)%Z -> Z.of_nat k = n -> atLoopHead n k m ->
  exists m',
    steps 6 (ir (lowered countProgram)) m = Returned (Some (RInt 32 n)) m' /\
    printfCalls m' = countedTo k.
Proof.
  intros Hn Hk (Hb & Hpc & Hr18 & Hr16 & Hi & Hnn & Hprinted).
  change (2 ^ 31)%Z with 2147483648%Z in Hn.
  destruct m as [blk prev pc regs args mem nr ev].
  cbn [mBlock mPc mRegs] in Hb, Hpc, Hr18, Hr16. subst blk pc.
  unfold holdsInt in Hi, Hnn. cbn [mMemory] in Hi, Hnn.
  unfold printfCalls in Hprinted. cbn [mEvents] in Hprinted.
  eexists. split.
  { cbn [steps].
    at_load count_cond.
    at_load count_cond.
    at_step count_cond. unfold execInst. cbn [instOp instId evalValue mRegs].
    rewrite (lookup_insert_ne _ 25 24) by lia. rewrite !lookup_insert_eq.
    cbn [mbind option_bind evalICmp].
    rewrite !signed_small by lia.
    replace (Z.of_nat k <? n)%Z with false by (symmetry; apply Z.ltb_ge; lia).
    cbv beta iota delta [nextPc setReg addEvent];
      cbn [mBlock mPrev mPc mRegs mArgs mMemory mNextRegion mEvents].
    at_step count_cond. unfold execInst. cbn [instOp instId evalValue mRegs].
    rewrite lookup_insert_eq. rewrite bool_decide_eq_true_2 by reflexivity.
    cbv beta iota delta [jumpTo];
      cbn [mBlock mPrev mPc mRegs mArgs mMemory mNextRegion mEvents].
    at_load count_after.
    at_step count_after. unfold execInst. cbn [instOp instId evalValue mRegs].
    rewrite lookup_insert_eq. rewrite Hk. reflexivity. }
  unfold printfCalls. cbn [mEvents]. rewrite !omap_app, Hprinted. cbn [omap].
  now rewrite !app_nil_r.
Qed.

(** From the head of the loop to the return, by induction on the number
    of iterations left. *)
Lemma count_loop n left k m :
  (0 <= n < 2 ^ 31)%Z -> Z.of_nat (k + left) = n -> atLoopHead n k m ->
  exists m',
    steps (10 * left + 6) (ir (lowered countProgram)) m
      = Returned (Some (RInt 32 n)) m' /\
    printfCalls m' = countedTo (k + left).
Proof.
  intros Hn. revert k m. induction left as [|left IH]; intros k m Hk Hat.
  - rewrite Nat.add_0_r in *. apply (count_exit n k m Hn Hk Hat).
  - destruct (count_iteration n k m Hn ltac:(lia) Hat) as (m1 & Hrun & Hat1).
    destruct (IH (S k) m1 ltac:(lia) Hat1) as (m' & Hrest & Hprinted).
    exists m'. split.
    + replace (10 * S left + 6) with (10 + (10 * left + 6)) by lia.
      rewrite steps_add, Hrun. exact Hrest.
    + rewrite Hprinted. f_equal. lia.
Qed.

(** X21.  A loop that counts, run.  [count(n)], compiled, called with
    any [n] from 0 up to the largest [int]: the function runs to its end,
    having gone [n] times through the body of its [while] loop (the
    condition is evaluated before every iteration and the body branches back
    to it), prints the numbers from 0 to [n - 1] in this order and nothing
    else, and returns [n]. *)
Theorem counting_loop_runs n :
  (0 <= n < 2 ^ 31)%Z ->
  exists fuel m,
    call fuel countProgram "count" [RInt 32 n] = Some (Returned (Some (RInt 32 n)) m) /\
    printfCalls m = countedTo (Z.to_nat n).
Proof.
  intros Hn.
  destruct (count_entry_run n) as (m0 & Hentry & Hat0).
  destruct (count_loop n (Z.to_nat n) 0 m0 Hn ltac:(lia) Hat0) as (m & Hloop & Hprinted).
  exists (5 + (10 * Z.to_nat n + 6)), m. split; [|exact Hprinted].
  unfold call. rewrite count_compiles, count_entry. cbn [mbind option_bind].
  rewrite steps_add, Hentry. now rewrite Hloop.
Qed.

Lemma counting_loop_runs_witness :
  exists fuel m,
    call fuel countProgram "count" [RInt 32 3] = Some (Returned (Some (RInt 32 3)) m) /\
    printfCalls m = countedTo (Z.to_nat 3).
Proof.
  apply (counting_loop_runs 3). vm_compute. split; [discriminate | reflexivity].
Defined.

(** ** The loop statement *)

Lemma adv_if_cmp (v : Value) name :
  advancing (if negb (isIntegerTyN 1 (typeOf v))
             then let* zero := ConstantInt_get (typeOf v) 0 in CreateICmpNE v zero name
             else ret v).
Proof. adv_auto. Qed.

Lemma adv_back_edge (term : option Instruction) dest :
  advancing (if negb (bool_decide (is_Some term))
             then clearTempMemory ;; CreateBr dest else ret tt).
Proof. adv_auto. Qed.


